(** * importarr: catalog sync and batched file import

    A shallow embedding of [importarr.py].  Python integers are [Z], Python
    strings are [string], the JSON objects the services return are finite
    maps or records, the process-wide set of registered ids is a [gset], and
    everything the script does to the outside world (directory listings,
    HTTP requests, the lines it prints that matter here) is appended to an
    event log that is threaded through the functions. *)

From Stdlib Require Import ZArith Lia Ascii.
From stdpp Require Import base list strings gmap sorting.

Local Open Scope Z_scope.

(** ** The Python list primitives the script relies on *)

Module Py.

Definition len {A} (l : list A) : Z := Z.of_nat (length l).

(** Number of elements of [range(start, stop, step)] for a non-zero step. *)
Definition range_len (start stop step : Z) : Z :=
  if 0 <? step
  then (if start <? stop then (stop - start - 1) / step + 1 else 0)
  else (if stop <? start then (start - stop - 1) / (- step) + 1 else 0).

(** [range(start, stop, step)]; a zero step raises [ValueError]. *)
Definition range (start stop step : Z) : option (list Z) :=
  if step =? 0 then None
  else Some ((λ k : nat, start + Z.of_nat k * step)
               <$> seq 0 (Z.to_nat (range_len start stop step))).

(** A slice bound is counted from the end when negative and clamped to
    the list. *)
Definition clamp_index (n i : Z) : Z :=
  if i <? 0 then Z.max 0 (i + n) else Z.min i n.

(** [l[i:j]] *)
Definition slice {A} (l : list A) (i j : Z) : list A :=
  let lo := clamp_index (len l) i in
  let hi := clamp_index (len l) j in
  take (Z.to_nat (hi - lo)) (drop (Z.to_nat lo) l).

(** [l[:j]] *)
Definition slice_to {A} (l : list A) (j : Z) : list A := slice l 0 j.

(** [a // b]; Python floors the quotient as [Z.div] does, and a zero
    divisor raises [ZeroDivisionError]. *)
Definition floordiv (a b : Z) : option Z :=
  if b =? 0 then None else Some (a / b).

End Py.

(** ** Batching (the slicing loop of [process_file_folder] and of
    [run_stash_sync]) *)

(** [total_batches = (len(matched) + FILE_BATCH_SIZE - 1) // FILE_BATCH_SIZE] *)
Definition total_batches {A} (matched : list A) (size : Z) : option Z :=
  Py.floordiv (Py.len matched + size - 1) size.

(** The batches [matched[i:i+size]] for [i in range(0, len(matched), size)],
    in loop order. *)
Definition file_batches {A} (matched : list A) (size : Z)
  : option (list (list A)) :=
  match Py.range 0 (Py.len matched) size with
  | Some idxs => Some ((λ i, Py.slice matched i (i + size)) <$> idxs)
  | None => None
  end.

(** ** Data model *)

(** The scalar JSON values the script inspects. *)
Inductive value :=
  | VNone
  | VBool (b : bool)
  | VInt (n : Z)
  | VStr (s : string).

(** Python truthiness of such a value. *)
Definition truthy (v : value) : bool :=
  match v with
  | VNone => false
  | VBool b => b
  | VInt n => negb (n =? 0)
  | VStr s => negb (String.eqb s "")
  end.

(** A JSON object. *)
Abbreviation dict := (gmap string value).

(** A dictionary is truthy when it has at least one key. *)
Definition dict_truthy (d : dict) : bool := negb (Nat.eqb (size d) 0).

(** [d.get(k)] and [d.get(k, dflt)] *)
Definition get (d : dict) (k : string) : value := default VNone (d !! k).
Definition get_or (d : dict) (k : string) (dflt : value) : value :=
  default dflt (d !! k).

(** Remote file descriptor, as returned by [/api/v3/manualimport];
    [scene] and [movie] are [None] when the key is missing or null. *)
Module File.
Record t := mk {
  path : string;
  folderName : option string;
  scene : option dict;
  movie : option dict;
  rejections : list dict;
  quality : option dict;
  languages : list dict;
  releaseGroup : option string;
  downloadId : option string
}.
End File.

(** One entry of the [files] array of the ManualImport command. *)
Module Formatted.
Record t := mk {
  path : string;
  folderName : string;
  movieId : value;
  quality : dict;
  languages : list dict;
  releaseGroup : string;
  downloadId : string;
  importMode : string
}.
End Formatted.

Record command_data := {
  cmd_name : string;
  cmd_files : list Formatted.t;
  cmd_importMode : string
}.

(** Body of the POST to [/api/v3/movie]. *)
Record add_data := {
  add_title : string;
  add_foreignId : string;
  add_stashId : string;
  add_qualityProfileId : Z;
  add_monitored : bool;
  add_rootFolderPath : option string;
  add_tags : option (list Z)
}.

(** A catalog entry as [findScenes] returns it. *)
Module Scene.
Record stash_id_entry := { endpoint : string; stash_id : string }.
Record t := mk {
  title : string;
  date : option string;
  studio : option (option string);
  stash_ids : list stash_id_entry;
  performers : list (option string);
  files : list string
}.
End Scene.

(** What [filter_stashdb_scenes] keeps of a catalog entry. *)
Module StashDB.
Record t := mk {
  stash_id : string;
  title : string;
  date : option string;
  studio : option string;
  performers : list string;
  endpoint : string;
  files : list string
}.
End StashDB.

(** Everything the script does to the outside world, in order. *)
Inductive event :=
  | EListdir (path : string)                (* os.listdir(path) *)
  | EWarnCannotRead (path : string)         (* WARNING: Cannot read directory *)
  | EGetRootFolder                          (* GET /api/v3/rootfolder *)
  | EGetMovie                               (* GET /api/v3/movie *)
  | EPostGraphql (page : Z)                 (* POST /graphql, a query *)
  | EPostMovie (data : add_data)            (* POST /api/v3/movie *)
  | EGetManualImport (folder : string)      (* GET /api/v3/manualimport *)
  | EPostCommand (data : command_data).     (* POST /api/v3/command *)

(** The two calls that change the import target. *)
Definition mutating (e : event) : bool :=
  match e with
  | EPostMovie _ | EPostCommand _ => true
  | _ => false
  end.

Record config := {
  MODE : string;
  DRY_RUN : bool;
  STASH_API_KEY : string;
  STASH_BATCH_SIZE : Z;
  IMPORT_FOLDER : string;
  IMPORT_MODE : string;
  FILE_BATCH_SIZE : Z;
  PROCESS_ROOT_FILES : bool;
  MAX_SUBFOLDERS : option Z;
  MAX_DEPTH : Z;
  QUALITY_PROFILE_ID : Z;
  ROOT_FOLDER_PATH : string;
  TAG_IDS : list Z
}.

(** ** Folder discovery *)

(** The part of [os] and [os.path] the script calls; [listdir] is [None]
    when [os.listdir] raises. *)
Record filesystem := {
  path_exists : string → bool;
  isdir : string → bool;
  isfile : string → bool;
  listdir : string → option (list string)
}.

Fixpoint ends_with_slash (s : string) : bool :=
  match s with
  | EmptyString => false
  | String c EmptyString => Ascii.eqb c "/"%char
  | String _ rest => ends_with_slash rest
  end.

(** [os.path.join(a, b)] on POSIX. *)
Definition join (a b : string) : string :=
  if String.prefix "/" b then b
  else if String.eqb a "" || ends_with_slash a then a +:+ b
  else a +:+ "/" +:+ b.

(** A folder record [(path, depth, file_count)]. *)
Definition folder : Type := string * Z * Z.
Definition folder_path (x : folder) : string := x.1.1.
Definition folder_depth (x : folder) : Z := x.1.2.
Definition folder_files (x : folder) : Z := x.2.

Section discovery.
Context (fs : filesystem).

(** Returns the count and the listing it attempted; any exception gives 0. *)
Definition count_files_in_folder (folder : string) : Z * list event :=
  match listdir fs folder with
  | Some items =>
      (Py.len (List.filter (λ item, isfile fs (join folder item)) items),
       [EListdir folder])
  | None => (0, [EListdir folder])
  end.

(** The body of the loop over [subfolders]: count the files, append the
    record, scan below. *)
Definition visit_subfolder (scan : string → Z → list folder * list event)
    (current_depth : Z) (subfolder : string) : list folder * list event :=
  let '(file_count, listed) := count_files_in_folder subfolder in
  let '(below, events) := scan subfolder (current_depth + 1) in
  ((subfolder, current_depth, file_count) :: below, listed ++ events).

(** The inner function of [get_all_subfolders_recursive].  It returns the
    records it appends to [all_folders] and the events it causes.  The
    recursion of the source ends because [current_depth] grows up to
    [max_depth]; [fuel] makes that structural, and [Z.to_nat max_depth]
    is always enough (see [scan_directory_fuel]). *)
Fixpoint scan_directory (max_depth : Z) (fuel : nat) (path : string)
    (current_depth : Z) : list folder * list event :=
  if current_depth >? max_depth then ([], [])
  else
    match fuel with
    | O => ([], [])
    | S fuel =>
        match listdir fs path with
        | None => ([], [EListdir path; EWarnCannotRead path])
        | Some items =>
            let subfolders := List.filter (isdir fs) (join path <$> items) in
            let visited :=
              visit_subfolder (scan_directory max_depth fuel) current_depth
                <$> subfolders in
            (concat (fst <$> visited),
             EListdir path :: concat (snd <$> visited))
        end
    end.
End discovery.

(** *** The sort key [(-x[1], -x[2], x[0])] *)

Definition sort_key (x : folder) : Z * Z * string :=
  (- folder_depth x, - folder_files x, folder_path x).

(** Python compares strings by code point, which on UTF-8 bytes is the
    byte-wise order of [String.compare]. *)
Definition str_lt (a b : string) : Prop := String.compare a b = Lt.

(** Tuple comparison [k1 < k2]. *)
Definition key_lt (k1 k2 : Z * Z * string) : Prop :=
  k1.1.1 < k2.1.1
  ∨ (k1.1.1 = k2.1.1
     ∧ (k1.1.2 < k2.1.2 ∨ (k1.1.2 = k2.1.2 ∧ str_lt k1.2 k2.2))).

(** [list.sort] only asks whether a later key is smaller than an earlier
    one; [x] may stay in front of [y] when it is not. *)
Definition folder_le (x y : folder) : Prop :=
  ¬ key_lt (sort_key y) (sort_key x).

Global Instance str_lt_dec a b : Decision (str_lt a b).
Proof. unfold str_lt. apply _. Defined.
Global Instance key_lt_dec k1 k2 : Decision (key_lt k1 k2).
Proof. unfold key_lt. apply _. Defined.
Global Instance folder_le_dec : RelDecision folder_le.
Proof. intros x y. unfold folder_le. apply _. Defined.

Definition get_all_subfolders_recursive (fs : filesystem) (root_path : string)
    (max_depth : Z) : list folder * list event :=
  let '(all_folders, events) :=
    scan_directory fs max_depth (Z.to_nat max_depth) root_path 1 in
  (merge_sort folder_le all_folders, events).

(** The order the specification describes: the deeper folder first, then the
    one with more files, then the smaller path. *)
Definition sorts_before (a b : folder) : Prop :=
  folder_depth b < folder_depth a
  ∨ (folder_depth a = folder_depth b
     ∧ (folder_files b < folder_files a
        ∨ (folder_files a = folder_files b
           ∧ str_lt (folder_path a) (folder_path b)))).

(** [at_depth fs root k p]: the directory [p] lies [k] levels below [root]
    (the root itself at level 0, its subdirectories at level 1). *)
Inductive at_depth (fs : filesystem) (root : string) : Z → string → Prop :=
  | at_depth_root : at_depth fs root 0 root
  | at_depth_child k p items item :
      at_depth fs root k p →
      listdir fs p = Some items →
      item ∈ items →
      isdir fs (join p item) = true →
      at_depth fs root (k + 1) (join p item).

(** The import root of the specification's scenario: subfolder [A] with five
    files and [A/B] with three. *)
Definition scenario_dirs : list string :=
  ["/import"; "/import/A"; "/import/A/B"].

Definition scenario_fs : filesystem := {|
  path_exists p := bool_decide (p ∈ scenario_dirs);
  isdir p := bool_decide (p ∈ scenario_dirs);
  isfile p := negb (bool_decide (p ∈ scenario_dirs));
  listdir p :=
    if String.eqb p "/import" then Some ["A"]
    else if String.eqb p "/import/A"
    then Some ["a1.mp4"; "B"; "a2.mp4"; "a3.mp4"; "a4.mp4"; "a5.mp4"]
    else if String.eqb p "/import/A/B"
    then Some ["b1.mp4"; "b2.mp4"; "b3.mp4"]
    else None
|}.

(** The same tree with every unreadable directory turned into an empty
    readable one. *)
Definition treat_unreadable_as_empty (fs : filesystem) : filesystem := {|
  path_exists := path_exists fs;
  isdir := isdir fs;
  isfile := isfile fs;
  listdir p := match listdir fs p with Some items => Some items | None => Some [] end
|}.

Definition is_warning (e : event) : bool :=
  match e with EWarnCannotRead _ => true | _ => false end.

(** An import root with an unreadable subfolder [A] next to a readable [B]
    that holds one file. *)
Definition unreadable_dirs : list string :=
  ["/import"; "/import/A"; "/import/B"].

Definition unreadable_fs : filesystem := {|
  path_exists p := bool_decide (p ∈ unreadable_dirs);
  isdir p := bool_decide (p ∈ unreadable_dirs);
  isfile p := String.eqb p "/import/B/b.mp4";
  listdir p :=
    if String.eqb p "/import" then Some ["A"; "B"]
    else if String.eqb p "/import/B" then Some ["b.mp4"]
    else None
|}.

(** ** Classification of remote file descriptors *)

(** The condition [entity and entity.get("id")]. *)
Definition has_id (entity : option dict) : bool :=
  match entity with
  | Some d => dict_truthy d && truthy (get d "id")
  | None => false
  end.

(** The condition [entity] alone: an entity reference that is neither
    missing, null nor an empty object. *)
Definition present (entity : option dict) : bool :=
  match entity with
  | Some d => dict_truthy d
  | None => false
  end.

Definition entity_id (entity : option dict) : value :=
  match entity with
  | Some d => get d "id"
  | None => VNone
  end.

(** [scene or movie] *)
Definition py_or (scene movie : option dict) : option dict :=
  if present scene then scene else movie.

Record potential_match := {
  pm_file : File.t;
  pm_scene_title : value;
  pm_rejections : list value
}.

Record unmatched_file := {
  um_path : string;
  um_rejections : list value
}.

(** [[r.get("reason", "Unknown") for r in rejections]] *)
Definition rejection_reasons (rejections : list dict) : list value :=
  (λ r, get_or r "reason" (VStr "Unknown")) <$> rejections.

(** The [scene_id] that [filter_matched_files] computes for a descriptor. *)
Definition resolve_scene_id (file : File.t) : value :=
  let scene := File.scene file in
  let movie := File.movie file in
  if has_id scene then entity_id scene
  else if has_id movie then entity_id movie
  else VNone.

(** One iteration of the loop of [filter_matched_files]. *)
Definition classify_file
    (acc : list File.t * list potential_match * list unmatched_file)
    (file : File.t)
  : list File.t * list potential_match * list unmatched_file :=
  let '(matched, potential, unmatched) := acc in
  let rejections := File.rejections file in
  let scene := File.scene file in
  let movie := File.movie file in
  let scene_id := resolve_scene_id file in
  if truthy scene_id then (matched ++ [file], potential, unmatched)
  else if present scene || present movie then
    (matched,
     potential ++
       [{| pm_file := file;
           pm_scene_title :=
             match py_or scene movie with
             | Some entity => get_or entity "title" (VStr "Unknown")
             | None => VStr "Unknown"
             end;
           pm_rejections := rejection_reasons rejections |}],
     unmatched)
  else
    (matched, potential,
     unmatched ++
       [{| um_path := File.path file;
           um_rejections :=
             match rejections with
             | [] => [VStr "No scene/movie data in response"]
             | _ => rejection_reasons rejections
             end |}]).

Definition filter_matched_files (files : list File.t)
  : list File.t * list potential_match * list unmatched_file :=
  foldl classify_file ([], [], []) files.

(** The three buckets of the specification. *)
Inductive bucket := Matched | Potential | Unmatched.

Global Instance bucket_eq_dec : EqDecision bucket.
Proof. solve_decision. Defined.

(** The bucket of a descriptor, read off the descriptor alone: Matched when
    it carries a resolved identifier, Potential when it has an entity
    reference but no usable identifier, Unmatched otherwise. *)
Definition bucket_of (file : File.t) : bucket :=
  if truthy (resolve_scene_id file) then Matched
  else if present (File.scene file) || present (File.movie file) then Potential
  else Unmatched.

(** The [entity_id] that [import_file_batch] computes for a descriptor. *)
Definition resolve_entity_id (file : File.t) : value :=
  let scene := File.scene file in
  let movie := File.movie file in
  if has_id scene then entity_id scene
  else if has_id movie then entity_id movie
  else VNone.

(** The [formatted_file] of a descriptor with a valid id; [None] when the
    descriptor is skipped with a warning. *)
Definition format_file (import_mode : string) (file : File.t)
  : option Formatted.t :=
  let entity_id := resolve_entity_id file in
  if negb (truthy entity_id) then None
  else Some {|
    Formatted.path := File.path file;
    Formatted.folderName := default "" (File.folderName file);
    Formatted.movieId := entity_id;
    Formatted.quality := default ∅ (File.quality file);
    Formatted.languages := File.languages file;
    Formatted.releaseGroup := default "" (File.releaseGroup file);
    Formatted.downloadId := default "" (File.downloadId file);
    Formatted.importMode := import_mode
  |}.

(** Descriptors for the scenarios. *)
Definition descriptor (path : string) (scene movie : option dict) : File.t := {|
  File.path := path;
  File.folderName := None;
  File.scene := scene;
  File.movie := movie;
  File.rejections := [];
  File.quality := None;
  File.languages := [];
  File.releaseGroup := None;
  File.downloadId := None
|}.

Definition entity_with_id (id : Z) : dict :=
  {[ "id" := VInt id; "title" := VStr "Some title" ]}.
Definition entity_without_id : dict := {[ "title" := VStr "Some title" ]}.

(** Ten descriptors: six with a scene id, two with an entity reference but
    no usable id, two with no entity at all. *)
Definition scenario_files : list File.t :=
  [ descriptor "/import/1.mp4" (Some (entity_with_id 1)) None;
    descriptor "/import/2.mp4" (Some entity_without_id) None;
    descriptor "/import/3.mp4" (Some (entity_with_id 3)) None;
    descriptor "/import/4.mp4" None None;
    descriptor "/import/5.mp4" (Some (entity_with_id 5)) None;
    descriptor "/import/6.mp4" (Some (entity_with_id 6)) None;
    descriptor "/import/7.mp4" None (Some entity_without_id);
    descriptor "/import/8.mp4" (Some (entity_with_id 8)) None;
    descriptor "/import/9.mp4" None None;
    descriptor "/import/10.mp4" (Some (entity_with_id 10)) None ].

(** A descriptor whose scene entity has no id while its movie entity has
    one. *)
Definition conflict_file : File.t :=
  descriptor "/import/x.mp4" (Some entity_without_id) (Some (entity_with_id 7)).

(** ** The remote services and the run state *)

(** Outcome of a [requests] call that the script wraps in [try]. *)
Inductive http (A : Type) :=
  | HttpOk (body : A)
  | HttpTimeout
  | HttpError.
Arguments HttpOk {A} body.
Arguments HttpTimeout {A}.
Arguments HttpError {A}.

(** Answer of the catalog to one [findScenes] page. *)
Inductive graphql_reply :=
  | GqlFailed                                   (* RequestException *)
  | GqlErrors                                   (* "errors" in data *)
  | GqlData (scenes : list Scene.t) (count : Z).

(** Answer of the import target to [POST /api/v3/movie]; [error_msg] is
    [str(e.response.json()).lower()], absent when the body is not JSON. *)
Inductive add_reply :=
  | AddOk (title : option string)
  | AddHttpError (status_code : Z) (error_msg : option string)
  | AddFailed.

(** Answer to [POST /api/v3/command]; [id] is [result.get("id")]. *)
Inductive command_reply :=
  | CmdOk (id : value)
  | CmdFailed.

(** The services answer a request knowing everything that happened before
    it. *)
Record remote := {
  rootfolder_reply : list event → http (list (option string));
  movie_reply : list event → http (list (option string));
  graphql_reply_to : list event → Z → Z → graphql_reply;
  add_reply_to : list event → add_data → add_reply;
  manualimport_reply : list event → string → http (list File.t);
  command_reply_to : list event → command_data → command_reply
}.

(** [total_stats] *)
Record stash_stats := {
  scenes_found : Z;
  scenes_with_stashdb : Z;
  scenes_added : Z;
  scenes_already_exist : Z;
  scenes_failed : Z;
  stash_batches_processed : Z
}.

Record file_stats := {
  subfolders_processed : Z;
  files_imported : Z;
  files_unmatched : Z;
  file_batches_processed : Z
}.

Record state := {
  log : list event;
  stash : stash_stats;
  files : file_stats
}.

Definition initial_state : state := {|
  log := [];
  stash := Build_stash_stats 0 0 0 0 0 0;
  files := Build_file_stats 0 0 0 0
|}.

Definition emit (e : event) (st : state) : state :=
  {| log := log st ++ [e]; stash := stash st; files := files st |}.

Definition emit_all (events : list event) (st : state) : state :=
  {| log := log st ++ events; stash := stash st; files := files st |}.

Definition update_stash (f : stash_stats → stash_stats) (st : state) : state :=
  {| log := log st; stash := f (stash st); files := files st |}.

Definition update_files (f : file_stats → file_stats) (st : state) : state :=
  {| log := log st; stash := stash st; files := f (files st) |}.

(** [total_stats["stash"]["scenes_already_exist"] += 1] *)
Definition count_already_exist (st : state) : state :=
  update_stash (λ s,
    {| scenes_found := scenes_found s;
       scenes_with_stashdb := scenes_with_stashdb s;
       scenes_added := scenes_added s;
       scenes_already_exist := scenes_already_exist s + 1;
       scenes_failed := scenes_failed s;
       stash_batches_processed := stash_batches_processed s |}) st.

Definition set_scenes_found (n : Z) (st : state) : state :=
  update_stash (λ s,
    {| scenes_found := n;
       scenes_with_stashdb := scenes_with_stashdb s;
       scenes_added := scenes_added s;
       scenes_already_exist := scenes_already_exist s;
       scenes_failed := scenes_failed s;
       stash_batches_processed := stash_batches_processed s |}) st.

Definition set_scenes_with_stashdb (n : Z) (st : state) : state :=
  update_stash (λ s,
    {| scenes_found := scenes_found s;
       scenes_with_stashdb := n;
       scenes_added := scenes_added s;
       scenes_already_exist := scenes_already_exist s;
       scenes_failed := scenes_failed s;
       stash_batches_processed := stash_batches_processed s |}) st.

(** The three updates after a catalog batch. *)
Definition count_stash_batch (added failed : Z) (st : state) : state :=
  update_stash (λ s,
    {| scenes_found := scenes_found s;
       scenes_with_stashdb := scenes_with_stashdb s;
       scenes_added := scenes_added s + added;
       scenes_already_exist := scenes_already_exist s;
       scenes_failed := scenes_failed s + failed;
       stash_batches_processed := stash_batches_processed s + 1 |}) st.

(** The four updates after a folder. *)
Definition count_folder (imported unmatched batches : Z) (st : state) : state :=
  update_files (λ s,
    {| subfolders_processed := subfolders_processed s + 1;
       files_imported := files_imported s + imported;
       files_unmatched := files_unmatched s + unmatched;
       file_batches_processed := file_batches_processed s + batches |}) st.

(** How a function of the script ends: it returns, an exception escapes
    it, or (for the model of the unbounded fetch loop) the fuel ran out
    before the loop ended. *)
Inductive outcome (A : Type) :=
  | Returned (a : A)
  | Raised
  | OutOfFuel.
Arguments Returned {A} a.
Arguments Raised {A}.
Arguments OutOfFuel {A}.

(** [needle in hay] *)
Fixpoint str_in (needle hay : string) : bool :=
  String.prefix needle hay
  || match hay with
     | EmptyString => false
     | String _ rest => str_in needle rest
     end.

Definition with_dry_run (b : bool) (cfg : config) : config := {|
  MODE := MODE cfg;
  DRY_RUN := b;
  STASH_API_KEY := STASH_API_KEY cfg;
  STASH_BATCH_SIZE := STASH_BATCH_SIZE cfg;
  IMPORT_FOLDER := IMPORT_FOLDER cfg;
  IMPORT_MODE := IMPORT_MODE cfg;
  FILE_BATCH_SIZE := FILE_BATCH_SIZE cfg;
  PROCESS_ROOT_FILES := PROCESS_ROOT_FILES cfg;
  MAX_SUBFOLDERS := MAX_SUBFOLDERS cfg;
  MAX_DEPTH := MAX_DEPTH cfg;
  QUALITY_PROFILE_ID := QUALITY_PROFILE_ID cfg;
  ROOT_FOLDER_PATH := ROOT_FOLDER_PATH cfg;
  TAG_IDS := TAG_IDS cfg
|}.

(** ** Catalog sync *)

(** [per_page = 100] *)
Definition per_page : Z := 100.

Section catalog_sync.
Context (cfg : config) (srv : remote).

Definition get_root_folders (st : state) : list (option string) * state :=
  let reply := rootfolder_reply srv (log st) in
  let st := emit EGetRootFolder st in
  match reply with
  | HttpOk folders => (folders, st)
  | HttpTimeout | HttpError => ([], st)
  end.

Definition get_whisparr_movies (st : state) : list (option string) * state :=
  let reply := movie_reply srv (log st) in
  let st := emit EGetMovie st in
  match reply with
  | HttpOk movies => (movies, st)
  | HttpTimeout | HttpError => ([], st)
  end.

(** The [while True] loop of [get_stash_scenes]; [None] when the fuel is
    used up before the loop breaks. *)
Fixpoint fetch_scenes (fuel : nat) (page : Z) (all_scenes : list Scene.t)
    (st : state) : option (list Scene.t) * state :=
  match fuel with
  | O => (None, st)
  | S fuel =>
      let reply := graphql_reply_to srv (log st) page per_page in
      let st := emit (EPostGraphql page) st in
      match reply with
      | GqlFailed => (Some all_scenes, st)
      | GqlErrors => (Some all_scenes, st)
      | GqlData scenes total_count =>
          match scenes with
          | [] => (Some all_scenes, st)
          | _ :: _ =>
              let all_scenes := all_scenes ++ scenes in
              if Py.len all_scenes >=? total_count
              then (Some all_scenes, st)
              else fetch_scenes fuel (page + 1) all_scenes st
          end
      end
  end.

Definition get_stash_scenes (fuel : nat) (st : state)
  : option (list Scene.t) * state :=
  fetch_scenes fuel 1 [] st.

(** The first identifier of the entry whose endpoint names StashDB. *)
Definition stashdb_scene (scene : Scene.t) : option StashDB.t :=
  match List.find (λ id, str_in "stashdb.org" (Scene.endpoint id))
                  (Scene.stash_ids scene) with
  | Some id =>
      Some {|
        StashDB.stash_id := Scene.stash_id id;
        StashDB.title := Scene.title scene;
        StashDB.date := Scene.date scene;
        StashDB.studio :=
          match Scene.studio scene with
          | Some name => name
          | None => None
          end;
        StashDB.performers :=
          omap (λ name : option string,
                  match name with
                  | Some n => if String.eqb n "" then None else Some n
                  | None => None
                  end) (Scene.performers scene);
        StashDB.endpoint := Scene.endpoint id;
        StashDB.files := Scene.files scene
      |}
  | None => None
  end.

Definition filter_stashdb_scenes (scenes : list Scene.t) : list StashDB.t :=
  omap stashdb_scene scenes.

Definition make_add_data (stash_id title : string)
    (root_folder : option string) : add_data := {|
  add_title := title;
  add_foreignId := stash_id;
  add_stashId := stash_id;
  add_qualityProfileId := QUALITY_PROFILE_ID cfg;
  add_monitored := true;
  add_rootFolderPath := root_folder;
  add_tags := match TAG_IDS cfg with [] => None | tags => Some tags end
|}.

Definition add_scene_to_whisparr (stash_id title : string)
    (root_folder : option string) (st : state) : bool * state :=
  if DRY_RUN cfg then (true, st)
  else
    let add_data := make_add_data stash_id title root_folder in
    let reply := add_reply_to srv (log st) add_data in
    let st := emit (EPostMovie add_data) st in
    match reply with
    | AddOk _ => (true, st)
    | AddHttpError status_code (Some error_msg) =>
        if (status_code =? 400)
           && (str_in "already" error_msg || str_in "exist" error_msg)
        then (true, count_already_exist st)
        else if (status_code =? 404) || str_in "not found" error_msg
        then (false, st)
        else if str_in "validation" error_msg then (false, st)
        else (false, st)
    | AddHttpError _ None => (false, st)
    | AddFailed => (false, st)
    end.

(** One iteration of the loop of [process_stash_batch], on the local
    counters, the shared set and the state. *)
Definition process_scene (acc : Z * Z * gset string * state)
    (root_folder : option string) (scene : StashDB.t)
  : Z * Z * gset string * state :=
  let '(added, failed, existing_stash_ids, st) := acc in
  let stash_id := StashDB.stash_id scene in
  let title := StashDB.title scene in
  if bool_decide (stash_id ∈ existing_stash_ids)
  then (added + 1, failed, existing_stash_ids, count_already_exist st)
  else
    let '(success, st) := add_scene_to_whisparr stash_id title root_folder st in
    if success
    then (added + 1, failed, {[stash_id]} ∪ existing_stash_ids, st)
    else (added, failed + 1, existing_stash_ids, st).

(** Returns [added], [failed], the set as the batch leaves it and the
    state. *)
Definition process_stash_batch (batch : list StashDB.t)
    (existing_stash_ids : gset string) (root_folder : option string)
    (st : state) : Z * Z * gset string * state :=
  foldl (λ acc scene, process_scene acc root_folder scene)
        (0, 0, existing_stash_ids, st) batch.

(** The loop over the batches in [run_stash_sync]. *)
Definition process_stash_batches (batches : list (list StashDB.t))
    (existing_stash_ids : gset string) (root_folder : option string)
    (st : state) : gset string * state :=
  foldl (λ '(existing_stash_ids, st) batch,
           let '(added, failed, existing_stash_ids, st) :=
             process_stash_batch batch existing_stash_ids root_folder st in
           (existing_stash_ids, count_stash_batch added failed st))
        (existing_stash_ids, st) batches.

Definition run_stash_sync (fuel : nat) (st : state) : outcome bool * state :=
  let '(root_folders, st) := get_root_folders st in
  match root_folders with
  | [] => (Returned false, st)
  | first :: _ =>
      let root_folder :=
        if String.eqb (ROOT_FOLDER_PATH cfg) "" then first
        else Some (ROOT_FOLDER_PATH cfg) in
      let '(existing_movies, st) := get_whisparr_movies st in
      let existing_stash_ids : gset string :=
        list_to_set
          (omap (λ id : option string,
                   match id with
                   | Some s => if String.eqb s "" then None else Some s
                   | None => None
                   end) existing_movies) in
      let '(fetched, st) := get_stash_scenes fuel st in
      match fetched with
      | None => (OutOfFuel, st)
      | Some all_scenes =>
          let st := set_scenes_found (Py.len all_scenes) st in
          match all_scenes with
          | [] => (Returned true, st)
          | _ :: _ =>
              let stashdb_scenes := filter_stashdb_scenes all_scenes in
              let st := set_scenes_with_stashdb (Py.len stashdb_scenes) st in
              match stashdb_scenes with
              | [] => (Returned true, st)
              | _ :: _ =>
                  match total_batches stashdb_scenes (STASH_BATCH_SIZE cfg),
                        file_batches stashdb_scenes (STASH_BATCH_SIZE cfg) with
                  | Some _, Some batches =>
                      let '(_, st) :=
                        process_stash_batches batches existing_stash_ids
                          root_folder st in
                      (Returned true, st)
                  | _, _ => (Raised, st)
                  end
              end
          end
      end
  end.
End catalog_sync.

(** ** File import *)

Section file_import.
Context (cfg : config) (srv : remote).

Definition get_files_to_import (folder : string) (st : state)
  : list File.t * state :=
  let reply := manualimport_reply srv (log st) folder in
  let st := emit (EGetManualImport folder) st in
  match reply with
  | HttpOk files => (files, st)
  | HttpTimeout | HttpError => ([], st)
  end.

Definition make_command_data (formatted_files : list Formatted.t)
  : command_data := {|
  cmd_name := "ManualImport";
  cmd_files := formatted_files;
  cmd_importMode := IMPORT_MODE cfg
|}.

Definition import_file_batch (batch : list File.t) (st : state)
  : bool * state :=
  if DRY_RUN cfg then (true, st)
  else
    let formatted_files := omap (format_file (IMPORT_MODE cfg)) batch in
    match formatted_files with
    | [] => (false, st)
    | _ :: _ =>
        let command_data := make_command_data formatted_files in
        let reply := command_reply_to srv (log st) command_data in
        let st := emit (EPostCommand command_data) st in
        match reply with
        | CmdOk id => (truthy id, st)
        | CmdFailed => (false, st)
        end
    end.

(** The loop over the batches in [process_file_folder]: the number of
    successful batches and the state. *)
Definition import_batches (batches : list (list File.t)) (st : state)
  : Z * state :=
  foldl (λ '(successful_batches, st) batch,
           let '(success, st) := import_file_batch batch st in
           (if success then successful_batches + 1 else successful_batches,
            st))
        (0, st) batches.

(** Returns [(imported, unmatched, batches)]. *)
Definition process_file_folder (folder : string) (st : state)
  : outcome (Z * Z * Z) * state :=
  let '(all_files, st) := get_files_to_import folder st in
  match all_files with
  | [] => (Returned (0, 0, 0), st)
  | _ :: _ =>
      let '(matched, potential, unmatched) := filter_matched_files all_files in
      match matched with
      | [] => (Returned (0, Py.len unmatched + Py.len potential, 0), st)
      | _ :: _ =>
          match total_batches matched (FILE_BATCH_SIZE cfg),
                file_batches matched (FILE_BATCH_SIZE cfg) with
          | Some _, Some batches =>
              let '(successful_batches, st) := import_batches batches st in
              (Returned (Py.len matched,
                         Py.len unmatched + Py.len potential,
                         successful_batches), st)
          | _, _ => (Raised, st)
          end
      end
  end.

(** [MAX_SUBFOLDERS and len(all_subfolders) > MAX_SUBFOLDERS], then the
    slice. *)
Definition limit_subfolders (all_subfolders : list folder) : list folder :=
  match MAX_SUBFOLDERS cfg with
  | Some max_subfolders =>
      if negb (max_subfolders =? 0)
         && (Py.len all_subfolders >? max_subfolders)
      then Py.slice_to all_subfolders max_subfolders
      else all_subfolders
  | None => all_subfolders
  end.

(** The list [folders_to_process] of [run_file_import], with the events
    of the discovery and of counting the root's files. *)
Definition folders_to_process (fs : filesystem) : list folder * list event :=
  let '(all_subfolders, scanned) :=
    get_all_subfolders_recursive fs (IMPORT_FOLDER cfg) (MAX_DEPTH cfg) in
  let all_subfolders := limit_subfolders all_subfolders in
  if PROCESS_ROOT_FILES cfg
  then
    let '(root_file_count, listed) :=
      count_files_in_folder fs (IMPORT_FOLDER cfg) in
    ((IMPORT_FOLDER cfg, 0, root_file_count) :: all_subfolders,
     scanned ++ listed)
  else (all_subfolders, scanned).

(** The loop over [folders_to_process]; an exception in a folder ends
    it. *)
Fixpoint process_folders (folders : list folder) (st : state)
  : outcome unit * state :=
  match folders with
  | [] => (Returned (), st)
  | (folder, depth, file_count) :: rest =>
      match process_file_folder folder st with
      | (Returned (imported, unmatched, batches), st) =>
          process_folders rest (count_folder imported unmatched batches st)
      | (Raised, st) => (Raised, st)
      | (OutOfFuel, st) => (OutOfFuel, st)
      end
  end.

Definition run_file_import (fs : filesystem) (st : state)
  : outcome bool * state :=
  if negb (path_exists fs (IMPORT_FOLDER cfg)) then (Returned false, st)
  else
    let '(folders, events) := folders_to_process fs in
    let st := emit_all events st in
    match folders with
    | [] => (Returned true, st)
    | _ :: _ =>
        match process_folders folders st with
        | (Returned _, st) => (Returned true, st)
        | (Raised, st) => (Raised, st)
        | (OutOfFuel, st) => (OutOfFuel, st)
        end
    end.

(** [run_all_imports]: an exception of a pipeline is caught and counts
    as a failure of that pipeline. *)
Definition run_all_imports (fs : filesystem) (fuel : nat) (st : state)
  : outcome bool * state :=
  let stash_mode := bool_decide (MODE cfg ∈ ["both"; "stash"]) in
  let files_mode := bool_decide (MODE cfg ∈ ["both"; "files"]) in
  let '(synced, st) :=
    if stash_mode then
      if String.eqb (STASH_API_KEY cfg) "" then (Returned false, st)
      else
        match run_stash_sync cfg srv fuel st with
        | (Returned ok, st) => (Returned ok, st)
        | (Raised, st) => (Returned false, st)
        | (OutOfFuel, st) => (OutOfFuel, st)
        end
    else (Returned true, st) in
  match synced with
  | Returned success =>
      if files_mode then
        match run_file_import fs st with
        | (Returned ok, st) => (Returned (success && ok), st)
        | (Raised, st) => (Returned false, st)
        | (OutOfFuel, st) => (OutOfFuel, st)
        end
      else (Returned success, st)
  | Raised => (Raised, st)
  | OutOfFuel => (OutOfFuel, st)
  end.
End file_import.

(** A descriptor whose scene and movie entities both carry an id. *)
Definition both_ids_file : File.t :=
  descriptor "/import/y.mp4" (Some (entity_with_id 1)) (Some (entity_with_id 2)).

(** *** The pages of a fetch *)

(** The requests for the pages [1 .. n]. *)
Definition page_requests (n : nat) : list event :=
  (λ k : nat, EPostGraphql (Z.of_nat k)) <$> seq 1 n.

(** The reply to the request for page [k], sent after the requests for the
    pages before it. *)
Definition page_reply (srv : remote) (st : state) (k : nat) : graphql_reply :=
  graphql_reply_to srv (log st ++ page_requests (k - 1)) (Z.of_nat k) per_page.

Definition page_scenes (reply : graphql_reply) : list Scene.t :=
  match reply with
  | GqlData scenes _ => scenes
  | GqlFailed | GqlErrors => []
  end.

(** The scenes of the pages [1 .. n]. *)
Definition fetched (srv : remote) (st : state) (n : nat) : list Scene.t :=
  concat ((λ k, page_scenes (page_reply srv st k)) <$> seq 1 n).

(** The loop of [get_stash_scenes] breaks on page [k]: the request failed,
    the reply carries GraphQL errors, the page is empty, or the scenes
    fetched so far reach the reported total. *)
Definition breaks_at (srv : remote) (st : state) (k : nat) : bool :=
  match page_reply srv st k with
  | GqlFailed | GqlErrors => true
  | GqlData [] _ => true
  | GqlData (_ :: _) total_count => Py.len (fetched srv st k) >=? total_count
  end.

(** The stopping rule in the words of the specification: the page has fewer
    items than the page size, or the scenes fetched so far reach the
    reported total. *)
Definition spec_breaks_at (srv : remote) (st : state) (k : nat) : bool :=
  match page_reply srv st k with
  | GqlFailed | GqlErrors => true
  | GqlData scenes total_count =>
      (Py.len scenes <? per_page)
      || (Py.len (fetched srv st k) >=? total_count)
  end.

(** A remote whose answers depend on the request only. *)
Definition simple_remote (graphql : Z → graphql_reply)
    (add : add_data → add_reply) (manualimport : string → http (list File.t))
  : remote := {|
  rootfolder_reply _ := HttpOk [Some "/data"];
  movie_reply _ := HttpOk [];
  graphql_reply_to _ page _ := graphql page;
  add_reply_to _ data := add data;
  manualimport_reply _ folder := manualimport folder;
  command_reply_to _ _ := CmdOk (VInt 1)
|}.

Definition catalog_scene (title stash_id : string) : Scene.t := {|
  Scene.title := title;
  Scene.date := None;
  Scene.studio := None;
  Scene.stash_ids :=
    [{| Scene.endpoint := "https://stashdb.org/graphql";
        Scene.stash_id := stash_id |}];
  Scene.performers := [];
  Scene.files := []
|}.

(** A catalog that reports three scenes and hands them out one per page. *)
Definition short_pages : remote :=
  simple_remote
    (λ page,
       if page =? 1 then GqlData [catalog_scene "one" "id-1"] 3
       else if page =? 2 then GqlData [catalog_scene "two" "id-2"] 3
       else if page =? 3 then GqlData [catalog_scene "three" "id-3"] 3
       else GqlData [] 3)
    (λ _, AddOk None)
    (λ _, HttpOk []).

(** *** Registration replies *)

(** The reply is the "already exists" error of the import target. *)
Definition reported_existing (reply : add_reply) : bool :=
  match reply with
  | AddHttpError status_code (Some error_msg) =>
      (status_code =? 400)
      && (str_in "already" error_msg || str_in "exist" error_msg)
  | _ => false
  end.

(** The replies on which [add_scene_to_whisparr] returns [True]. *)
Definition accepted (reply : add_reply) : bool :=
  match reply with
  | AddOk _ => true
  | _ => reported_existing reply
  end.

Definition stashdb_entry (title stash_id : string) : StashDB.t := {|
  StashDB.stash_id := stash_id;
  StashDB.title := title;
  StashDB.date := None;
  StashDB.studio := None;
  StashDB.performers := [];
  StashDB.endpoint := "https://stashdb.org/graphql";
  StashDB.files := []
|}.

(** A configuration for the scenarios. *)
Definition scenario_config (dry_run : bool) : config := {|
  MODE := "both";
  DRY_RUN := dry_run;
  STASH_API_KEY := "key";
  STASH_BATCH_SIZE := 50;
  IMPORT_FOLDER := "/import";
  IMPORT_MODE := "copy";
  FILE_BATCH_SIZE := 50;
  PROCESS_ROOT_FILES := true;
  MAX_SUBFOLDERS := Some 1;
  MAX_DEPTH := 10;
  QUALITY_PROFILE_ID := 1;
  ROOT_FOLDER_PATH := "";
  TAG_IDS := []
|}.

(** What holds of the registration calls [evs] made since the log was
    [base] and the set was [existing0], when the set is now [cur]. *)
Definition registrations_ok (srv : remote) (base : list event) (existing0 cur : gset string)
    (evs : list event) : Prop :=
  existing0 ⊆ cur
  ∧ (∀ (i : nat) d, evs !! i = Some (EPostMovie d) →
       (add_stashId d ∉ existing0)
       ∧ (accepted (add_reply_to srv (base ++ take i evs) d) = true →
          add_stashId d ∈ cur))
  ∧ (∀ (i j : nat) d1 d2, (i < j)%nat →
       evs !! i = Some (EPostMovie d1) → evs !! j = Some (EPostMovie d2) →
       add_stashId d1 = add_stashId d2 →
       accepted (add_reply_to srv (base ++ take i evs) d1) = false).

(** The folders for which the import target is queried, in order. *)
Definition import_requests (events : list event) : list string :=
  omap (λ e, match e with EGetManualImport folder => Some folder | _ => None end)
       events.

(** ** Dry run against live run *)

(** The non-mutating part of a history. *)
Definition reads (history : list event) : list event :=
  List.filter (λ e, negb (mutating e)) history.

(** The answers to the queries do not depend on the mutating calls made
    before them. *)
Definition reads_ignore_writes (srv : remote) : Prop :=
  ∀ h h', reads h = reads h' →
    rootfolder_reply srv h = rootfolder_reply srv h'
    ∧ movie_reply srv h = movie_reply srv h'
    ∧ (∀ page size, graphql_reply_to srv h page size
                    = graphql_reply_to srv h' page size)
    ∧ (∀ folder, manualimport_reply srv h folder
                 = manualimport_reply srv h' folder).

(** The state of a dry run has the shape of the state of a live run: the
    same queries were made in the same order, and the counters agree,
    except that a live run may have fewer successful file batches and may
    split the catalog entries differently between added and failed. *)
Definition same_shape (dry live : state) : Prop :=
  reads (log live) = reads (log dry)
  ∧ scenes_found (stash dry) = scenes_found (stash live)
  ∧ scenes_with_stashdb (stash dry) = scenes_with_stashdb (stash live)
  ∧ stash_batches_processed (stash dry) = stash_batches_processed (stash live)
  ∧ scenes_added (stash dry) + scenes_failed (stash dry)
    = scenes_added (stash live) + scenes_failed (stash live)
  ∧ subfolders_processed (files dry) = subfolders_processed (files live)
  ∧ files_imported (files dry) = files_imported (files live)
  ∧ files_unmatched (files dry) = files_unmatched (files live)
  ∧ file_batches_processed (files live) <= file_batches_processed (files dry).

(** An import target that has two matched files in [/import/A/B]. *)
Definition scenario_remote : remote :=
  simple_remote
    (λ page,
       if page =? 1
       then GqlData [catalog_scene "one" "id-1"; catalog_scene "two" "id-2"] 2
       else GqlData [] 2)
    (λ _, AddFailed)
    (λ folder,
       if String.eqb folder "/import/A/B"
       then HttpOk [descriptor "/import/A/B/b1.mp4" (Some (entity_with_id 1)) None;
                    descriptor "/import/A/B/b2.mp4" None (Some (entity_with_id 2));
                    descriptor "/import/A/B/b3.mp4" None None]
       else HttpOk []).

(** [st'] continues [st] without any mutating call. *)
Definition extends_quietly (st st' : state) : Prop :=
  ∃ evs, log st' = log st ++ evs ∧ Forall (λ e, mutating e = false) evs.

(** The catalog entry carries an identifier of the StashDB endpoint. *)
Definition has_stashdb_id (scene : Scene.t) : bool :=
  existsb (λ id, str_in "stashdb.org" (Scene.endpoint id))
          (Scene.stash_ids scene).

Definition is_post_movie (e : event) : bool :=
  match e with EPostMovie _ => true | _ => false end.

Definition is_post_command (e : event) : bool :=
  match e with EPostCommand _ => true | _ => false end.

(** The requests of the catalog sync. *)
Definition is_stash_event (e : event) : bool :=
  match e with
  | EGetRootFolder | EGetMovie | EPostGraphql _ | EPostMovie _ => true
  | _ => false
  end.

(** A catalog entry with two identifiers, the second one from StashDB. *)
Definition two_ids_scene : Scene.t := {|
  Scene.title := "two ids";
  Scene.date := None;
  Scene.studio := Some (Some "Studio");
  Scene.stash_ids :=
    [{| Scene.endpoint := "https://theporndb.net/graphql";
        Scene.stash_id := "tpdb-1" |};
     {| Scene.endpoint := "https://stashdb.org/graphql";
        Scene.stash_id := "sdb-1" |}];
  Scene.performers := [Some "A"; None; Some ""];
  Scene.files := []
|}.

(** A catalog batch changes no counter but [scenes_already_exist]. *)
Definition only_already_exist_changed (st st' : state) : Prop :=
  scenes_found (stash st') = scenes_found (stash st)
  ∧ scenes_with_stashdb (stash st') = scenes_with_stashdb (stash st)
  ∧ scenes_added (stash st') = scenes_added (stash st)
  ∧ scenes_failed (stash st') = scenes_failed (stash st)
  ∧ stash_batches_processed (stash st') = stash_batches_processed (stash st)
  ∧ files st' = files st.

(** The registration request for a catalog entry. *)
Definition registration_of (cfg : config) (root_folder : option string)
    (scene : StashDB.t) : event :=
  EPostMovie (make_add_data cfg (StashDB.stash_id scene) (StashDB.title scene)
                root_folder).

(** An import target that refuses every registration. *)
Definition refusing_remote : remote :=
  simple_remote (λ _, GqlData [] 0)
                (λ _, AddHttpError 404 (Some "not found"))
                (λ _, HttpOk []).

(** Services that cannot be reached. *)
Definition offline_remote : remote := {|
  rootfolder_reply _ := HttpError;
  movie_reply _ := HttpTimeout;
  graphql_reply_to _ _ _ := GqlFailed;
  add_reply_to _ _ := AddFailed;
  manualimport_reply _ _ := HttpTimeout;
  command_reply_to _ _ := CmdFailed
|}.

(** The events of the file import. *)
Definition is_file_event (e : event) : bool :=
  match e with
  | EListdir _ | EWarnCannotRead _ | EGetManualImport _ | EPostCommand _ => true
  | _ => false
  end.

(** The same configuration with another file batch size. *)
Definition with_file_batch_size (size : Z) (cfg : config) : config := {|
  MODE := MODE cfg;
  DRY_RUN := DRY_RUN cfg;
  STASH_API_KEY := STASH_API_KEY cfg;
  STASH_BATCH_SIZE := STASH_BATCH_SIZE cfg;
  IMPORT_FOLDER := IMPORT_FOLDER cfg;
  IMPORT_MODE := IMPORT_MODE cfg;
  FILE_BATCH_SIZE := size;
  PROCESS_ROOT_FILES := PROCESS_ROOT_FILES cfg;
  MAX_SUBFOLDERS := MAX_SUBFOLDERS cfg;
  MAX_DEPTH := MAX_DEPTH cfg;
  QUALITY_PROFILE_ID := QUALITY_PROFILE_ID cfg;
  ROOT_FOLDER_PATH := ROOT_FOLDER_PATH cfg;
  TAG_IDS := TAG_IDS cfg
|}.

(** The same configuration with another operating mode and catalog key. *)
Definition with_mode (mode key : string) (cfg : config) : config := {|
  MODE := mode;
  DRY_RUN := DRY_RUN cfg;
  STASH_API_KEY := key;
  STASH_BATCH_SIZE := STASH_BATCH_SIZE cfg;
  IMPORT_FOLDER := IMPORT_FOLDER cfg;
  IMPORT_MODE := IMPORT_MODE cfg;
  FILE_BATCH_SIZE := FILE_BATCH_SIZE cfg;
  PROCESS_ROOT_FILES := PROCESS_ROOT_FILES cfg;
  MAX_SUBFOLDERS := MAX_SUBFOLDERS cfg;
  MAX_DEPTH := MAX_DEPTH cfg;
  QUALITY_PROFILE_ID := QUALITY_PROFILE_ID cfg;
  ROOT_FOLDER_PATH := ROOT_FOLDER_PATH cfg;
  TAG_IDS := TAG_IDS cfg
|}.

(** [st'] continues [st] with events of one kind only. *)
Definition extends_with (kind : event → bool) (st st' : state) : Prop :=
  ∃ evs, log st' = log st ++ evs ∧ Forall (λ e, kind e = true) evs.

(** The number of commands among some events. *)
Definition commands_posted (events : list event) : Z :=
  Py.len (List.filter is_post_command events).

(** * Properties *)

(** *** Facts about ranges and slices *)

Lemma range_len_ceil (n step : Z) :
  0 <= n → 0 < step → Py.range_len 0 n step = (n + step - 1) / step.
Proof.
  intros Hn Hs. unfold Py.range_len.
  destruct (Z.ltb_spec 0 step) as [_|]; [|lia].
  destruct (Z.ltb_spec 0 n) as [Hpos|Hz].
  - replace (n - 0 - 1) with (n - 1) by lia.
    replace (n + step - 1) with (n - 1 + 1 * step) by lia.
    by rewrite Z.div_add by lia.
  - assert (n = 0) as -> by lia.
    symmetry. apply Z.div_small. lia.
Qed.

Lemma slice_window {A} (l : list A) (i w : Z) :
  0 <= i → 0 <= w →
  Py.slice l i (i + w) = take (Z.to_nat w) (drop (Z.to_nat i) l).
Proof.
  intros Hi Hw. unfold Py.slice, Py.clamp_index, Py.len.
  destruct (Z.ltb_spec i 0); [lia|].
  destruct (Z.ltb_spec (i + w) 0); [lia|].
  destruct (Z.le_gt_cases (Z.of_nat (length l)) i) as [Hout|Hin].
  - rewrite !drop_ge by lia. by rewrite !take_nil.
  - rewrite (Z.min_l i) by lia.
    destruct (Z.le_gt_cases (i + w) (Z.of_nat (length l))).
    + by replace (Z.min (i + w) (Z.of_nat (length l)) - i) with w by lia.
    + rewrite Z.min_r by lia.
      rewrite !take_ge; [done| |]; rewrite length_drop; lia.
Qed.

(** Consecutive windows of width [w] glue back to a prefix. *)
Lemma concat_windows {A} (l : list A) (w n s : nat) :
  concat ((λ k : nat, take w (drop (k * w) l)) <$> seq s n)
  = take (n * w) (drop (s * w) l).
Proof.
  revert s. induction n as [|n IH]; intros s; [done|].
  cbn [seq fmap list_fmap concat]. rewrite IH.
  replace (S s * w)%nat with (s * w + w)%nat by lia.
  by rewrite <- drop_drop, take_take_drop.
Qed.

Lemma file_batches_eq {A} (matched : list A) (size : Z) :
  0 < size →
  file_batches matched size =
    Some ((λ k : nat, take (Z.to_nat size) (drop (k * Z.to_nat size) matched))
            <$> seq 0 (Z.to_nat ((Py.len matched + size - 1) / size))).
Proof.
  intros Hs. unfold file_batches, Py.range.
  destruct (Z.eqb_spec size 0); [lia|]. cbn.
  rewrite range_len_ceil by (unfold Py.len; lia).
  f_equal. rewrite <- list_fmap_compose. apply list_fmap_ext.
  intros _ k _. cbn.
  rewrite slice_window by lia. f_equal. f_equal. lia.
Qed.

(** [C1] Batching: for a positive batch size the slicing loop of
    [process_file_folder] cuts the Matched list into [total_batches]
    consecutive batches whose concatenation, in order, is the Matched list
    itself; no batch is larger than the batch size; batch [i] holds
    [min(size, len - i*size)] files, so every batch but the last is full. *)
Theorem file_batches_partition {A} (matched : list A) (size : Z) :
  0 < size →
  ∃ batches,
    file_batches matched size = Some batches
    ∧ concat batches = matched
    ∧ Forall (λ b, Py.len b <= size) batches
    ∧ (∀ (i : nat) b, batches !! i = Some b →
         Py.len b = Z.min size (Py.len matched - Z.of_nat i * size))
    ∧ (∀ (i : nat) b, batches !! i = Some b →
         (S i < length batches)%nat → Py.len b = size)
    ∧ total_batches matched size = Some (Py.len batches).
Proof.
  intros Hs. eexists. split; [by apply file_batches_eq|].
  set (w := Z.to_nat size).
  set (n := Z.to_nat ((Py.len matched + size - 1) / size)).
  assert (Hdiv : 0 <= (Py.len matched + size - 1) / size).
  { apply Z.div_pos; unfold Py.len; lia. }
  assert (Hcover : (length matched <= n * w)%nat).
  { assert (Py.len matched + size - 1 < size * ((Py.len matched + size - 1) / size + 1)).
    { rewrite Z.mul_add_distr_l, Z.mul_1_r.
      pose proof (Z.mod_pos_bound (Py.len matched + size - 1) size Hs).
      pose proof (Z.div_mod (Py.len matched + size - 1) size). lia. }
    unfold Py.len in *. subst n w. nia. }
  assert (Hlen : ∀ (i : nat) b,
    ((λ k : nat, take w (drop (k * w) matched)) <$> seq 0 n) !! i = Some b →
    (i < n)%nat ∧ Py.len b = Z.min size (Py.len matched - Z.of_nat i * size)).
  { intros i b Hb. apply list_lookup_fmap_Some in Hb as (k & -> & Hk).
    apply lookup_seq in Hk as [-> Hi]. split; [done|].
    unfold Py.len. rewrite length_take, length_drop. cbn. subst w.
    assert (Hfloor : size * ((Py.len matched + size - 1) / size)
                     <= Py.len matched + size - 1).
    { apply Z.mul_div_le. lia. }
    unfold Py.len in *. subst n. nia. }
  split_and!.
  - rewrite concat_windows. cbn. rewrite drop_0. by apply take_ge.
  - apply Forall_lookup. intros i b Hb. apply Hlen in Hb as [_ ->]. lia.
  - intros i b Hb. by apply Hlen in Hb as [_ ?].
  - intros i b Hb Hnext. rewrite length_fmap, length_seq in Hnext.
    apply Hlen in Hb as [_ ->].
    assert (Hfloor : size * ((Py.len matched + size - 1) / size)
                     <= Py.len matched + size - 1).
    { apply Z.mul_div_le. lia. }
    unfold Py.len in *. subst n. nia.
  - unfold total_batches, Py.floordiv.
    destruct (Z.eqb_spec size 0); [lia|]. f_equal.
    unfold Py.len at 2. rewrite length_fmap, length_seq. subst n. lia.
Qed.

(** The scenario of the specification: 120 matched files, batch size 50. *)
Lemma file_batches_partition_witness :
  0 < 50 ∧
  ∃ batches, file_batches (seq 0 120) 50 = Some batches
    ∧ concat batches = seq 0 120
    ∧ Py.len <$> batches = [50; 50; 20].
Proof.
  split; [lia|].
  destruct (file_batches_partition (seq 0 120) 50 ltac:(lia))
    as (batches & Hrun & Hcat & _ & _ & _ & _).
  exists batches. split_and!; [done..|].
  vm_compute in Hrun. injection Hrun as <-. reflexivity.
Defined.

(** *** The sort key is a strict total order *)

Lemma str_compare_refl a : String.compare a a = Eq.
Proof.
  induction a as [|c a IH]; [done|]. cbn.
  unfold Ascii.compare. by rewrite N.compare_refl.
Qed.

Lemma str_lt_irrefl a : ¬ str_lt a a.
Proof. unfold str_lt. by rewrite str_compare_refl. Qed.

Lemma str_lt_le a b : str_lt a b ↔ String.le a b ∧ a ≠ b.
Proof.
  unfold str_lt, String.le, String.leb. split.
  - intros H. rewrite H. split; [done|]. intros ->. by eapply str_lt_irrefl.
  - intros [Hle Hne]. destruct (String.compare a b) eqn:Hc; [|done..].
    by apply String.compare_eq_iff in Hc.
Qed.

Lemma str_lt_trans a b c : str_lt a b → str_lt b c → str_lt a c.
Proof.
  rewrite !str_lt_le. intros [Hab Hne] [Hbc Hne']. split.
  - by etrans.
  - intros ->. apply Hne. by apply (anti_symm String.le).
Qed.

Lemma str_lt_trichotomy a b : str_lt a b ∨ a = b ∨ str_lt b a.
Proof.
  unfold str_lt. rewrite (String.compare_antisym b a).
  destruct (String.compare a b) eqn:Hc; cbn; auto.
  apply String.compare_eq_iff in Hc. auto.
Qed.

Lemma key_lt_irrefl k : ¬ key_lt k k.
Proof.
  unfold key_lt. intros [?|[_ [?|[_ H]]]]; [lia..|]. by eapply str_lt_irrefl.
Qed.

Lemma key_lt_trans k1 k2 k3 : key_lt k1 k2 → key_lt k2 k3 → key_lt k1 k3.
Proof.
  unfold key_lt.
  intros [?|[? [?|[? H12]]]] [?|[? [?|[? H23]]]];
    try (left; lia); right; (split; [lia|]); try (left; lia).
  right. split; [lia|]. by eapply str_lt_trans.
Qed.

Lemma key_lt_trichotomy k1 k2 : key_lt k1 k2 ∨ k1 = k2 ∨ key_lt k2 k1.
Proof.
  destruct k1 as [[a1 b1] c1], k2 as [[a2 b2] c2]. unfold key_lt. cbn.
  destruct (Z.lt_trichotomy a1 a2) as [?|[->|?]]; [auto| |auto].
  destruct (Z.lt_trichotomy b1 b2) as [?|[->|?]]; [auto| |auto 6].
  destruct (str_lt_trichotomy c1 c2) as [?|[->|?]]; auto 10.
Qed.

Lemma sort_key_inj x y : sort_key x = sort_key y → x = y.
Proof.
  destruct x as [[p d] c], y as [[p' d'] c']. unfold sort_key. cbn.
  intros [= ? ? ->]. do 2 f_equal; lia.
Qed.

Lemma sorts_before_key a b :
  sorts_before a b ↔ key_lt (sort_key a) (sort_key b).
Proof. unfold sorts_before, key_lt, sort_key. cbn. intuition lia. Qed.

Global Instance folder_le_total : Total folder_le.
Proof.
  intros x y. unfold folder_le.
  destruct (key_lt_trichotomy (sort_key x) (sort_key y)) as [H|[H|H]].
  - left. intros H'. eapply key_lt_irrefl, key_lt_trans; eauto.
  - left. rewrite H. apply key_lt_irrefl.
  - right. intros H'. eapply key_lt_irrefl, key_lt_trans; eauto.
Qed.

Global Instance folder_le_trans : Transitive folder_le.
Proof.
  intros x y z Hxy Hyz Hzx. unfold folder_le in *.
  destruct (key_lt_trichotomy (sort_key x) (sort_key y)) as [H|[H|H]]; [| |done].
  - apply Hyz. by eapply key_lt_trans.
  - apply Hyz. by rewrite <- H.
Qed.

Global Instance folder_le_antisym : AntiSymm (=) folder_le.
Proof.
  intros x y Hxy Hyx. apply sort_key_inj. unfold folder_le in *.
  by destruct (key_lt_trichotomy (sort_key x) (sort_key y)) as [H|[H|H]].
Qed.

(** The key determines the record, so the sorted list does not depend on
    the sorting algorithm: every arrangement of the records that is ordered
    by the key is the one [merge_sort] returns. *)
Lemma sorted_folders_unique (all_folders sorted : list folder) :
  sorted ≡ₚ all_folders → Sorted folder_le sorted →
  sorted = merge_sort folder_le all_folders.
Proof.
  intros Hperm Hsorted. apply (Sorted_unique folder_le); [done| |].
  - apply (Sorted_merge_sort _).
  - by rewrite merge_sort_Permutation.
Qed.

(** [C2] The list that [get_all_subfolders_recursive] returns holds exactly
    the records the scan collected, ordered by the key
    [(-depth, -file_count, path)]: of two records, the deeper one comes
    first; at equal depth the one with more files; at equal depth and file
    count the one with the smaller path; any two different records are
    ordered one way or the other.  In the scenario with [A] (depth 1, five
    files) and [A/B] (depth 2, three files) the order is [A/B, A]. *)
Theorem discovery_order (fs : filesystem) (root_path : string) (max_depth : Z) :
  let out := (get_all_subfolders_recursive fs root_path max_depth).1 in
  (∀ (i j : nat) a b,
     out !! i = Some a → out !! j = Some b → sorts_before a b → (i < j)%nat)
  ∧ (∀ a b : folder, a ≠ b → sorts_before a b ∨ sorts_before b a)
  ∧ out ≡ₚ (scan_directory fs max_depth (Z.to_nat max_depth) root_path 1).1
  ∧ (get_all_subfolders_recursive scenario_fs "/import" 10).1
    = [("/import/A/B", 2, 3); ("/import/A", 1, 5)].
Proof.
  unfold get_all_subfolders_recursive.
  destruct (scan_directory fs max_depth _ root_path 1) as [all_folders events].
  cbn. split_and!.
  - intros i j a b Hi Hj Hab. apply sorts_before_key in Hab.
    destruct (decide (i < j)%nat) as [|Hge]; [done|]. exfalso.
    destruct (decide (i = j)) as [->|Hne].
    + rewrite Hi in Hj. injection Hj as ->. by eapply key_lt_irrefl.
    + assert (Hs : StronglySorted folder_le (merge_sort folder_le all_folders))
        by apply (StronglySorted_merge_sort _).
      assert (Hlt : (j < i)%nat) by lia.
      apply list_elem_of_split_length in Hj as (l1 & l2 & Hsplit & Hlen).
      rewrite Hsplit in Hs, Hi.
      apply StronglySorted_app in Hs as (_ & _ & Hs).
      apply StronglySorted_cons in Hs as [Hall _].
      rewrite lookup_app_r in Hi by lia.
      destruct (i - length l1)%nat as [|k] eqn:Hk; [lia|]. cbn in Hi.
      rewrite Forall_forall in Hall. apply (Hall a); [|done].
      by eapply list_elem_of_lookup_2.
  - intros a b Hne.
    destruct (key_lt_trichotomy (sort_key a) (sort_key b)) as [H|[H|H]].
    + left. by apply sorts_before_key.
    + by apply sort_key_inj in H.
    + right. by apply sorts_before_key.
  - apply merge_sort_Permutation.
  - by vm_compute.
Qed.

Lemma discovery_order_witness :
  ∃ a b, (get_all_subfolders_recursive scenario_fs "/import" 10).1 !! 0%nat = Some a
    ∧ (get_all_subfolders_recursive scenario_fs "/import" 10).1 !! 1%nat = Some b
    ∧ sorts_before a b ∧ (0 < 1)%nat.
Proof.
  exists ("/import/A/B"%string, 2, 3), ("/import/A"%string, 1, 5).
  assert (Ha : (get_all_subfolders_recursive scenario_fs "/import" 10).1 !! 0%nat
               = Some ("/import/A/B"%string, 2, 3)) by (by vm_compute).
  assert (Hb : (get_all_subfolders_recursive scenario_fs "/import" 10).1 !! 1%nat
               = Some ("/import/A"%string, 1, 5)) by (by vm_compute).
  assert (Hab : sorts_before ("/import/A/B"%string, 2, 3) ("/import/A"%string, 1, 5))
    by (left; cbn; lia).
  split_and!; [done..|].
  exact (proj1 (discovery_order scenario_fs "/import" 10) 0%nat 1%nat _ _ Ha Hb Hab).
Defined.

(** *** Folder discovery *)

Lemma elem_of_concat_fmap {A B} (f : A → list B) (l : list A) (x : B) :
  x ∈ concat (f <$> l) ↔ ∃ y, y ∈ l ∧ x ∈ f y.
Proof.
  induction l as [|a l IH]; cbn.
  - split; [by intros ?%elem_of_nil|]. by intros (y & ?%elem_of_nil & _).
  - rewrite elem_of_app, IH. split.
    + intros [?|(y & ? & ?)]; [exists a|exists y]; split; try done;
        by constructor.
    + intros (y & Hy & ?). apply elem_of_cons in Hy as [->|?]; eauto.
Qed.

Lemma elem_of_subfolders (fs : filesystem) (path : string) (items : list string)
    (subfolder : string) :
  subfolder ∈ List.filter (isdir fs) (join path <$> items) ↔
  ∃ item, item ∈ items ∧ subfolder = join path item
          ∧ isdir fs subfolder = true.
Proof.
  rewrite list_elem_of_In, filter_In, <- list_elem_of_In, list_elem_of_fmap.
  split.
  - intros [(item & -> & Hitem) Hdir]. by exists item.
  - intros (item & Hitem & -> & Hdir). split; [by exists item|done].
Qed.

Lemma scan_directory_unfold (fs : filesystem) (m : Z) (fuel : nat)
    (path : string) (d : Z) :
  scan_directory fs m fuel path d =
    if d >? m then ([], [])
    else
      match fuel with
      | O => ([], [])
      | S fuel =>
          match listdir fs path with
          | None => ([], [EListdir path; EWarnCannotRead path])
          | Some items =>
              let visited :=
                visit_subfolder fs (scan_directory fs m fuel) d
                  <$> List.filter (isdir fs) (join path <$> items) in
              (concat (fst <$> visited),
               EListdir path :: concat (snd <$> visited))
          end
      end.
Proof. by destruct fuel. Qed.

Lemma visit_subfolder_folders fs scan d subfolder :
  (visit_subfolder fs scan d subfolder).1 =
    (subfolder, d, (count_files_in_folder fs subfolder).1)
      :: (scan subfolder (d + 1)).1.
Proof.
  unfold visit_subfolder.
  by destruct (count_files_in_folder fs subfolder), (scan subfolder (d + 1)).
Qed.

Lemma visit_subfolder_events fs scan d subfolder :
  (visit_subfolder fs scan d subfolder).2 =
    EListdir subfolder :: (scan subfolder (d + 1)).2.
Proof.
  unfold visit_subfolder, count_files_in_folder.
  by destruct (listdir fs subfolder), (scan subfolder (d + 1)).
Qed.

(** The fuel never runs out: once it covers the levels that remain, more of
    it changes nothing. *)
Lemma scan_directory_fuel (fs : filesystem) (m : Z) (fuel1 fuel2 : nat)
    (path : string) (d : Z) :
  m + 1 - d <= Z.of_nat fuel1 → m + 1 - d <= Z.of_nat fuel2 →
  scan_directory fs m fuel1 path d = scan_directory fs m fuel2 path d.
Proof.
  revert fuel2 path d.
  induction fuel1 as [|fuel1 IH]; intros fuel2 path d H1 H2;
    rewrite (scan_directory_unfold fs m _ path d), (scan_directory_unfold fs m fuel2);
    destruct (Z.gtb_spec d m) as [|Hd]; try done; try lia.
  destruct fuel2 as [|fuel2]; [lia|].
  destruct (listdir fs path) as [items|]; [|done]. cbn zeta.
  assert (Heq : visit_subfolder fs (scan_directory fs m fuel1) d
                  <$> List.filter (isdir fs) (join path <$> items)
              = visit_subfolder fs (scan_directory fs m fuel2) d
                  <$> List.filter (isdir fs) (join path <$> items)).
  { apply list_fmap_ext. intros _ subfolder _. unfold visit_subfolder.
    by rewrite (IH fuel2 subfolder (d + 1)) by lia. }
  by rewrite Heq.
Qed.

Lemma scan_directory_depth (fs : filesystem) (m : Z) (fuel : nat)
    (path : string) (d : Z) (x : folder) :
  x ∈ (scan_directory fs m fuel path d).1 → d <= folder_depth x <= m.
Proof.
  revert path d. induction fuel as [|fuel IH]; intros path d;
    rewrite scan_directory_unfold;
    destruct (Z.gtb_spec d m) as [|Hd]; cbn; try by intros ?%elem_of_nil.
  destruct (listdir fs path) as [items|]; cbn; [|by intros ?%elem_of_nil].
  rewrite <- list_fmap_compose, elem_of_concat_fmap.
  intros (subfolder & _ & Hx). cbn in Hx.
  rewrite visit_subfolder_folders in Hx.
  apply elem_of_cons in Hx as [->|Hx]; [cbn; lia|].
  apply IH in Hx. lia.
Qed.

Lemma scan_directory_listed (fs : filesystem) (root : string) (m : Z)
    (fuel : nat) (path : string) (k : Z) (q : string) :
  at_depth fs root k path → 0 <= k →
  EListdir q ∈ (scan_directory fs m fuel path (k + 1)).2 →
  ∃ k', 0 <= k' <= m ∧ at_depth fs root k' q.
Proof.
  revert path k. induction fuel as [|fuel IH]; intros path k Hat Hk;
    rewrite scan_directory_unfold;
    destruct (Z.gtb_spec (k + 1) m) as [|Hd]; cbn; try by intros ?%elem_of_nil.
  destruct (listdir fs path) as [items|] eqn:Hitems; cbn.
  - rewrite <- list_fmap_compose. intros Hq.
    apply elem_of_cons in Hq as [[= ->]|Hq]; [exists k; split; [lia|done]|].
    apply elem_of_concat_fmap in Hq as (subfolder & Hsub & Hq). cbn in Hq.
    apply elem_of_subfolders in Hsub as (item & Hitem & -> & Hdir).
    assert (Hat' : at_depth fs root (k + 1) (join path item))
      by (by eapply at_depth_child).
    rewrite visit_subfolder_events in Hq.
    apply elem_of_cons in Hq as [[= ->]|Hq]; [exists (k + 1); split; [lia|done]|].
    eapply IH; [exact Hat'|lia|done].
  - intros Hq. apply elem_of_cons in Hq as [[= ->]|Hq].
    + exists k. split; [lia|done].
    + apply elem_of_cons in Hq as [[=]|Hq]. by apply elem_of_nil in Hq.
Qed.

(** What is below the maximum depth has no influence at all: two trees that
    agree on which paths are files and directories and on the listings of
    the directories within [max_depth] levels give the same records and the
    same events. *)
Lemma scan_directory_ignores_deeper (fs fs' : filesystem) (root : string)
    (m : Z) (fuel : nat) (path : string) (k : Z) :
  (∀ p, isdir fs' p = isdir fs p) →
  (∀ p, isfile fs' p = isfile fs p) →
  (∀ j p, 0 <= j <= m → at_depth fs root j p → listdir fs' p = listdir fs p) →
  at_depth fs root k path → 0 <= k →
  scan_directory fs' m fuel path (k + 1) = scan_directory fs m fuel path (k + 1).
Proof.
  intros Hdir Hfile Hlist. revert path k.
  induction fuel as [|fuel IH]; intros path k Hat Hk;
    rewrite (scan_directory_unfold fs'), (scan_directory_unfold fs);
    destruct (Z.gtb_spec (k + 1) m) as [|Hd]; try done.
  rewrite (Hlist k path) by (done || lia).
  destruct (listdir fs path) as [items|] eqn:Hitems; [|done]. cbn zeta.
  assert (Hsubs : List.filter (isdir fs') (join path <$> items)
                  = List.filter (isdir fs) (join path <$> items)).
  { apply filter_ext. intros p. apply Hdir. }
  rewrite Hsubs.
  assert (Heq : Forall (λ subfolder,
      visit_subfolder fs' (scan_directory fs' m fuel) (k + 1) subfolder
      = visit_subfolder fs (scan_directory fs m fuel) (k + 1) subfolder)
      (List.filter (isdir fs) (join path <$> items))).
  { apply Forall_forall. intros subfolder Hsub.
    apply elem_of_subfolders in Hsub as (item & Hitem & -> & Hisdir).
    assert (Hat' : at_depth fs root (k + 1) (join path item))
      by (by eapply at_depth_child).
    unfold visit_subfolder, count_files_in_folder.
    rewrite (Hlist (k + 1) (join path item)) by (done || lia).
    rewrite (IH (join path item) (k + 1)) by (done || lia).
    destruct (listdir fs (join path item)) as [inner|]; [|done].
    assert (Hfiles : List.filter (λ item0, isfile fs' (join (join path item) item0)) inner
                     = List.filter (λ item0, isfile fs (join (join path item) item0)) inner).
    { apply filter_ext. intros p. apply Hfile. }
    by rewrite Hfiles. }
  apply Forall_fmap_ext in Heq. by rewrite Heq.
Qed.

Lemma get_all_subfolders_depth (fs : filesystem) (root_path : string)
    (max_depth : Z) (x : folder) :
  x ∈ (get_all_subfolders_recursive fs root_path max_depth).1 →
  1 <= folder_depth x <= max_depth.
Proof.
  unfold get_all_subfolders_recursive.
  pose proof (scan_directory_depth fs max_depth (Z.to_nat max_depth)
                root_path 1 x) as Hdepth.
  destruct (scan_directory fs max_depth _ root_path 1) as [all_folders events].
  cbn in *. rewrite merge_sort_Permutation. auto.
Qed.

(** [C4] No record of [get_all_subfolders_recursive] is deeper than the
    maximum depth (the root's subdirectories being at depth 1), and every
    directory the scan lists lies within that many levels of the root: a
    directory beyond the maximum depth is never listed.  Accordingly the
    listings of the directories beyond the maximum depth can be changed at
    will without changing the records or the events of the scan. *)
Theorem discovery_depth_limit (fs : filesystem) (root_path : string)
    (max_depth : Z) :
  let '(out, events) := get_all_subfolders_recursive fs root_path max_depth in
  (∀ x, x ∈ out → 1 <= folder_depth x <= max_depth)
  ∧ (∀ p, EListdir p ∈ events →
       ∃ k, 0 <= k <= max_depth ∧ at_depth fs root_path k p)
  ∧ (∀ fs' : filesystem,
       (∀ p, isdir fs' p = isdir fs p) →
       (∀ p, isfile fs' p = isfile fs p) →
       (∀ k p, 0 <= k <= max_depth → at_depth fs root_path k p →
               listdir fs' p = listdir fs p) →
       get_all_subfolders_recursive fs' root_path max_depth = (out, events)).
Proof.
  unfold get_all_subfolders_recursive.
  destruct (scan_directory fs max_depth _ root_path 1) as [all_folders events]
    eqn:Hscan.
  split_and!.
  - intros x Hx.
    pose proof (get_all_subfolders_depth fs root_path max_depth x) as Hdepth.
    unfold get_all_subfolders_recursive in Hdepth. rewrite Hscan in Hdepth.
    auto.
  - intros p Hp.
    pose proof (scan_directory_listed fs root_path max_depth
                  (Z.to_nat max_depth) root_path 0 p) as Hlisted.
    change (0 + 1) with 1 in Hlisted. rewrite Hscan in Hlisted.
    apply Hlisted; [constructor|lia|done].
  - intros fs' Hdir Hfile Hlist.
    pose proof (scan_directory_ignores_deeper fs fs' root_path max_depth
                  (Z.to_nat max_depth) root_path 0 Hdir Hfile Hlist) as Hsame.
    change (0 + 1) with 1 in Hsame.
    rewrite Hsame by (constructor || lia). by rewrite Hscan.
Qed.

Lemma discovery_depth_limit_witness :
  ("/import/A"%string, 1, 5) ∈ (get_all_subfolders_recursive scenario_fs "/import" 1).1
  ∧ 1 <= folder_depth ("/import/A"%string, 1, 5) <= 1.
Proof.
  assert (Hin : ("/import/A"%string, 1, 5)
                  ∈ (get_all_subfolders_recursive scenario_fs "/import" 1).1).
  { vm_compute. by constructor. }
  split; [done|].
  pose proof (discovery_depth_limit scenario_fs "/import" 1) as H.
  destruct (get_all_subfolders_recursive scenario_fs "/import" 1) as [out events].
  exact (proj1 H _ Hin).
Defined.

(** *** Unreadable directories *)

Lemma scan_directory_count_zero (fs : filesystem) (m : Z) (fuel : nat)
    (path : string) (d : Z) (x : folder) :
  x ∈ (scan_directory fs m fuel path d).1 →
  listdir fs (folder_path x) = None → folder_files x = 0.
Proof.
  revert path d. induction fuel as [|fuel IH]; intros path d;
    rewrite scan_directory_unfold;
    destruct (Z.gtb_spec d m) as [|Hd]; cbn; try by intros ?%elem_of_nil.
  destruct (listdir fs path) as [items|]; cbn; [|by intros ?%elem_of_nil].
  rewrite <- list_fmap_compose, elem_of_concat_fmap.
  intros (subfolder & _ & Hx). cbn in Hx.
  rewrite visit_subfolder_folders in Hx.
  apply elem_of_cons in Hx as [->|Hx]; [|by eapply IH].
  cbn. intros Hnone. unfold count_files_in_folder. by rewrite Hnone.
Qed.

Lemma scan_directory_warns (fs : filesystem) (m : Z) (fuel : nat)
    (path : string) (d : Z) (x : folder) :
  m + 1 - d <= Z.of_nat fuel →
  x ∈ (scan_directory fs m fuel path d).1 →
  listdir fs (folder_path x) = None → folder_depth x < m →
  EWarnCannotRead (folder_path x) ∈ (scan_directory fs m fuel path d).2.
Proof.
  revert path d. induction fuel as [|fuel IH]; intros path d Hfuel;
    rewrite scan_directory_unfold;
    destruct (Z.gtb_spec d m) as [|Hd]; cbn; try by intros ?%elem_of_nil.
  destruct (listdir fs path) as [items|]; cbn; [|by intros ?%elem_of_nil].
  rewrite <- !list_fmap_compose, elem_of_concat_fmap.
  intros (subfolder & Hsub & Hx) Hnone Hdepth. cbn in Hx.
  apply elem_of_cons. right. apply elem_of_concat_fmap.
  exists subfolder. split; [done|]. cbn.
  rewrite visit_subfolder_folders in Hx. rewrite visit_subfolder_events.
  apply elem_of_cons. right.
  apply elem_of_cons in Hx as [->|Hx].
  - cbn in *. rewrite scan_directory_unfold.
    destruct (Z.gtb_spec (d + 1) m) as [|_]; [lia|].
    destruct fuel as [|fuel]; [lia|]. rewrite Hnone. cbn.
    apply elem_of_cons. right. by constructor.
  - apply IH; [lia|done..].
Qed.

Lemma scan_directory_warning_sound (fs : filesystem) (m : Z) (fuel : nat)
    (path : string) (d : Z) (p : string) :
  EWarnCannotRead p ∈ (scan_directory fs m fuel path d).2 →
  listdir fs p = None ∧ EListdir p ∈ (scan_directory fs m fuel path d).2.
Proof.
  revert path d. induction fuel as [|fuel IH]; intros path d;
    rewrite scan_directory_unfold;
    destruct (Z.gtb_spec d m) as [|Hd]; cbn; try by intros ?%elem_of_nil.
  destruct (listdir fs path) as [items|] eqn:Hitems; cbn.
  - rewrite <- !list_fmap_compose. intros Hp.
    apply elem_of_cons in Hp as [[=]|Hp].
    apply elem_of_concat_fmap in Hp as (subfolder & Hsub & Hp). cbn in Hp.
    rewrite visit_subfolder_events in Hp.
    apply elem_of_cons in Hp as [[=]|Hp].
    apply IH in Hp as [Hnone Hlisted]. split; [done|].
    apply elem_of_cons. right. apply elem_of_concat_fmap.
    exists subfolder. split; [done|]. cbn. rewrite visit_subfolder_events.
    apply elem_of_cons. by right.
  - intros Hp. apply elem_of_cons in Hp as [[=]|Hp].
    apply elem_of_cons in Hp as [[= ->]|Hp]; [|by apply elem_of_nil in Hp].
    split; [done|]. by constructor.
Qed.

Lemma filter_concat_fmap {A B} (keep : B → bool) (f g : A → list B)
    (l : list A) :
  Forall (λ a, List.filter keep (f a) = g a) l →
  List.filter keep (concat (f <$> l)) = concat (g <$> l).
Proof.
  induction 1 as [|a l Ha _ IH]; [done|].
  cbn. by rewrite List.filter_app, Ha, IH.
Qed.

Lemma scan_directory_as_empty (fs : filesystem) (m : Z) (fuel : nat)
    (path : string) (d : Z) :
  (scan_directory (treat_unreadable_as_empty fs) m fuel path d).1
    = (scan_directory fs m fuel path d).1
  ∧ (scan_directory (treat_unreadable_as_empty fs) m fuel path d).2
    = List.filter (λ e, negb (is_warning e)) (scan_directory fs m fuel path d).2.
Proof.
  revert path d. induction fuel as [|fuel IH]; intros path d;
    rewrite (scan_directory_unfold (treat_unreadable_as_empty fs)),
            (scan_directory_unfold fs);
    destruct (Z.gtb_spec d m) as [|Hd]; try done.
  cbn [listdir treat_unreadable_as_empty].
  destruct (listdir fs path) as [items|]; [|done].
  cbn [isdir treat_unreadable_as_empty fst snd List.filter is_warning negb].
  rewrite <- !list_fmap_compose. split.
  - f_equal. apply list_fmap_ext. intros _ subfolder _. cbn.
    rewrite !visit_subfolder_folders. f_equal; [|apply IH].
    unfold count_files_in_folder. cbn.
    by destruct (listdir fs subfolder).
  - f_equal. symmetry. apply filter_concat_fmap, Forall_forall.
    intros subfolder _. cbn. rewrite !visit_subfolder_events. cbn.
    f_equal. symmetry. apply IH.
Qed.

(** [C7] An unreadable directory does not abort the scan: the records found
    are those of the same tree with every unreadable directory empty, and
    the events are the same up to the warnings.  Nothing is listed below an
    unreadable directory, but the directory itself, when it is a subfolder,
    is part of the returned list, with file count 0.  Every warning names a
    directory whose listing failed, and a warning is emitted for every
    unreadable subfolder above the maximum depth and for an unreadable
    root. *)
Theorem discovery_unreadable (fs : filesystem) (root_path : string)
    (max_depth : Z) :
  let '(out, events) := get_all_subfolders_recursive fs root_path max_depth in
  let '(out', events') :=
    get_all_subfolders_recursive (treat_unreadable_as_empty fs) root_path
      max_depth in
  out = out'
  ∧ List.filter (λ e, negb (is_warning e)) events = events'
  ∧ (∀ p, EWarnCannotRead p ∈ events →
       listdir fs p = None ∧ EListdir p ∈ events)
  ∧ (∀ x, x ∈ out → listdir fs (folder_path x) = None →
       folder_files x = 0
       ∧ (folder_depth x < max_depth →
          EWarnCannotRead (folder_path x) ∈ events))
  ∧ (listdir fs root_path = None → 1 <= max_depth →
       out = [] ∧ events = [EListdir root_path; EWarnCannotRead root_path]).
Proof.
  unfold get_all_subfolders_recursive.
  pose proof (scan_directory_as_empty fs max_depth (Z.to_nat max_depth)
                root_path 1) as [Hout Hev].
  pose proof (scan_directory_warning_sound fs max_depth (Z.to_nat max_depth)
                root_path 1) as Hsound.
  pose proof (scan_directory_count_zero fs max_depth (Z.to_nat max_depth)
                root_path 1) as Hzero.
  pose proof (scan_directory_warns fs max_depth (Z.to_nat max_depth)
                root_path 1) as Hwarn.
  pose proof (scan_directory_unfold fs max_depth (Z.to_nat max_depth)
                root_path 1) as Hroot.
  destruct (scan_directory (treat_unreadable_as_empty fs) _ _ root_path 1)
    as [all_folders' events'].
  destruct (scan_directory fs max_depth _ root_path 1) as [all_folders events].
  cbn in *. subst. split_and!; [done|done|done| |].
  - intros x Hx Hnone. rewrite merge_sort_Permutation in Hx. split.
    + by eapply Hzero.
    + intros Hdepth. apply Hwarn; [lia|done..].
  - intros Hnone Hdepth. rewrite Hnone in Hroot.
    destruct (Z.gtb_spec 1 max_depth) as [|_]; [lia|].
    destruct (Z.to_nat max_depth) eqn:Hfuel; [lia|].
    by injection Hroot as -> ->.
Qed.

Lemma discovery_unreadable_witness :
  EWarnCannotRead "/import/A"
    ∈ (get_all_subfolders_recursive unreadable_fs "/import" 10).2
  ∧ listdir unreadable_fs "/import/A" = None.
Proof.
  assert (Hin : EWarnCannotRead "/import/A"
                  ∈ (get_all_subfolders_recursive unreadable_fs "/import" 10).2).
  { vm_compute. apply list_elem_of_In. cbn. auto 10. }
  split; [done|].
  pose proof (discovery_unreadable unreadable_fs "/import" 10) as H.
  destruct (get_all_subfolders_recursive unreadable_fs "/import" 10)
    as [out events].
  destruct (get_all_subfolders_recursive (treat_unreadable_as_empty unreadable_fs)
              "/import" 10) as [out' events'].
  destruct H as (_ & _ & Hsound & _).
  exact (proj1 (Hsound _ Hin)).
Defined.

(** An unreadable directory is not left out: the unreadable subfolder [A]
    is part of the returned list, and with a maximum depth of 1 no warning
    is printed for it. *)
Lemma unreadable_directory_listed :
  listdir unreadable_fs "/import/A" = None
  ∧ get_all_subfolders_recursive unreadable_fs "/import" 10
    = ([("/import/B"%string, 1, 1); ("/import/A"%string, 1, 0)],
       [EListdir "/import"; EListdir "/import/A"; EListdir "/import/A";
        EWarnCannotRead "/import/A"; EListdir "/import/B";
        EListdir "/import/B"])
  ∧ get_all_subfolders_recursive unreadable_fs "/import" 1
    = ([("/import/B"%string, 1, 1); ("/import/A"%string, 1, 0)],
       [EListdir "/import"; EListdir "/import/A"; EListdir "/import/B"]).
Proof. by vm_compute. Qed.

(** *** Classification *)

Lemma filter_matched_files_acc (files : list File.t) matched potential unmatched :
  foldl classify_file (matched, potential, unmatched) files =
    let '(m, p, u) := filter_matched_files files in
    (matched ++ m, potential ++ p, unmatched ++ u).
Proof.
  unfold filter_matched_files.
  revert matched potential unmatched.
  induction files as [|file files IH] using rev_ind; intros matched potential unmatched.
  - cbn. by rewrite !app_nil_r.
  - rewrite !foldl_app. cbn [foldl].
    rewrite IH.
    destruct (foldl classify_file ([], [], []) files) as [[m p] u].
    unfold classify_file.
    destruct (truthy (resolve_scene_id file));
      [|destruct (present (File.scene file) || present (File.movie file))];
      by rewrite app_assoc.
Qed.

Lemma filter_matched_files_cons (file : File.t) (files : list File.t) :
  filter_matched_files (file :: files) =
    let '(m0, p0, u0) := classify_file ([], [], []) file in
    let '(m, p, u) := filter_matched_files files in
    (m0 ++ m, p0 ++ p, u0 ++ u).
Proof.
  unfold filter_matched_files at 1. cbn [foldl].
  destruct (classify_file ([], [], []) file) as [[m0 p0] u0].
  apply filter_matched_files_acc.
Qed.

Lemma filter_matched_files_buckets (files : list File.t) :
  let '(matched, potential, unmatched) := filter_matched_files files in
  matched = filter (λ f, bucket_of f = Matched) files
  ∧ pm_file <$> potential = filter (λ f, bucket_of f = Potential) files
  ∧ um_path <$> unmatched
    = File.path <$> filter (λ f, bucket_of f = Unmatched) files
  ∧ Py.len matched + Py.len potential + Py.len unmatched = Py.len files.
Proof.
  induction files as [|file files IH]; [done|].
  rewrite filter_matched_files_cons.
  destruct (filter_matched_files files) as [[m p] u].
  destruct IH as (Hm & Hp & Hu & Hlen).
  rewrite !filter_cons. unfold classify_file.
  pose proof (eq_refl (bucket_of file)) as Hb. unfold bucket_of at 2 in Hb.
  unfold Py.len in *.
  destruct (truthy (resolve_scene_id file));
    [|destruct (present (File.scene file) || present (File.movie file))];
    rewrite Hb; cbn [app fmap list_fmap length pm_file um_path];
    repeat case_decide; try done;
    (split_and!; [..|lia]); cbn [fmap list_fmap]; congruence.
Qed.

(** [C3] [filter_matched_files] puts every descriptor into exactly one of
    its three lists, and which one is read off the descriptor alone: the
    matched list is the sublist of the descriptors whose bucket is Matched,
    the potential list covers those whose bucket is Potential, the unmatched
    list those whose bucket is Unmatched, all in input order; hence the
    three sizes add up to the input length.  On the scenario of ten
    descriptors the sizes are 6, 2 and 2. *)
Theorem classification_partition (files : list File.t) :
  (let '(matched, potential, unmatched) := filter_matched_files files in
   matched = filter (λ f, bucket_of f = Matched) files
   ∧ pm_file <$> potential = filter (λ f, bucket_of f = Potential) files
   ∧ um_path <$> unmatched
     = File.path <$> filter (λ f, bucket_of f = Unmatched) files
   ∧ Py.len matched + Py.len potential + Py.len unmatched = Py.len files)
  ∧ (let '(m, p, u) := filter_matched_files scenario_files in
     (Py.len m, Py.len p, Py.len u)) = (6, 2, 2).
Proof.
  split; [apply filter_matched_files_buckets|].
  vm_compute. reflexivity.
Qed.

(** *** The resolved identifier *)

Lemma format_file_movieId (mode : string) (file : File.t) :
  Formatted.movieId <$> format_file mode file =
    if truthy (resolve_scene_id file) then Some (resolve_scene_id file) else None.
Proof.
  unfold format_file, resolve_entity_id, resolve_scene_id.
  by destruct (truthy _).
Qed.

(** [C8] The identifier of a descriptor is resolved in the same way when it
    is classified and when it is submitted: it is the id of the scene
    entity when that entity carries a usable id, otherwise the id of the
    movie entity when that one carries a usable id, otherwise there is
    none.  So the scene wins when both carry an id.  A descriptor is Matched
    exactly when it has a resolved identifier, exactly the Matched
    descriptors are formatted for submission, and the [movieId] submitted
    is the resolved identifier. *)
Theorem resolved_identifier (file : File.t) :
  resolve_entity_id file = resolve_scene_id file
  ∧ (has_id (File.scene file) = true →
     resolve_scene_id file = entity_id (File.scene file)
     ∧ bucket_of file = Matched)
  ∧ (has_id (File.scene file) = false → has_id (File.movie file) = true →
     resolve_scene_id file = entity_id (File.movie file)
     ∧ bucket_of file = Matched)
  ∧ (has_id (File.scene file) = false → has_id (File.movie file) = false →
     resolve_scene_id file = VNone ∧ bucket_of file ≠ Matched)
  ∧ (bucket_of file = Matched ↔ truthy (resolve_scene_id file) = true)
  ∧ (∀ mode, Formatted.movieId <$> format_file mode file =
       if decide (bucket_of file = Matched)
       then Some (resolve_scene_id file) else None).
Proof.
  assert (Hbucket : bucket_of file = Matched ↔ truthy (resolve_scene_id file) = true).
  { unfold bucket_of. destruct (truthy (resolve_scene_id file)); [done|].
    by destruct (present _ || present _). }
  assert (Hid : ∀ entity, has_id entity = true → truthy (entity_id entity) = true).
  { intros [d|]; cbn; [|done]. by intros [_ ?]%andb_true_iff. }
  split_and!; [done| | | |done|].
  - intros Hs. assert (Hr : resolve_scene_id file = entity_id (File.scene file))
      by (unfold resolve_scene_id; by rewrite Hs).
    split; [done|]. apply Hbucket. rewrite Hr. by apply Hid.
  - intros Hs Hm.
    assert (Hr : resolve_scene_id file = entity_id (File.movie file))
      by (unfold resolve_scene_id; by rewrite Hs, Hm).
    split; [done|]. apply Hbucket. rewrite Hr. by apply Hid.
  - intros Hs Hm.
    assert (Hr : resolve_scene_id file = VNone)
      by (unfold resolve_scene_id; by rewrite Hs, Hm).
    split; [done|]. rewrite Hbucket, Hr. done.
  - intros mode. rewrite format_file_movieId.
    case_decide as Hb.
    + apply Hbucket in Hb. by rewrite Hb.
    + destruct (truthy (resolve_scene_id file)); [|done].
      exfalso. by apply Hb, Hbucket.
Qed.

Lemma resolved_identifier_witness :
  has_id (File.scene both_ids_file) = true
  ∧ has_id (File.movie both_ids_file) = true
  ∧ resolve_scene_id both_ids_file = entity_id (File.scene both_ids_file)
  ∧ bucket_of both_ids_file = Matched.
Proof.
  assert (Hs : has_id (File.scene both_ids_file) = true) by (by vm_compute).
  assert (Hm : has_id (File.movie both_ids_file) = true) by (by vm_compute).
  split_and!; [done|done|..];
    apply (proj1 (proj2 (resolved_identifier both_ids_file)) Hs).
Defined.

(** Both entities are present, the scene entity has no usable id, and the id
    that is used for classification and submission is the movie's. *)
Lemma scene_without_id_does_not_win :
  present (File.scene conflict_file) = true
  ∧ present (File.movie conflict_file) = true
  ∧ entity_id (File.scene conflict_file) = VNone
  ∧ entity_id (File.movie conflict_file) = VInt 7
  ∧ resolve_scene_id conflict_file = VInt 7
  ∧ resolve_entity_id conflict_file = VInt 7
  ∧ (filter_matched_files [conflict_file]).1.1 = [conflict_file].
Proof. split_and!; by vm_compute. Qed.

(** *** The paginated fetch *)

Lemma page_requests_S (n : nat) :
  page_requests (S n) = page_requests n ++ [EPostGraphql (Z.of_nat (S n))].
Proof. unfold page_requests. by rewrite seq_S, fmap_app. Qed.

Lemma fetched_S (srv : remote) (st : state) (n : nat) :
  fetched srv st (S n) = fetched srv st n ++ page_scenes (page_reply srv st (S n)).
Proof.
  unfold fetched. rewrite seq_S, fmap_app, concat_app. cbn.
  by rewrite app_nil_r.
Qed.

Lemma emit_page_request (st : state) (n : nat) :
  emit (EPostGraphql (Z.of_nat (S n))) (emit_all (page_requests n) st)
  = emit_all (page_requests (S n)) st.
Proof.
  unfold emit, emit_all. cbn [log stash files].
  by rewrite page_requests_S, app_assoc.
Qed.

Lemma fetch_scenes_from (srv : remote) (st : state) (m j fuel : nat) :
  (S m <= fuel)%nat →
  (∀ k, (j < k < j + S m)%nat → breaks_at srv st k = false) →
  breaks_at srv st (j + S m) = true →
  fetch_scenes srv fuel (Z.of_nat (S j)) (fetched srv st j)
    (emit_all (page_requests j) st)
  = (Some (fetched srv st (j + S m)), emit_all (page_requests (j + S m)) st).
Proof.
  revert j fuel. induction m as [|m IH]; intros j fuel Hfuel Hgo Hstop;
    (destruct fuel as [|fuel]; [lia|]); cbn [fetch_scenes];
    rewrite emit_page_request;
    change (graphql_reply_to srv (log (emit_all (page_requests j) st))
              (Z.of_nat (S j)) per_page)
      with (graphql_reply_to srv (log st ++ page_requests j)
              (Z.of_nat (S j)) per_page);
    replace j with (S j - 1)%nat at 1 by lia;
    fold (page_reply srv st (S j)).
  - replace (j + 1)%nat with (S j) in * by lia.
    unfold breaks_at in Hstop. rewrite fetched_S in *.
    destruct (page_reply srv st (S j)) as [| |[|scene scenes] total_count];
      cbn [page_scenes] in *; rewrite ?app_nil_r; try done.
    by rewrite Hstop.
  - assert (Hnext : breaks_at srv st (S j) = false) by (apply Hgo; lia).
    unfold breaks_at in Hnext. rewrite fetched_S in Hnext.
    destruct (page_reply srv st (S j)) as [| |[|scene scenes] total_count] eqn:Hreply;
      cbn [page_scenes] in Hnext; try done.
    rewrite Hnext.
    replace (Z.of_nat (S j) + 1) with (Z.of_nat (S (S j))) by lia.
    replace (fetched srv st j ++ scene :: scenes) with (fetched srv st (S j))
      by (by rewrite fetched_S, Hreply).
    replace (j + S (S m))%nat with (S j + S m)%nat in * by lia.
    apply IH; [lia| |done]. intros k Hk. apply Hgo. lia.
Qed.

(** As long as no page breaks the loop, it goes on: the fuel is used up
    only by requests that the source makes as well. *)
Lemma fetch_scenes_goes_on (srv : remote) (st : state) (m j : nat) :
  (∀ k, (j < k <= j + m)%nat → breaks_at srv st k = false) →
  fetch_scenes srv m (Z.of_nat (S j)) (fetched srv st j)
    (emit_all (page_requests j) st)
  = (None, emit_all (page_requests (j + m)) st).
Proof.
  revert j. induction m as [|m IH]; intros j Hgo; cbn [fetch_scenes].
  - by rewrite Nat.add_0_r.
  - rewrite emit_page_request.
    change (graphql_reply_to srv (log (emit_all (page_requests j) st))
              (Z.of_nat (S j)) per_page)
      with (graphql_reply_to srv (log st ++ page_requests j)
              (Z.of_nat (S j)) per_page).
    replace j with (S j - 1)%nat at 1 by lia.
    fold (page_reply srv st (S j)).
    assert (Hnext : breaks_at srv st (S j) = false) by (apply Hgo; lia).
    unfold breaks_at in Hnext. rewrite fetched_S in Hnext.
    destruct (page_reply srv st (S j)) as [| |[|scene scenes] total_count] eqn:Hreply;
      cbn [page_scenes] in Hnext; try done.
    rewrite Hnext.
    replace (Z.of_nat (S j) + 1) with (Z.of_nat (S (S j))) by lia.
    replace (fetched srv st j ++ scene :: scenes) with (fetched srv st (S j))
      by (by rewrite fetched_S, Hreply).
    replace (j + S m)%nat with (S j + m)%nat by lia.
    apply IH. intros k Hk. apply Hgo. lia.
Qed.

(** [C6] The fetch loop of [get_stash_scenes] ends on the first page on
    which the request fails, the reply carries errors, no item is returned,
    or the number of scenes fetched so far reaches the total the catalog
    reports: it then has requested the pages 1 to [n] and nothing more, and
    returns the scenes of those pages. *)
Theorem fetch_stops_at_first_break (srv : remote) (st : state) (n fuel : nat) :
  (1 <= n)%nat →
  breaks_at srv st n = true →
  (∀ k, (1 <= k < n)%nat → breaks_at srv st k = false) →
  (n <= fuel)%nat →
  get_stash_scenes srv fuel st
  = (Some (fetched srv st n), emit_all (page_requests n) st).
Proof.
  intros Hn Hstop Hgo Hfuel. unfold get_stash_scenes.
  destruct n as [|m]; [lia|].
  pose proof (fetch_scenes_from srv st m 0 fuel Hfuel) as H.
  cbn [Nat.add] in H.
  assert (Hst : emit_all (page_requests 0) st = st).
  { destruct st. unfold emit_all. cbn. by rewrite app_nil_r. }
  rewrite Hst in H. apply H; [|done].
  intros k Hk. apply Hgo. lia.
Qed.

Lemma fetch_stops_at_first_break_witness :
  (1 <= 3)%nat ∧ (3 <= 5)%nat
  ∧ get_stash_scenes short_pages 5 initial_state
    = (Some (fetched short_pages initial_state 3),
       emit_all (page_requests 3) initial_state).
Proof.
  split; [lia|]. split; [lia|].
  apply fetch_stops_at_first_break; [lia|by vm_compute| |lia].
  intros k Hk.
  destruct k as [|[|[|k]]]; [lia|by vm_compute|by vm_compute|lia].
Defined.

(** A page shorter than the page size does not end the loop: the first page
    of this catalog has one item, fewer than [per_page], and the loop goes
    on to request the pages 2 and 3. *)
Lemma short_page_does_not_stop :
  spec_breaks_at short_pages initial_state 1 = true
  ∧ (Py.len (page_scenes (page_reply short_pages initial_state 1)) <? per_page) = true
  ∧ log (get_stash_scenes short_pages 5 initial_state).2
    = [EPostGraphql 1; EPostGraphql 2; EPostGraphql 3]
  ∧ (Py.len <$> (get_stash_scenes short_pages 5 initial_state).1) = Some 3.
Proof. split_and!; by vm_compute. Qed.

(** *** Registration of catalog entries *)

Section registration.
Context (cfg : config) (srv : remote) (root_folder : option string).

Lemma add_scene_dry_run stash_id title st :
  DRY_RUN cfg = true →
  add_scene_to_whisparr cfg srv stash_id title root_folder st = (true, st).
Proof. unfold add_scene_to_whisparr. by intros ->. Qed.

Lemma add_scene_live stash_id title st :
  DRY_RUN cfg = false →
  let data := make_add_data cfg stash_id title root_folder in
  let reply := add_reply_to srv (log st) data in
  add_scene_to_whisparr cfg srv stash_id title root_folder st
  = (accepted reply,
     if reported_existing reply
     then count_already_exist (emit (EPostMovie data) st)
     else emit (EPostMovie data) st).
Proof.
  unfold add_scene_to_whisparr. intros ->. cbn zeta.
  destruct (add_reply_to srv (log st) _) as [t|status [msg|]|]; cbn; try done.
  destruct ((status =? 400) && (str_in "already" msg || str_in "exist" msg));
    [done|].
  by destruct ((status =? 404) || str_in "not found" msg),
              (str_in "validation" msg).
Qed.

Lemma registrations_ok_grow base existing0 cur cur' evs :
  cur ⊆ cur' →
  registrations_ok srv base existing0 cur evs →
  registrations_ok srv base existing0 cur' evs.
Proof.
  intros Hsub (Hmono & Hreq & Hdup). split_and!; [by etrans| |done].
  intros i d Hi. destruct (Hreq i d Hi) as [? Hacc]. split; [done|].
  intros Ha. apply Hsub. auto.
Qed.

Lemma registrations_ok_request base existing0 cur evs data :
  add_stashId data ∉ cur →
  registrations_ok srv base existing0 cur evs →
  registrations_ok srv base existing0
    (if accepted (add_reply_to srv (base ++ evs) data)
     then {[add_stashId data]} ∪ cur else cur)
    (evs ++ [EPostMovie data]).
Proof.
  intros Hfresh (Hmono & Hreq & Hdup). split_and!.
  - destruct (accepted _); [|done]. by apply union_subseteq_r'.
  - intros i d Hi. apply lookup_snoc_Some in Hi as [[Hlt Hi]|[-> [= <-]]].
    + rewrite take_app_le by lia. destruct (Hreq i d Hi) as [? Hacc].
      split; [done|]. intros Ha. specialize (Hacc Ha).
      destruct (accepted (add_reply_to srv (base ++ evs) data)); [|done].
      apply elem_of_union. by right.
    + rewrite take_app_length. split; [by intros ?%Hmono|].
      intros ->. apply elem_of_union. left. by apply elem_of_singleton.
  - intros i j d1 d2 Hij Hi Hj Hid.
    apply lookup_snoc_Some in Hj as [[Hlt Hj]|[-> [= <-]]].
    + assert (Hi' : evs !! i = Some (EPostMovie d1)).
      { apply lookup_snoc_Some in Hi as [[_ Hi]|[-> _]]; [done|lia]. }
      rewrite take_app_le by lia. by eapply Hdup.
    + apply lookup_snoc_Some in Hi as [[Hlt Hi]|[-> _]]; [|lia].
      rewrite take_app_le by lia.
      destruct (Hreq i d1 Hi) as [_ Hacc].
      destruct (accepted (add_reply_to srv (base ++ take i evs) d1)); [|done].
      exfalso. apply Hfresh. rewrite <- Hid. by apply Hacc.
Qed.

Lemma process_scene_ok base existing0 evs added failed cur st scene :
  log st = base ++ evs →
  registrations_ok srv base existing0 cur evs →
  ∃ added' failed' cur' st' evs',
    process_scene cfg srv (added, failed, cur, st) root_folder scene
      = (added', failed', cur', st')
    ∧ log st' = base ++ evs'
    ∧ registrations_ok srv base existing0 cur' evs'.
Proof.
  intros Hlog Hok. unfold process_scene.
  case_bool_decide as Hin.
  - by eexists _, _, _, _, evs.
  - destruct (DRY_RUN cfg) eqn:Hdry.
    + rewrite add_scene_dry_run by done.
      eexists _, _, _, _, evs. split_and!; [done..|].
      eapply registrations_ok_grow; [|done]. apply union_subseteq_r.
    + rewrite add_scene_live by done. cbn zeta.
      set (data := make_add_data cfg (StashDB.stash_id scene)
                     (StashDB.title scene) root_folder).
      pose proof (registrations_ok_request base existing0 cur evs data Hin Hok)
        as Hnew.
      rewrite <- Hlog in Hnew.
      destruct (accepted (add_reply_to srv (log st) data)) eqn:Hacc;
        eexists _, _, _, _, (evs ++ [EPostMovie data]);
        (split_and!; [done| |exact Hnew]);
        destruct (reported_existing _); cbn; by rewrite Hlog, app_assoc.
Qed.

Lemma process_scenes_ok base existing0 batch :
  ∀ evs added failed cur st,
  log st = base ++ evs →
  registrations_ok srv base existing0 cur evs →
  ∃ added' failed' cur' st' evs',
    foldl (λ acc scene, process_scene cfg srv acc root_folder scene)
          (added, failed, cur, st) batch
      = (added', failed', cur', st')
    ∧ log st' = base ++ evs'
    ∧ registrations_ok srv base existing0 cur' evs'.
Proof.
  induction batch as [|scene batch IH]; intros evs added failed cur st Hlog Hok.
  - by eexists _, _, _, _, evs.
  - cbn [foldl].
    destruct (process_scene_ok base existing0 evs added failed cur st scene
                Hlog Hok) as (a & f & c & s & e & -> & Hlog' & Hok').
    by apply (IH e).
Qed.

Lemma process_stash_batches_ok base existing0 batches :
  ∀ evs cur st,
  log st = base ++ evs →
  registrations_ok srv base existing0 cur evs →
  ∃ cur' st' evs',
    process_stash_batches cfg srv batches cur root_folder st = (cur', st')
    ∧ log st' = base ++ evs'
    ∧ registrations_ok srv base existing0 cur' evs'.
Proof.
  unfold process_stash_batches.
  induction batches as [|batch batches IH]; intros evs cur st Hlog Hok.
  - by eexists _, _, evs.
  - cbn [foldl]. unfold process_stash_batch at 2.
    destruct (process_scenes_ok base existing0 batch evs 0 0 cur st Hlog Hok)
      as (a & f & c & s & e & -> & Hlog' & Hok').
    by apply (IH e).
Qed.
End registration.

(** [C5] Registration within one run of the catalog sync.  Of the
    registration calls a run makes, none is for an identifier that was in
    the pre-fetched set, every one the import target accepts puts its
    identifier into the set, and no call that was accepted is ever followed
    by another call for the same identifier: an identifier is never added
    twice.  An entry whose identifier is in the set causes no call and is
    counted as already existing.  When an identifier that is not in the set
    comes twice and the first call is answered with success, exactly one
    call is made, the second entry is counted as already existing, and the
    [added] tally of the batch, which counts every entry that did not fail,
    is 2; the same holds in a dry run, without any call. *)
Theorem stash_id_registered_once (cfg : config) (srv : remote)
    (root_folder : option string) (existing : gset string) (st : state) :
  (∀ batches : list (list StashDB.t),
     let '(existing', st') :=
       process_stash_batches cfg srv batches existing root_folder st in
     ∃ evs, log st' = log st ++ evs
       ∧ existing ⊆ existing'
       ∧ (∀ (i : nat) d, evs !! i = Some (EPostMovie d) →
            (add_stashId d ∉ existing)
            ∧ (accepted (add_reply_to srv (log st ++ take i evs) d) = true →
               add_stashId d ∈ existing'))
       ∧ (∀ (i j : nat) d1 d2, (i < j)%nat →
            evs !! i = Some (EPostMovie d1) → evs !! j = Some (EPostMovie d2) →
            add_stashId d1 = add_stashId d2 →
            accepted (add_reply_to srv (log st ++ take i evs) d1) = false))
  ∧ (∀ scene : StashDB.t,
       StashDB.stash_id scene ∈ existing →
       process_stash_batch cfg srv [scene] existing root_folder st
       = (1, 0, existing, count_already_exist st))
  ∧ (∀ (first second : StashDB.t) title,
       StashDB.stash_id second = StashDB.stash_id first →
       StashDB.stash_id first ∉ existing →
       DRY_RUN cfg = false →
       add_reply_to srv (log st)
         (make_add_data cfg (StashDB.stash_id first) (StashDB.title first)
            root_folder) = AddOk title →
       process_stash_batch cfg srv [first; second] existing root_folder st
       = (2, 0, {[StashDB.stash_id first]} ∪ existing,
          count_already_exist
            (emit (EPostMovie
                     (make_add_data cfg (StashDB.stash_id first)
                        (StashDB.title first) root_folder)) st)))
  ∧ (∀ first second : StashDB.t,
       StashDB.stash_id second = StashDB.stash_id first →
       StashDB.stash_id first ∉ existing →
       DRY_RUN cfg = true →
       process_stash_batch cfg srv [first; second] existing root_folder st
       = (2, 0, {[StashDB.stash_id first]} ∪ existing, count_already_exist st)).
Proof.
  split_and!.
  - intros batches.
    assert (Hinit : registrations_ok srv (log st) existing existing []).
    { split_and!; [done| |]; intros i; intros; by rewrite lookup_nil in *. }
    destruct (process_stash_batches_ok cfg srv root_folder (log st) existing
                batches [] existing st (eq_sym (app_nil_r _)) Hinit)
      as (cur' & st' & evs & -> & Hlog & Hmono & Hreq & Hdup).
    by exists evs.
  - intros scene Hin. unfold process_stash_batch, process_scene. cbn [foldl].
    by rewrite bool_decide_eq_true_2.
  - intros first second title Hsame Hfresh Hlive Hreply.
    unfold process_stash_batch, process_scene. cbn [foldl].
    rewrite bool_decide_eq_false_2 by done.
    rewrite add_scene_live by done. cbn zeta. rewrite Hreply. cbn.
    rewrite Hsame, bool_decide_eq_true_2 by set_solver. done.
  - intros first second Hsame Hfresh Hdry.
    unfold process_stash_batch, process_scene. cbn [foldl].
    rewrite bool_decide_eq_false_2 by done.
    rewrite add_scene_dry_run by done.
    rewrite Hsame, bool_decide_eq_true_2 by set_solver. done.
Qed.

Lemma stash_id_registered_once_witness :
  ("id-1"%string ∉ (∅ : gset string))
  ∧ process_stash_batch (scenario_config false) short_pages
      [stashdb_entry "one" "id-1"; stashdb_entry "one again" "id-1"]
      ∅ (Some "/data"%string) initial_state
    = (2, 0, {["id-1"%string]} ∪ ∅,
       count_already_exist
         (emit (EPostMovie
                  (make_add_data (scenario_config false) "id-1" "one"
                     (Some "/data"%string))) initial_state)).
Proof.
  assert (Hfresh : "id-1"%string ∉ (∅ : gset string)) by set_solver.
  split; [done|].
  exact (proj1 (proj2 (proj2 (stash_id_registered_once (scenario_config false)
           short_pages (Some "/data"%string) ∅ initial_state)))
           (stashdb_entry "one" "id-1") (stashdb_entry "one again" "id-1")
           None eq_refl Hfresh eq_refl eq_refl).
Defined.

(** The same identifier twice, a remote that accepts the registration: the
    batch reports two entries as added, after a single registration
    call. *)
Lemma duplicate_counted_added_twice :
  let '(added, failed, _, st) :=
    process_stash_batch (scenario_config false) short_pages
      [stashdb_entry "one" "id-1"; stashdb_entry "one again" "id-1"]
      ∅ (Some "/data"%string) initial_state in
  added = 2 ∧ failed = 0
  ∧ length (log st) = 1%nat
  ∧ scenes_already_exist (stash st) = 1.
Proof. by vm_compute. Qed.

(** *** The folders of a run *)

Lemma slice_to_take {A} (l : list A) (j : Z) :
  Py.slice_to l j = take (Z.to_nat (Py.clamp_index (Py.len l) j)) l.
Proof.
  unfold Py.slice_to, Py.slice.
  assert (Hlo : Py.clamp_index (Py.len l) 0 = 0).
  { unfold Py.clamp_index, Py.len. cbn. lia. }
  rewrite Hlo. cbn. by rewrite Z.sub_0_r.
Qed.

Lemma limit_subfolders_capped (cfg : config) (c : Z) (l : list folder) :
  MAX_SUBFOLDERS cfg = Some c → 0 < c →
  limit_subfolders cfg l = take (Z.to_nat c) l.
Proof.
  intros Hcap Hc. unfold limit_subfolders. rewrite Hcap.
  destruct (Z.eqb_spec c 0) as [|_]; [lia|]. cbn.
  destruct (Z.gtb_spec (Py.len l) c) as [Hgt|Hle].
  - rewrite slice_to_take. unfold Py.clamp_index.
    destruct (Z.ltb_spec c 0); [lia|]. by rewrite Z.min_l by lia.
  - symmetry. apply take_ge. unfold Py.len in Hle. lia.
Qed.

Lemma limit_subfolders_sublist (cfg : config) (l : list folder) :
  ∃ n, limit_subfolders cfg l = take n l.
Proof.
  unfold limit_subfolders.
  destruct (MAX_SUBFOLDERS cfg) as [c|]; [|exists (length l); by rewrite firstn_all].
  destruct (negb (c =? 0) && (Py.len l >? c)).
  - eexists. apply slice_to_take.
  - exists (length l). by rewrite firstn_all.
Qed.

Section folder_loop.
Context (cfg : config) (srv : remote).

Lemma import_file_batch_log batch st :
  ∃ evs, log (import_file_batch cfg srv batch st).2 = log st ++ evs
         ∧ import_requests evs = []
         ∧ (DRY_RUN cfg = true → evs = []).
Proof.
  unfold import_file_batch. destruct (DRY_RUN cfg).
  - exists []. by rewrite app_nil_r.
  - destruct (omap _ batch) as [|f fs']; [exists []; by rewrite app_nil_r|].
    eexists [_]. by destruct (command_reply_to _ _ _).
Qed.

Lemma import_batches_log batches st :
  ∃ evs, log (import_batches cfg srv batches st).2 = log st ++ evs
         ∧ import_requests evs = []
         ∧ (DRY_RUN cfg = true → evs = []).
Proof.
  unfold import_batches. generalize 0 as n. revert st.
  induction batches as [|batch batches IH]; intros st n; cbn [foldl].
  - exists []. by rewrite app_nil_r.
  - destruct (import_file_batch_log batch st) as (evs1 & Hlog1 & Hreq1 & Hdry1).
    destruct (import_file_batch cfg srv batch st) as [success st1].
    destruct (IH st1 (if success then n + 1 else n)) as (evs2 & Hlog2 & Hreq2 & Hdry2).
    exists (evs1 ++ evs2). cbn in *. split_and!.
    + by rewrite Hlog2, Hlog1, app_assoc.
    + unfold import_requests in *. by rewrite omap_app, Hreq1, Hreq2.
    + intros Hdry. by rewrite Hdry1, Hdry2.
Qed.

Lemma process_file_folder_log folder st :
  ∃ evs, log (process_file_folder cfg srv folder st).2
         = log st ++ EGetManualImport folder :: evs
         ∧ import_requests evs = []
         ∧ (DRY_RUN cfg = true → evs = []).
Proof.
  unfold process_file_folder, get_files_to_import.
  set (st1 := emit (EGetManualImport folder) st).
  assert (Hst1 : ∀ T (x : T), log (x, st1).2 = log st ++ [EGetManualImport folder])
    by done.
  assert (Hnone : ∃ evs, log st1 = log st ++ EGetManualImport folder :: evs
                         ∧ import_requests evs = []
                         ∧ (DRY_RUN cfg = true → evs = []))
    by (by exists []).
  destruct (manualimport_reply srv (log st) folder) as [[|file all_files]| |];
    try done.
  destruct (filter_matched_files (file :: all_files)) as [[[|m matched] potential] unmatched];
    [done|].
  destruct (total_batches _ _); [|done].
  destruct (file_batches _ _) as [batches|]; [|done].
  destruct (import_batches_log batches st1) as (evs & Hlog & Hreq & Hdry).
  destruct (import_batches cfg srv batches st1) as [successful st2].
  exists evs. cbn in *. split_and!; [|done..].
  by rewrite Hlog, <- app_assoc.
Qed.

Lemma process_folders_log folders st :
  ∃ evs, log (process_folders cfg srv folders st).2 = log st ++ evs
    ∧ import_requests evs `prefix_of` (folder_path <$> folders)
    ∧ (∀ r, (process_folders cfg srv folders st).1 = Returned r →
         import_requests evs = folder_path <$> folders)
    ∧ (∀ x, head folders = Some x →
         head evs = Some (EGetManualImport (folder_path x)))
    ∧ (DRY_RUN cfg = true → Forall (λ e, mutating e = false) evs).
Proof.
  revert st. induction folders as [|[[folder depth] file_count] folders IH];
    intros st; cbn [process_folders].
  - exists []. rewrite app_nil_r. split_and!; done.
  - destruct (process_file_folder_log folder st) as (evs1 & Hlog1 & Hreq1 & Hdry1).
    destruct (process_file_folder cfg srv folder st) as [[[[imported unmatched] batches]| |] st1];
      cbn in Hlog1.
    + destruct (IH (count_folder imported unmatched batches st1))
        as (evs2 & Hlog2 & Hpre & Hall & _ & Hdry2).
      exists (EGetManualImport folder :: evs1 ++ evs2).
      assert (Hreqs : import_requests (EGetManualImport folder :: evs1 ++ evs2)
                      = folder :: import_requests evs2).
      { unfold import_requests in *. cbn. by rewrite omap_app, Hreq1. }
      rewrite Hreqs. split_and!.
      * rewrite Hlog2. cbn. rewrite Hlog1, <- app_assoc. done.
      * cbn. by apply prefix_cons.
      * intros r Hr. cbn. f_equal. by eapply Hall.
      * by intros x [= <-].
      * intros Hdry. rewrite (Hdry1 Hdry). constructor; [done|]. by apply Hdry2.
    + exists (EGetManualImport folder :: evs1).
      assert (Hreqs : import_requests (EGetManualImport folder :: evs1) = [folder]).
      { unfold import_requests in *. cbn. by rewrite Hreq1. }
      rewrite Hreqs. split_and!; [done| |done| |].
      * cbn. apply prefix_cons, prefix_nil.
      * by intros x [= <-].
      * intros Hdry. rewrite (Hdry1 Hdry). by repeat constructor.
    + exists (EGetManualImport folder :: evs1).
      assert (Hreqs : import_requests (EGetManualImport folder :: evs1) = [folder]).
      { unfold import_requests in *. cbn. by rewrite Hreq1. }
      rewrite Hreqs. split_and!; [done| |done| |].
      * cbn. apply prefix_cons, prefix_nil.
      * by intros x [= <-].
      * intros Hdry. rewrite (Hdry1 Hdry). by repeat constructor.
Qed.
End folder_loop.

(** [C10] With root files enabled, [folders_to_process] is the root entry,
    at depth 0, followed by the sorted subfolder list as the cap left it.
    So the root is always in the list and is its head, in front of entries
    that all have depth 1 or more; with a cap [c > 0] the list has
    [1 + min(c, number of subfolders)] entries, which is [c + 1] as soon as
    there are [c] subfolders.  A run queries the import target for the root
    folder before any other folder, and a run that ends normally queries
    it for every folder of the list, in order. *)
Theorem root_entry_first (cfg : config) (srv : remote) (fs : filesystem)
    (st : state) :
  PROCESS_ROOT_FILES cfg = true →
  let sorted :=
    (get_all_subfolders_recursive fs (IMPORT_FOLDER cfg) (MAX_DEPTH cfg)).1 in
  let folders := (folders_to_process cfg fs).1 in
  folders
  = (IMPORT_FOLDER cfg, 0, (count_files_in_folder fs (IMPORT_FOLDER cfg)).1)
      :: limit_subfolders cfg sorted
  ∧ (∀ x, x ∈ limit_subfolders cfg sorted → x ∈ sorted ∧ 1 <= folder_depth x)
  ∧ (∀ c, MAX_SUBFOLDERS cfg = Some c → 0 < c →
       limit_subfolders cfg sorted = take (Z.to_nat c) sorted
       ∧ Py.len folders = 1 + Z.min c (Py.len sorted)
       ∧ (c <= Py.len sorted → Py.len folders = c + 1))
  ∧ (path_exists fs (IMPORT_FOLDER cfg) = true →
     ∃ evs,
       log (run_file_import cfg srv fs st).2
       = log st ++ (folders_to_process cfg fs).2 ++ evs
       ∧ head evs = Some (EGetManualImport (IMPORT_FOLDER cfg))
       ∧ head (import_requests evs) = Some (IMPORT_FOLDER cfg)
       ∧ ((run_file_import cfg srv fs st).1 = Returned true →
          import_requests evs = folder_path <$> folders)).
Proof.
  intros Hroot sorted folders.
  assert (Hfolders : folders
    = (IMPORT_FOLDER cfg, 0, (count_files_in_folder fs (IMPORT_FOLDER cfg)).1)
        :: limit_subfolders cfg sorted).
  { subst folders sorted. unfold folders_to_process. rewrite Hroot.
    destruct (get_all_subfolders_recursive fs _ _) as [all scanned].
    by destruct (count_files_in_folder fs (IMPORT_FOLDER cfg)). }
  split_and!; [done| | |].
  - intros x Hx.
    destruct (limit_subfolders_sublist cfg sorted) as [n Hn]. rewrite Hn in Hx.
    assert (Hin : x ∈ sorted).
    { apply elem_of_take in Hx as (i & Hi & _). by eapply list_elem_of_lookup_2. }
    split; [done|].
    by apply (get_all_subfolders_depth fs (IMPORT_FOLDER cfg) (MAX_DEPTH cfg)).
  - intros c Hcap Hc.
    pose proof (limit_subfolders_capped cfg c sorted Hcap Hc) as Hlim.
    split; [done|].
    assert (Hlen : Py.len folders = 1 + Z.min c (Py.len sorted)).
    { rewrite Hfolders, Hlim. unfold Py.len. cbn [length].
      rewrite length_take. lia. }
    split; [done|]. lia.
  - intros Hexists. unfold run_file_import. rewrite Hexists. cbn [negb].
    fold folders. rewrite Hfolders.
    destruct (folders_to_process cfg fs) as [fl events] eqn:Hftp. cbn [fst snd].
    cbn in Hfolders. subst fl.
    set (st0 := emit_all events st).
    set (first := (IMPORT_FOLDER cfg, 0,
                   (count_files_in_folder fs (IMPORT_FOLDER cfg)).1)).
    destruct (process_folders_log cfg srv (first :: limit_subfolders cfg sorted) st0)
      as (evs & Hlog & _ & Hall & Hhead & _).
    specialize (Hhead first eq_refl).
    exists evs.
    assert (Hreq : head (import_requests evs) = Some (IMPORT_FOLDER cfg)).
    { destruct evs as [|e evs]; [done|]. injection Hhead as ->. done. }
    destruct (process_folders cfg srv (first :: limit_subfolders cfg sorted) st0)
      as [[r| |] st1]; cbn [fst snd] in *;
      (split_and!; [by rewrite Hlog, app_assoc|done|done|]); [|done..].
    intros _. by eapply Hall.
Qed.

Lemma root_entry_first_witness :
  PROCESS_ROOT_FILES (scenario_config true) = true
  ∧ MAX_SUBFOLDERS (scenario_config true) = Some 1
  ∧ Py.len (folders_to_process (scenario_config true) scenario_fs).1 = 1 + 1.
Proof.
  split; [done|]. split; [done|].
  refine (proj2 (proj2 (proj1 (proj2 (proj2
    (root_entry_first (scenario_config true) short_pages scenario_fs
       initial_state eq_refl))) 1 eq_refl _)) _); [lia|by vm_compute].
Defined.

(** *** Dry run: no mutating call *)

Lemma extends_quietly_refl st : extends_quietly st st.
Proof. exists []. by rewrite app_nil_r. Qed.

Lemma extends_quietly_trans st1 st2 st3 :
  extends_quietly st1 st2 → extends_quietly st2 st3 → extends_quietly st1 st3.
Proof.
  intros (e1 & H1 & Hq1) (e2 & H2 & Hq2). exists (e1 ++ e2). split.
  - by rewrite H2, H1, app_assoc.
  - by apply Forall_app.
Qed.

Lemma extends_quietly_emit e st :
  mutating e = false → extends_quietly st (emit e st).
Proof. intros He. exists [e]. split; [done|]. by repeat constructor. Qed.

Lemma extends_quietly_same_log st st' :
  log st' = log st → extends_quietly st st'.
Proof. intros H. exists []. by rewrite app_nil_r. Qed.

Lemma scan_directory_quiet (fs : filesystem) (m : Z) (fuel : nat)
    (path : string) (d : Z) :
  Forall (λ e, mutating e = false) (scan_directory fs m fuel path d).2.
Proof.
  revert path d. induction fuel as [|fuel IH]; intros path d;
    rewrite scan_directory_unfold;
    destruct (Z.gtb_spec d m) as [|Hd]; cbn; try done.
  destruct (listdir fs path) as [items|]; cbn; [|by repeat constructor].
  constructor; [done|].
  apply Forall_forall. intros e He. rewrite <- list_fmap_compose in He.
  apply elem_of_concat_fmap in He as (subfolder & _ & He). cbn in He.
  rewrite visit_subfolder_events in He.
  apply elem_of_cons in He as [->|He]; [done|].
  pose proof (IH subfolder (d + 1)) as Hq. rewrite Forall_forall in Hq. auto.
Qed.

Lemma folders_to_process_quiet (cfg : config) (fs : filesystem) :
  Forall (λ e, mutating e = false) (folders_to_process cfg fs).2.
Proof.
  unfold folders_to_process, get_all_subfolders_recursive.
  pose proof (scan_directory_quiet fs (MAX_DEPTH cfg) (Z.to_nat (MAX_DEPTH cfg))
                (IMPORT_FOLDER cfg) 1) as Hq.
  destruct (scan_directory fs _ _ _ 1) as [all scanned]. cbn in Hq.
  destruct (PROCESS_ROOT_FILES cfg); [|done].
  unfold count_files_in_folder.
  destruct (listdir fs (IMPORT_FOLDER cfg)); cbn;
    apply Forall_app; split; try done; by repeat constructor.
Qed.

Section dry_run.
Context (cfg : config) (srv : remote) (Hdry : DRY_RUN cfg = true).

Lemma fetch_scenes_quiet fuel page all_scenes st :
  extends_quietly st (fetch_scenes srv fuel page all_scenes st).2.
Proof.
  revert page all_scenes st.
  induction fuel as [|fuel IH]; intros page all_scenes st; cbn [fetch_scenes].
  - apply extends_quietly_refl.
  - assert (Hemit : extends_quietly st (emit (EPostGraphql page) st))
      by (by apply extends_quietly_emit).
    destruct (graphql_reply_to srv (log st) page per_page)
      as [| |[|scene scenes] total_count]; try done.
    destruct (_ >=? _); [done|].
    eapply extends_quietly_trans; [exact Hemit|apply IH].
Qed.

Lemma process_scenes_dry root_folder batch :
  ∀ added failed cur st,
  log (foldl (λ acc scene, process_scene cfg srv acc root_folder scene)
         (added, failed, cur, st) batch).2 = log st.
Proof.
  induction batch as [|scene batch IH]; intros added failed cur st; [done|].
  cbn [foldl]. unfold process_scene at 2.
  case_bool_decide; [by rewrite IH|].
  rewrite add_scene_dry_run by done. by rewrite IH.
Qed.

Lemma process_stash_batches_dry root_folder batches :
  ∀ cur st,
  log (process_stash_batches cfg srv batches cur root_folder st).2 = log st.
Proof.
  unfold process_stash_batches.
  induction batches as [|batch batches IH]; intros cur st; [done|].
  cbn [foldl]. unfold process_stash_batch at 2.
  pose proof (process_scenes_dry root_folder batch 0 0 cur st) as Hlog.
  destruct (foldl _ (0, 0, cur, st) batch) as [[[added failed] cur'] st'].
  by rewrite IH.
Qed.

Lemma get_root_folders_quiet st :
  extends_quietly st (get_root_folders srv st).2.
Proof.
  unfold get_root_folders.
  destruct (rootfolder_reply srv (log st)); by apply extends_quietly_emit.
Qed.

Lemma get_whisparr_movies_quiet st :
  extends_quietly st (get_whisparr_movies srv st).2.
Proof.
  unfold get_whisparr_movies.
  destruct (movie_reply srv (log st)); by apply extends_quietly_emit.
Qed.

Lemma run_stash_sync_quiet fuel st :
  extends_quietly st (run_stash_sync cfg srv fuel st).2.
Proof.
  unfold run_stash_sync, get_stash_scenes.
  pose proof (get_root_folders_quiet st) as H1.
  destruct (get_root_folders srv st) as [root_folders st1]. cbn [snd] in H1.
  destruct root_folders as [|first others]; [done|].
  pose proof (get_whisparr_movies_quiet st1) as H2.
  destruct (get_whisparr_movies srv st1) as [movies st2]. cbn [snd] in H2.
  pose proof (fetch_scenes_quiet fuel 1 [] st2) as H3.
  destruct (fetch_scenes srv fuel 1 [] st2) as [fetched_scenes st3].
  cbn [snd] in H3.
  assert (H4 : extends_quietly st st3)
    by (eapply extends_quietly_trans; [|done]; by eapply extends_quietly_trans).
  destruct fetched_scenes as [all_scenes|]; [|done].
  destruct all_scenes as [|scene all_scenes]; [done|].
  destruct (filter_stashdb_scenes _) as [|s stashdb_scenes]; [done|].
  destruct (total_batches _ _); [|done].
  destruct (file_batches _ _) as [batches|]; [|done].
  match goal with
  | |- context [process_stash_batches cfg srv batches ?cur ?root ?s0] =>
      pose proof (process_stash_batches_dry root batches cur s0) as H5;
      destruct (process_stash_batches cfg srv batches cur root s0) as [cur' st5]
  end.
  cbn [snd] in *. eapply extends_quietly_trans; [exact H4|].
  by apply extends_quietly_same_log.
Qed.

Lemma run_file_import_quiet fs st :
  extends_quietly st (run_file_import cfg srv fs st).2.
Proof.
  unfold run_file_import.
  destruct (negb (path_exists fs (IMPORT_FOLDER cfg)));
    [apply extends_quietly_refl|].
  pose proof (folders_to_process_quiet cfg fs) as Hq.
  destruct (folders_to_process cfg fs) as [folders events]. cbn [snd] in Hq.
  assert (H1 : extends_quietly st (emit_all events st)) by (by exists events).
  destruct folders as [|x folders]; [done|].
  destruct (process_folders_log cfg srv (x :: folders) (emit_all events st))
    as (evs & Hlog & _ & _ & _ & Hquiet).
  assert (H2 : extends_quietly (emit_all events st)
                 (process_folders cfg srv (x :: folders) (emit_all events st)).2)
    by (exists evs; auto).
  destruct (process_folders cfg srv (x :: folders) (emit_all events st))
    as [[r| |] st2]; cbn [snd] in *; by eapply extends_quietly_trans.
Qed.

Lemma run_all_imports_quiet fs fuel st :
  extends_quietly st (run_all_imports cfg srv fs fuel st).2.
Proof.
  unfold run_all_imports.
  assert (Hsync : ∃ synced st1,
    (if bool_decide (MODE cfg ∈ ["both"; "stash"]%string)
     then if String.eqb (STASH_API_KEY cfg) "" then (Returned false, st)
          else match run_stash_sync cfg srv fuel st with
               | (Returned ok, s) => (Returned ok, s)
               | (Raised, s) => (Returned false, s)
               | (OutOfFuel, s) => (OutOfFuel, s)
               end
     else (Returned true, st)) = (synced, st1)
    ∧ extends_quietly st st1).
  { destruct (bool_decide _); [|eexists _, _; split; [done|apply extends_quietly_refl]].
    destruct (String.eqb _ _); [eexists _, _; split; [done|apply extends_quietly_refl]|].
    pose proof (run_stash_sync_quiet fuel st) as Hq.
    destruct (run_stash_sync cfg srv fuel st) as [[ok| |] s];
      eexists _, _; (split; [done|exact Hq]). }
  destruct Hsync as (synced & st1 & -> & H1).
  destruct synced as [success| |]; [|done..].
  destruct (bool_decide _); [|done].
  pose proof (run_file_import_quiet fs st1) as H2.
  destruct (run_file_import cfg srv fs st1) as [[ok| |] st2];
    by eapply extends_quietly_trans.
Qed.
End dry_run.

(** *** Dry run and live run have the same shape *)

Lemma reads_app h1 h2 : reads (h1 ++ h2) = reads h1 ++ reads h2.
Proof. apply List.filter_app. Qed.

Lemma same_shape_emit_all evs dry live :
  same_shape dry live → same_shape (emit_all evs dry) (emit_all evs live).
Proof.
  unfold same_shape. cbn. rewrite !reads_app. intros (-> & ?). done.
Qed.

Lemma same_shape_emit e dry live :
  same_shape dry live → same_shape (emit e dry) (emit e live).
Proof. apply (same_shape_emit_all [e]). Qed.

Lemma same_shape_call e dry live :
  mutating e = true → same_shape dry live → same_shape dry (emit e live).
Proof.
  unfold same_shape. cbn. rewrite reads_app. unfold reads at 2. cbn.
  intros ->. cbn. by rewrite app_nil_r.
Qed.

Lemma same_shape_exist_dry dry live :
  same_shape dry live → same_shape (count_already_exist dry) live.
Proof. done. Qed.

Lemma same_shape_exist_live dry live :
  same_shape dry live → same_shape dry (count_already_exist live).
Proof. done. Qed.

Section dry_and_live.
Context (cfg : config) (srv : remote) (Hsrv : reads_ignore_writes srv).

Let dry_cfg := with_dry_run true cfg.
Let live_cfg := with_dry_run false cfg.

Lemma get_files_to_import_shape folder dry live :
  same_shape dry live →
  (get_files_to_import srv folder dry).1 = (get_files_to_import srv folder live).1
  ∧ same_shape (get_files_to_import srv folder dry).2
               (get_files_to_import srv folder live).2.
Proof.
  intros Hs. unfold get_files_to_import.
  destruct (Hsrv (log live) (log dry) (proj1 Hs)) as (_ & _ & _ & Hreply).
  rewrite (Hreply folder).
  destruct (manualimport_reply srv (log dry) folder);
    (split; [done|by apply same_shape_emit]).
Qed.

Lemma import_file_batch_shape batch dry live :
  same_shape dry live →
  import_file_batch dry_cfg srv batch dry = (true, dry)
  ∧ same_shape dry (import_file_batch live_cfg srv batch live).2.
Proof.
  intros Hs. split; [done|]. unfold import_file_batch. cbn [DRY_RUN live_cfg with_dry_run].
  destruct (omap _ batch) as [|f formatted]; [done|].
  destruct (command_reply_to _ _ _); by apply same_shape_call.
Qed.

Lemma import_batches_shape batches :
  ∀ dry live n_dry n_live,
  same_shape dry live → n_live <= n_dry →
  let step cfg' :=
    (λ '(successful_batches, st) batch,
       let '(success, st) := import_file_batch cfg' srv batch st in
       (if success then successful_batches + 1 else successful_batches, st)) in
  let result_dry := foldl (step dry_cfg) (n_dry, dry) batches in
  let result_live := foldl (step live_cfg) (n_live, live) batches in
  result_live.1 <= result_dry.1 ∧ same_shape result_dry.2 result_live.2.
Proof.
  induction batches as [|batch batches IH]; intros dry live n_dry n_live Hs Hn;
    cbn zeta; cbn [foldl]; [done|].
  destruct (import_file_batch_shape batch dry live Hs) as [-> Hs'].
  destruct (import_file_batch live_cfg srv batch live) as [success live'].
  apply IH; [done|]. destruct success; lia.
Qed.

Lemma process_file_folder_shape folder dry live :
  same_shape dry live →
  match process_file_folder dry_cfg srv folder dry,
        process_file_folder live_cfg srv folder live with
  | (Returned (i1, u1, b1), dry'), (Returned (i2, u2, b2), live') =>
      i1 = i2 ∧ u1 = u2 ∧ b2 <= b1 ∧ same_shape dry' live'
  | (Raised, dry'), (Raised, live') => same_shape dry' live'
  | _, _ => False
  end.
Proof.
  intros Hs. unfold process_file_folder.
  destruct (get_files_to_import_shape folder dry live Hs) as [Hfiles Hs1].
  destruct (get_files_to_import srv folder dry) as [all_files dry1].
  destruct (get_files_to_import srv folder live) as [all_files' live1].
  cbn [fst snd] in *. subst all_files'.
  destruct all_files as [|file all_files]; [done|].
  destruct (filter_matched_files (file :: all_files))
    as [[[|m matched] potential] unmatched]; [done|].
  cbn [FILE_BATCH_SIZE dry_cfg live_cfg with_dry_run].
  destruct (total_batches _ _); [|done].
  destruct (file_batches _ _) as [batches|]; [|done].
  pose proof (import_batches_shape batches dry1 live1 0 0 Hs1 (Z.le_refl 0)) as Hb.
  cbn zeta in Hb. unfold import_batches.
  destruct (foldl _ (0, dry1) batches) as [b1 dry2].
  destruct (foldl _ (0, live1) batches) as [b2 live2].
  cbn [fst snd] in Hb. by destruct Hb.
Qed.

Lemma same_shape_count_folder i u b1 b2 dry live :
  b2 <= b1 → same_shape dry live →
  same_shape (count_folder i u b1 dry) (count_folder i u b2 live).
Proof. unfold same_shape. cbn. intros ? (? & ? & ? & ? & ? & ? & ? & ? & ?).
  split_and!; try done; lia. Qed.

Lemma process_folders_shape folders :
  ∀ dry live, same_shape dry live →
  (process_folders dry_cfg srv folders dry).1
    = (process_folders live_cfg srv folders live).1
  ∧ same_shape (process_folders dry_cfg srv folders dry).2
               (process_folders live_cfg srv folders live).2.
Proof.
  induction folders as [|[[folder depth] file_count] folders IH];
    intros dry live Hs; cbn [process_folders]; [done|].
  pose proof (process_file_folder_shape folder dry live Hs) as Hf.
  destruct (process_file_folder dry_cfg srv folder dry)
    as [[[[i1 u1] b1]| |] dry1],
           (process_file_folder live_cfg srv folder live)
    as [[[[i2 u2] b2]| |] live1]; try done.
  destruct Hf as (-> & -> & Hb & Hs1).
  apply IH. by apply same_shape_count_folder.
Qed.

Lemma run_file_import_shape fs dry live :
  same_shape dry live →
  (run_file_import dry_cfg srv fs dry).1 = (run_file_import live_cfg srv fs live).1
  ∧ same_shape (run_file_import dry_cfg srv fs dry).2
               (run_file_import live_cfg srv fs live).2.
Proof.
  intros Hs. unfold run_file_import.
  cbn [IMPORT_FOLDER dry_cfg live_cfg with_dry_run].
  destruct (negb (path_exists fs (IMPORT_FOLDER cfg))); [done|].
  change (folders_to_process dry_cfg fs) with (folders_to_process cfg fs).
  change (folders_to_process live_cfg fs) with (folders_to_process cfg fs).
  destruct (folders_to_process cfg fs) as [folders events].
  pose proof (same_shape_emit_all events dry live Hs) as Hs1.
  destruct folders as [|x folders]; [done|].
  destruct (process_folders_shape (x :: folders) _ _ Hs1) as [Hout Hs2].
  destruct (process_folders dry_cfg srv (x :: folders) (emit_all events dry))
    as [[r1| |] dry2],
           (process_folders live_cfg srv (x :: folders) (emit_all events live))
    as [[r2| |] live2]; by cbn in *.
Qed.

Lemma get_root_folders_shape dry live :
  same_shape dry live →
  (get_root_folders srv dry).1 = (get_root_folders srv live).1
  ∧ same_shape (get_root_folders srv dry).2 (get_root_folders srv live).2.
Proof.
  intros Hs. unfold get_root_folders.
  destruct (Hsrv (log live) (log dry) (proj1 Hs)) as (-> & _).
  destruct (rootfolder_reply srv (log dry));
    (split; [done|by apply same_shape_emit]).
Qed.

Lemma get_whisparr_movies_shape dry live :
  same_shape dry live →
  (get_whisparr_movies srv dry).1 = (get_whisparr_movies srv live).1
  ∧ same_shape (get_whisparr_movies srv dry).2 (get_whisparr_movies srv live).2.
Proof.
  intros Hs. unfold get_whisparr_movies.
  destruct (Hsrv (log live) (log dry) (proj1 Hs)) as (_ & -> & _).
  destruct (movie_reply srv (log dry));
    (split; [done|by apply same_shape_emit]).
Qed.

Lemma fetch_scenes_shape fuel :
  ∀ page all_scenes dry live, same_shape dry live →
  (fetch_scenes srv fuel page all_scenes dry).1
    = (fetch_scenes srv fuel page all_scenes live).1
  ∧ same_shape (fetch_scenes srv fuel page all_scenes dry).2
               (fetch_scenes srv fuel page all_scenes live).2.
Proof.
  induction fuel as [|fuel IH]; intros page all_scenes dry live Hs;
    cbn [fetch_scenes]; [done|].
  destruct (Hsrv (log live) (log dry) (proj1 Hs)) as (_ & _ & Hreply & _).
  rewrite (Hreply page per_page).
  pose proof (same_shape_emit (EPostGraphql page) dry live Hs) as Hs1.
  destruct (graphql_reply_to srv (log dry) page per_page)
    as [| |[|scene scenes] total_count]; try done.
  destruct (_ >=? _); [done|]. by apply IH.
Qed.

Lemma process_scene_shape root_folder scene a1 f1 cur1 dry a2 f2 cur2 live :
  a1 + f1 = a2 + f2 → same_shape dry live →
  let '(a1', f1', _, dry') :=
    process_scene dry_cfg srv (a1, f1, cur1, dry) root_folder scene in
  let '(a2', f2', _, live') :=
    process_scene live_cfg srv (a2, f2, cur2, live) root_folder scene in
  a1' + f1' = a2' + f2' ∧ same_shape dry' live'.
Proof.
  intros Hsum Hs. unfold process_scene.
  rewrite (add_scene_dry_run dry_cfg) by done.
  rewrite (add_scene_live live_cfg) by done. cbn zeta.
  set (data := make_add_data live_cfg _ _ _).
  pose proof (same_shape_call (EPostMovie data) dry live eq_refl Hs) as Hcall.
  set (reply := add_reply_to srv (log live) data).
  destruct (bool_decide (StashDB.stash_id scene ∈ cur1)),
           (bool_decide (StashDB.stash_id scene ∈ cur2)),
           (accepted reply), (reported_existing reply);
    (split; [lia|done]).
Qed.

Lemma process_scenes_shape root_folder batch :
  ∀ a1 f1 cur1 dry a2 f2 cur2 live,
  a1 + f1 = a2 + f2 → same_shape dry live →
  let '(a1', f1', _, dry') :=
    foldl (λ acc scene, process_scene dry_cfg srv acc root_folder scene)
          (a1, f1, cur1, dry) batch in
  let '(a2', f2', _, live') :=
    foldl (λ acc scene, process_scene live_cfg srv acc root_folder scene)
          (a2, f2, cur2, live) batch in
  a1' + f1' = a2' + f2' ∧ same_shape dry' live'.
Proof.
  induction batch as [|scene batch IH];
    intros a1 f1 cur1 dry a2 f2 cur2 live Hsum Hs; cbn [foldl]; [done|].
  pose proof (process_scene_shape root_folder scene a1 f1 cur1 dry a2 f2 cur2
                live Hsum Hs) as Hstep.
  destruct (process_scene dry_cfg srv _ root_folder scene)
    as [[[a1' f1'] cur1'] dry'].
  destruct (process_scene live_cfg srv _ root_folder scene)
    as [[[a2' f2'] cur2'] live'].
  destruct Hstep. by apply IH.
Qed.

Lemma same_shape_count_stash_batch a1 f1 a2 f2 dry live :
  a1 + f1 = a2 + f2 → same_shape dry live →
  same_shape (count_stash_batch a1 f1 dry) (count_stash_batch a2 f2 live).
Proof. unfold same_shape. cbn. intros ? (? & ? & ? & ? & ? & ? & ? & ? & ?).
  split_and!; try done; lia. Qed.

Lemma process_stash_batches_shape root_folder batches :
  ∀ cur1 dry cur2 live, same_shape dry live →
  same_shape (process_stash_batches dry_cfg srv batches cur1 root_folder dry).2
             (process_stash_batches live_cfg srv batches cur2 root_folder live).2.
Proof.
  unfold process_stash_batches.
  induction batches as [|batch batches IH]; intros cur1 dry cur2 live Hs;
    cbn [foldl]; [done|].
  unfold process_stash_batch at 2 4.
  pose proof (process_scenes_shape root_folder batch 0 0 cur1 dry 0 0 cur2 live
                eq_refl Hs) as Hb.
  destruct (foldl _ (0, 0, cur1, dry) batch) as [[[a1 f1] cur1'] dry'].
  destruct (foldl _ (0, 0, cur2, live) batch) as [[[a2 f2] cur2'] live'].
  destruct Hb. apply IH. by apply same_shape_count_stash_batch.
Qed.

Lemma run_stash_sync_shape fuel dry live :
  same_shape dry live →
  (run_stash_sync dry_cfg srv fuel dry).1 = (run_stash_sync live_cfg srv fuel live).1
  ∧ same_shape (run_stash_sync dry_cfg srv fuel dry).2
               (run_stash_sync live_cfg srv fuel live).2.
Proof.
  intros Hs. unfold run_stash_sync, get_stash_scenes.
  destruct (get_root_folders_shape dry live Hs) as [Hroot Hs1].
  destruct (get_root_folders srv dry) as [root_folders dry1].
  destruct (get_root_folders srv live) as [root_folders' live1].
  cbn [fst snd] in *. subst root_folders'.
  destruct root_folders as [|first others]; [done|].
  destruct (get_whisparr_movies_shape dry1 live1 Hs1) as [Hmovies Hs2].
  destruct (get_whisparr_movies srv dry1) as [movies dry2].
  destruct (get_whisparr_movies srv live1) as [movies' live2].
  cbn [fst snd] in *. subst movies'.
  destruct (fetch_scenes_shape fuel 1 [] dry2 live2 Hs2) as [Hfetch Hs3].
  destruct (fetch_scenes srv fuel 1 [] dry2) as [fetched_scenes dry3].
  destruct (fetch_scenes srv fuel 1 [] live2) as [fetched_scenes' live3].
  cbn [fst snd] in *. subst fetched_scenes'.
  destruct fetched_scenes as [all_scenes|]; [|done].
  assert (Hs4 : same_shape (set_scenes_found (Py.len all_scenes) dry3)
                           (set_scenes_found (Py.len all_scenes) live3)).
  { unfold same_shape in *. cbn. by destruct Hs3 as (? & ? & ? & ? & ? & ?). }
  destruct all_scenes as [|scene all_scenes]; [done|].
  set (stashdb_scenes := filter_stashdb_scenes (scene :: all_scenes)).
  assert (Hs5 : same_shape
    (set_scenes_with_stashdb (Py.len stashdb_scenes)
       (set_scenes_found (Py.len (scene :: all_scenes)) dry3))
    (set_scenes_with_stashdb (Py.len stashdb_scenes)
       (set_scenes_found (Py.len (scene :: all_scenes)) live3))).
  { unfold same_shape in *. cbn. by destruct Hs4 as (? & ? & ? & ? & ? & ?). }
  destruct stashdb_scenes as [|s stashdb_scenes]; [done|].
  cbn [STASH_BATCH_SIZE ROOT_FOLDER_PATH dry_cfg live_cfg with_dry_run].
  destruct (total_batches _ _); [|done].
  destruct (file_batches _ _) as [batches|]; [|done].
  match goal with
  | |- context [process_stash_batches dry_cfg srv batches ?cur ?root ?s1] =>
    match goal with
    | |- context [process_stash_batches live_cfg srv batches cur root ?s2] =>
        pose proof (process_stash_batches_shape root batches cur s1 cur s2 Hs5)
          as Hs6;
        destruct (process_stash_batches dry_cfg srv batches cur root s1)
          as [cur1 dry6];
        destruct (process_stash_batches live_cfg srv batches cur root s2)
          as [cur2 live6]
    end
  end.
  done.
Qed.

Lemma run_all_imports_shape fs fuel dry live :
  same_shape dry live →
  (run_all_imports dry_cfg srv fs fuel dry).1
    = (run_all_imports live_cfg srv fs fuel live).1
  ∧ same_shape (run_all_imports dry_cfg srv fs fuel dry).2
               (run_all_imports live_cfg srv fs fuel live).2.
Proof.
  intros Hs. unfold run_all_imports.
  cbn [MODE STASH_API_KEY dry_cfg live_cfg with_dry_run].
  destruct (run_stash_sync_shape fuel dry live Hs) as [Hout Hs1].
  assert (Hsync : ∃ synced dry1 live1,
    (if bool_decide (MODE cfg ∈ ["both"; "stash"]%string)
     then if String.eqb (STASH_API_KEY cfg) "" then (Returned false, dry)
          else match run_stash_sync dry_cfg srv fuel dry with
               | (Returned ok, s) => (Returned ok, s)
               | (Raised, s) => (Returned false, s)
               | (OutOfFuel, s) => (OutOfFuel, s)
               end
     else (Returned true, dry)) = (synced, dry1)
    ∧ (if bool_decide (MODE cfg ∈ ["both"; "stash"]%string)
       then if String.eqb (STASH_API_KEY cfg) "" then (Returned false, live)
            else match run_stash_sync live_cfg srv fuel live with
                 | (Returned ok, s) => (Returned ok, s)
                 | (Raised, s) => (Returned false, s)
                 | (OutOfFuel, s) => (OutOfFuel, s)
                 end
       else (Returned true, live)) = (synced, live1)
    ∧ same_shape dry1 live1).
  { destruct (bool_decide _); [|by eexists _, _, _].
    destruct (String.eqb _ _); [by eexists _, _, _|].
    destruct (run_stash_sync dry_cfg srv fuel dry) as [[ok1| |] s1],
             (run_stash_sync live_cfg srv fuel live) as [[ok2| |] s2];
      cbn in Hout; try done; [injection Hout as ->|..]; by eexists _, _, _. }
  destruct Hsync as (synced & dry1 & live1 & -> & -> & Hs2).
  destruct synced as [success| |]; [|done..].
  destruct (bool_decide _); [|done].
  destruct (run_file_import_shape fs dry1 live1 Hs2) as [Hout2 Hs3].
  destruct (run_file_import dry_cfg srv fs dry1) as [[ok1| |] dry2],
           (run_file_import live_cfg srv fs live1) as [[ok2| |] live2];
    cbn in Hout2; try done. by injection Hout2 as ->.
Qed.
End dry_and_live.

Lemma with_dry_run_id (cfg : config) (b : bool) :
  DRY_RUN cfg = b → with_dry_run b cfg = cfg.
Proof. destruct cfg. cbn. by intros ->. Qed.

Lemma same_shape_refl (st : state) : same_shape st st.
Proof. unfold same_shape. split_and!; done. Qed.

Lemma import_batches_dry_run (cfg : config) (srv : remote)
    (batches : list (list File.t)) (st : state) :
  DRY_RUN cfg = true →
  import_batches cfg srv batches st = (Py.len batches, st).
Proof.
  intros Hdry. unfold import_batches, Py.len.
  replace (Z.of_nat (length batches)) with (0 + Z.of_nat (length batches)) by lia.
  generalize 0 as n.
  induction batches as [|batch batches IH]; intros n; cbn [foldl length].
  - f_equal. lia.
  - unfold import_file_batch at 2. rewrite Hdry, IH. f_equal. lia.
Qed.

Lemma simple_remote_reads_ignore_writes graphql add manualimport :
  reads_ignore_writes (simple_remote graphql add manualimport).
Proof. by intros h h' _. Qed.



(** * Further properties of the code *)

(** *** Discovery finds exactly the directories within the depth limit *)

Lemma at_depth_nonneg (fs : filesystem) (root : string) (k : Z) (p : string) :
  at_depth fs root k p → 0 <= k.
Proof. induction 1; lia. Qed.

Lemma scan_directory_sound (fs : filesystem) (root : string) (m : Z)
    (fuel : nat) (path : string) (k : Z) (x : folder) :
  at_depth fs root k path →
  x ∈ (scan_directory fs m fuel path (k + 1)).1 →
  at_depth fs root (folder_depth x) (folder_path x)
  ∧ isdir fs (folder_path x) = true
  ∧ folder_files x = (count_files_in_folder fs (folder_path x)).1.
Proof.
  revert path k. induction fuel as [|fuel IH]; intros path k Hat;
    rewrite scan_directory_unfold;
    destruct (Z.gtb_spec (k + 1) m) as [|Hd]; cbn; try by intros ?%elem_of_nil.
  destruct (listdir fs path) as [items|] eqn:Hitems; cbn;
    [|by intros ?%elem_of_nil].
  rewrite <- list_fmap_compose, elem_of_concat_fmap.
  intros (subfolder & Hsub & Hx). cbn in Hx.
  apply elem_of_subfolders in Hsub as (item & Hitem & -> & Hdir).
  assert (Hat' : at_depth fs root (k + 1) (join path item))
    by (by eapply at_depth_child).
  rewrite visit_subfolder_folders in Hx.
  apply elem_of_cons in Hx as [->|Hx]; [done|].
  by eapply IH.
Qed.

(** The records of the scan of a directory within the limit are among the
    records of the scan of the root, and so is its own record. *)
Lemma scan_directory_complete (fs : filesystem) (root : string) (m : Z)
    (k : Z) (p : string) :
  at_depth fs root k p →
  (∀ x, x ∈ (scan_directory fs m (Z.to_nat (m - k)) p (k + 1)).1 →
        x ∈ (scan_directory fs m (Z.to_nat m) root 1).1)
  ∧ (1 <= k <= m →
     (p, k, (count_files_in_folder fs p).1)
       ∈ (scan_directory fs m (Z.to_nat m) root 1).1).
Proof.
  induction 1 as [|k parent items item Hat [IHsub _] Hitems Hitem Hdir].
  - split; [|lia]. by rewrite Z.sub_0_r.
  - pose proof (at_depth_nonneg _ _ _ _ Hat) as Hk.
    destruct (Z.le_gt_cases (k + 1) m) as [Hin|Hout].
    + assert (Hvisit : ∀ x,
        x ∈ (visit_subfolder fs (scan_directory fs m (Z.to_nat (m - (k + 1))))
               (k + 1) (join parent item)).1 →
        x ∈ (scan_directory fs m (Z.to_nat m) root 1).1).
      { intros x Hx. apply IHsub.
        replace (Z.to_nat (m - k)) with (S (Z.to_nat (m - (k + 1)))) by lia.
        rewrite scan_directory_unfold.
        destruct (Z.gtb_spec (k + 1) m) as [|_]; [lia|].
        rewrite Hitems. cbn.
        rewrite <- list_fmap_compose. apply elem_of_concat_fmap.
        exists (join parent item). split; [|done].
        apply elem_of_subfolders. by exists item. }
      split.
      * intros x Hx. apply Hvisit. rewrite visit_subfolder_folders.
        apply elem_of_cons. by right.
      * intros _. apply Hvisit. rewrite visit_subfolder_folders.
        apply elem_of_cons. by left.
    + split; [|lia]. intros x. rewrite scan_directory_unfold.
      destruct (Z.gtb_spec (k + 1 + 1) m) as [_|]; [|lia].
      by intros ?%elem_of_nil.
Qed.

(** [X1] Every record that [get_all_subfolders_recursive] returns describes
    a directory that really lies at the recorded depth below the root, and
    its file count is the number of entries of that directory that are
    files (0 when the directory cannot be listed). *)
Theorem discovery_sound (fs : filesystem) (root_path : string) (max_depth : Z)
    (x : folder) :
  x ∈ (get_all_subfolders_recursive fs root_path max_depth).1 →
  at_depth fs root_path (folder_depth x) (folder_path x)
  ∧ isdir fs (folder_path x) = true
  ∧ folder_files x
    = match listdir fs (folder_path x) with
      | Some items =>
          Py.len (List.filter (λ item, isfile fs (join (folder_path x) item))
                              items)
      | None => 0
      end
  ∧ 0 <= folder_files x <= match listdir fs (folder_path x) with
                           | Some items => Py.len items
                           | None => 0
                           end.
Proof.
  unfold get_all_subfolders_recursive.
  pose proof (scan_directory_sound fs root_path max_depth (Z.to_nat max_depth)
                root_path 0 x (at_depth_root fs root_path)) as Hsound.
  change (0 + 1) with 1 in Hsound.
  destruct (scan_directory fs max_depth _ root_path 1) as [all_folders events].
  cbn [fst] in *. rewrite merge_sort_Permutation. intros Hx.
  destruct (Hsound Hx) as (Hat & Hdir & Hcount).
  assert (Hfiles : folder_files x
    = match listdir fs (folder_path x) with
      | Some items =>
          Py.len (List.filter (λ item, isfile fs (join (folder_path x) item))
                              items)
      | None => 0
      end).
  { rewrite Hcount. unfold count_files_in_folder.
    by destruct (listdir fs (folder_path x)). }
  split_and!; [exact Hat|exact Hdir|exact Hfiles| |];
    rewrite Hfiles; destruct (listdir fs (folder_path x)) as [items|];
    try lia.
  all: unfold Py.len; pose proof (List.filter_length_le
    (λ item, isfile fs (join (folder_path x) item)) items); lia.
Qed.

Lemma discovery_sound_witness :
  ("/import/A/B"%string, 2, 3)
    ∈ (get_all_subfolders_recursive scenario_fs "/import" 10).1
  ∧ at_depth scenario_fs "/import" 2 "/import/A/B".
Proof.
  assert (Hin : ("/import/A/B"%string, 2, 3)
                  ∈ (get_all_subfolders_recursive scenario_fs "/import" 10).1).
  { vm_compute. apply list_elem_of_In. cbn. auto. }
  split; [done|].
  exact (proj1 (discovery_sound scenario_fs "/import" 10 _ Hin)).
Defined.

(** [X2] Discovery is complete within the limit: every directory that lies
    between 1 and [max_depth] levels below the root, along a chain of
    directories that can be listed, has a record with that depth in the
    returned list. *)
Theorem discovery_complete (fs : filesystem) (root_path : string)
    (max_depth : Z) (k : Z) (p : string) :
  at_depth fs root_path k p → 1 <= k <= max_depth →
  ∃ x, x ∈ (get_all_subfolders_recursive fs root_path max_depth).1
       ∧ folder_path x = p ∧ folder_depth x = k.
Proof.
  intros Hat Hk.
  destruct (scan_directory_complete fs root_path max_depth k p Hat) as [_ Hrec].
  specialize (Hrec Hk).
  exists (p, k, (count_files_in_folder fs p).1). split; [|done].
  unfold get_all_subfolders_recursive.
  destruct (scan_directory fs max_depth _ root_path 1) as [all_folders events].
  cbn in *. by rewrite merge_sort_Permutation.
Qed.

Lemma discovery_complete_witness :
  at_depth scenario_fs "/import" (0 + 1 + 1) "/import/A/B"
  ∧ ∃ x, x ∈ (get_all_subfolders_recursive scenario_fs "/import" 2).1
         ∧ folder_path x = "/import/A/B"%string ∧ folder_depth x = 0 + 1 + 1.
Proof.
  assert (Hat : at_depth scenario_fs "/import" (0 + 1 + 1) "/import/A/B").
  { apply (at_depth_child scenario_fs "/import" (0 + 1) "/import/A"
             ["a1.mp4"; "B"; "a2.mp4"; "a3.mp4"; "a4.mp4"; "a5.mp4"]%string "B");
      [|done|apply list_elem_of_In; cbn; auto|done].
    apply (at_depth_child scenario_fs "/import" 0 "/import" ["A"%string] "A");
      [constructor|done|apply list_elem_of_In; cbn; auto|done]. }
  split; [done|].
  apply (discovery_complete scenario_fs "/import" 2 (0 + 1 + 1) "/import/A/B" Hat).
  lia.
Defined.

(** *** The subfolder cap *)

Lemma sorted_split_order (l : list folder) (n : nat) (a b : folder) :
  Sorted folder_le l → a ∈ take n l → b ∈ drop n l → ¬ sorts_before b a.
Proof.
  intros Hsorted Ha Hb Hba.
  apply (Sorted_StronglySorted folder_le) in Hsorted.
  rewrite <- (take_drop n l) in Hsorted.
  apply StronglySorted_app in Hsorted as (Hle & _ & _).
  apply (Hle a b Ha Hb). by apply sorts_before_key.
Qed.

(** [X3] The subfolder cap keeps a prefix of the list: no cap, or a cap of
    0, keeps everything; a positive cap [c] keeps the first [c] folders; a
    negative cap [c] drops the last [-c] folders.  Applied to the sorted
    list of discovery, no dropped folder sorts before a kept one. *)
Theorem subfolder_cap (cfg : config) (fs : filesystem) (l : list folder) :
  (MAX_SUBFOLDERS cfg = None ∨ MAX_SUBFOLDERS cfg = Some 0 →
   limit_subfolders cfg l = l)
  ∧ (∀ c, MAX_SUBFOLDERS cfg = Some c → 0 < c →
       limit_subfolders cfg l = take (Z.to_nat c) l)
  ∧ (∀ c, MAX_SUBFOLDERS cfg = Some c → c < 0 →
       limit_subfolders cfg l = take (length l - Z.to_nat (- c)) l)
  ∧ (let sorted :=
       (get_all_subfolders_recursive fs (IMPORT_FOLDER cfg) (MAX_DEPTH cfg)).1 in
     ∃ n, limit_subfolders cfg sorted = take n sorted
          ∧ ∀ a b, a ∈ take n sorted → b ∈ drop n sorted →
                   ¬ sorts_before b a).
Proof.
  split_and!.
  - unfold limit_subfolders. by intros [-> | ->].
  - intros c Hcap Hc. by apply limit_subfolders_capped.
  - intros c Hcap Hc. unfold limit_subfolders. rewrite Hcap.
    destruct (Z.eqb_spec c 0) as [|_]; [lia|]. cbn [negb andb].
    destruct (Z.gtb_spec (Py.len l) c) as [_|Hle]; [|unfold Py.len in Hle; lia].
    rewrite slice_to_take. unfold Py.clamp_index, Py.len.
    destruct (Z.ltb_spec c 0) as [_|]; [|lia]. f_equal. lia.
  - cbn zeta.
    destruct (limit_subfolders_sublist cfg
      (get_all_subfolders_recursive fs (IMPORT_FOLDER cfg) (MAX_DEPTH cfg)).1)
      as [n Hn].
    exists n. split; [done|]. intros a b. apply sorted_split_order.
    unfold get_all_subfolders_recursive.
    destruct (scan_directory fs _ _ _ 1) as [all_folders events]. cbn [fst].
    apply (Sorted_merge_sort _).
Qed.

Lemma subfolder_cap_witness :
  MAX_SUBFOLDERS (scenario_config true) = Some 1 ∧ 0 < 1
  ∧ limit_subfolders (scenario_config true)
      [("/import/A/B"%string, 2, 3); ("/import/A"%string, 1, 5)]
    = [("/import/A/B"%string, 2, 3)].
Proof.
  split; [done|]. split; [lia|].
  exact (proj1 (proj2 (subfolder_cap (scenario_config true) scenario_fs
           [("/import/A/B"%string, 2, 3); ("/import/A"%string, 1, 5)]))
           1 eq_refl ltac:(lia)).
Defined.

(** *** Catalog entries with a StashDB identifier *)

Lemma prefix_spec (needle hay : string) :
  String.prefix needle hay = true ↔ ∃ rest, hay = needle +:+ rest.
Proof.
  revert hay. induction needle as [|a needle IH]; intros hay.
  - destruct hay; cbn; (split; [intros _; by eexists|done]).
  - destruct hay as [|b hay]; cbn.
    + split; [done|]. by intros [rest ?].
    + destruct (ascii_dec a b) as [<-|Hne].
      * rewrite IH. split; intros [rest Hrest]; exists rest;
          [by rewrite Hrest|by injection Hrest].
      * split; [done|]. intros [rest [= ? _]]. done.
Qed.

Lemma str_in_spec (needle hay : string) :
  str_in needle hay = true ↔ ∃ before after, hay = before +:+ needle +:+ after.
Proof.
  induction hay as [|c hay IH].
  - cbn [str_in]. rewrite orb_false_r, prefix_spec. split.
    + intros [rest ->]. by exists ""%string, rest.
    + intros ([|? before] & after & Heq); [by exists after|done].
  - cbn [str_in]. rewrite orb_true_iff, prefix_spec, IH. split.
    + intros [[rest ->]|(before & after & ->)].
      * by exists ""%string, rest.
      * by exists (String c before), after.
    + intros ([|c' before] & after & Heq).
      * left. by exists after.
      * right. injection Heq as -> ->. by exists before, after.
Qed.

Lemma stashdb_scene_spec (scene : Scene.t) :
  match stashdb_scene scene with
  | Some entry =>
      has_stashdb_id scene = true
      ∧ StashDB.title entry = Scene.title scene
      ∧ str_in "stashdb.org" (StashDB.endpoint entry) = true
      ∧ Forall (λ name, name ≠ ""%string) (StashDB.performers entry)
  | None => has_stashdb_id scene = false
  end.
Proof.
  unfold stashdb_scene, has_stashdb_id.
  destruct (List.find _ (Scene.stash_ids scene)) as [id|] eqn:Hfind.
  - apply find_some in Hfind as [Hin Hmatch]. split_and!; [|done|done|].
    + apply existsb_exists. by exists id.
    + cbn. apply Forall_forall. intros name Hname.
      apply list_elem_of_omap in Hname as (o & _ & Ho).
      destruct o as [n|]; [|done].
      destruct (String.eqb_spec n ""); [done|]. by injection Ho as <-.
  - destruct (existsb _ _) eqn:Hex; [|done].
    apply existsb_exists in Hex as (id & Hin & Hmatch).
    by rewrite (find_none _ _ Hfind id Hin) in Hmatch.
Qed.

Lemma stashdb_scene_first (scene : Scene.t) pre id post :
  Scene.stash_ids scene = pre ++ id :: post →
  Forall (λ e, str_in "stashdb.org" (Scene.endpoint e) = false) pre →
  str_in "stashdb.org" (Scene.endpoint id) = true →
  ∃ entry, stashdb_scene scene = Some entry
           ∧ StashDB.stash_id entry = Scene.stash_id id
           ∧ StashDB.endpoint entry = Scene.endpoint id
           ∧ StashDB.title entry = Scene.title scene.
Proof.
  intros Hids Hpre Hid. unfold stashdb_scene. rewrite Hids.
  assert (Hfind : List.find (λ e, str_in "stashdb.org" (Scene.endpoint e))
                            (pre ++ id :: post) = Some id).
  { clear Hids. induction Hpre as [|e pre He _ IH]; cbn [app List.find];
      [by rewrite Hid|by rewrite He]. }
  rewrite Hfind. by eexists.
Qed.

(** [X4] [filter_stashdb_scenes] keeps one entry for every catalog scene
    that has an identifier whose endpoint contains "stashdb.org", in catalog
    order, and drops the other scenes.  The entry carries the first such
    identifier of the scene, also when identifiers of other endpoints come
    before it, and the performers without a name are left out. *)
Theorem stashdb_filter (scenes : list Scene.t) :
  let out := filter_stashdb_scenes scenes in
  StashDB.title <$> out = Scene.title <$> List.filter has_stashdb_id scenes
  ∧ Py.len out <= Py.len scenes
  ∧ Forall (λ entry,
      (∃ before after,
         StashDB.endpoint entry = before +:+ "stashdb.org" +:+ after)
      ∧ Forall (λ name, name ≠ ""%string) (StashDB.performers entry)) out
  ∧ (∀ scene pre id post,
       scene ∈ scenes →
       Scene.stash_ids scene = pre ++ id :: post →
       Forall (λ e, str_in "stashdb.org" (Scene.endpoint e) = false) pre →
       str_in "stashdb.org" (Scene.endpoint id) = true →
       ∃ entry, entry ∈ out
                ∧ StashDB.stash_id entry = Scene.stash_id id
                ∧ StashDB.title entry = Scene.title scene).
Proof.
  cbn zeta. unfold filter_stashdb_scenes. split_and!.
  - induction scenes as [|scene scenes IH]; [done|]. cbn.
    pose proof (stashdb_scene_spec scene) as Hspec.
    destruct (stashdb_scene scene) as [entry|].
    + destruct Hspec as (-> & Htitle & _). cbn. by rewrite Htitle, IH.
    + by rewrite Hspec.
  - unfold Py.len. apply inj_le.
    induction scenes as [|scene scenes IH]; [done|]. cbn.
    destruct (stashdb_scene scene); cbn; lia.
  - apply Forall_forall. intros entry Hentry.
    apply list_elem_of_omap in Hentry as (scene & _ & Hscene).
    pose proof (stashdb_scene_spec scene) as Hspec. rewrite Hscene in Hspec.
    destruct Hspec as (_ & _ & Hendpoint & Hnames).
    split; [by apply str_in_spec|done].
  - intros scene pre id post Hin Hids Hpre Hid.
    destruct (stashdb_scene_first scene pre id post Hids Hpre Hid)
      as (entry & Hentry & Hsid & _ & Htitle).
    exists entry. split; [|done].
    apply list_elem_of_omap. by exists scene.
Qed.

Lemma stashdb_filter_witness :
  two_ids_scene ∈ [two_ids_scene]
  ∧ ∃ entry, entry ∈ filter_stashdb_scenes [two_ids_scene]
             ∧ StashDB.stash_id entry = "sdb-1"%string
             ∧ StashDB.title entry = "two ids"%string.
Proof.
  assert (Hin : two_ids_scene ∈ [two_ids_scene]) by (by constructor).
  split; [done|].
  refine (proj2 (proj2 (proj2 (stashdb_filter [two_ids_scene])))
            two_ids_scene
            [{| Scene.endpoint := "https://theporndb.net/graphql";
                Scene.stash_id := "tpdb-1" |}]
            {| Scene.endpoint := "https://stashdb.org/graphql";
               Scene.stash_id := "sdb-1" |}
            [] Hin eq_refl _ eq_refl).
  by repeat constructor.
Defined.

(** *** Accounting of a catalog batch *)

Section batch_accounting.
Context (cfg : config) (srv : remote) (root_folder : option string).

Lemma process_scene_step scene added failed cur st :
  ∃ added1 failed1 cur1 st1 evs,
    process_scene cfg srv (added, failed, cur, st) root_folder scene
      = (added1, failed1, cur1, st1)
    ∧ log st1 = log st ++ evs
    ∧ (evs = []
       ∨ (DRY_RUN cfg = false
          ∧ evs = [registration_of cfg root_folder scene]))
    ∧ ((added1 = added + 1 ∧ failed1 = failed
        ∧ StashDB.stash_id scene ∈ cur1)
       ∨ (added1 = added ∧ failed1 = failed + 1 ∧ cur1 = cur
          ∧ evs = [registration_of cfg root_folder scene]))
    ∧ 0 <= scenes_already_exist (stash st1) - scenes_already_exist (stash st)
        <= added1 - added
    ∧ cur ⊆ cur1 ∧ cur1 ⊆ {[StashDB.stash_id scene]} ∪ cur
    ∧ only_already_exist_changed st st1.
Proof.
  assert (Hself : StashDB.stash_id scene ∈ {[StashDB.stash_id scene]} ∪ cur).
  { apply elem_of_union. left. by apply elem_of_singleton. }
  assert (Hgrow : cur ⊆ {[StashDB.stash_id scene]} ∪ cur)
    by apply union_subseteq_r.
  unfold process_scene. case_bool_decide as Hin.
  - eexists _, _, _, _, []. rewrite app_nil_r.
    split_and!; try done; try (by left); cbn; lia.
  - destruct (DRY_RUN cfg) eqn:Hdry.
    + rewrite add_scene_dry_run by done.
      eexists _, _, _, _, []. rewrite app_nil_r.
      split_and!; try done; try (by left); cbn; lia.
    + rewrite add_scene_live by done. cbn zeta.
      fold (registration_of cfg root_folder scene).
      set (reply := add_reply_to srv (log st) _).
      assert (Hrep : reported_existing reply = true → accepted reply = true).
      { unfold accepted. by destruct reply. }
      destruct (reported_existing reply) eqn:Hre;
        [rewrite (Hrep eq_refl)|destruct (accepted reply) eqn:Hacc];
        eexists _, _, _, _, [registration_of cfg root_folder scene];
        (split_and!; try done; try (by left); try (by right); cbn; lia).
Qed.
Lemma process_scenes_accounting batch :
  ∀ added failed cur st,
  ∃ added' failed' cur' st' evs,
    foldl (λ acc scene, process_scene cfg srv acc root_folder scene)
          (added, failed, cur, st) batch = (added', failed', cur', st')
    ∧ log st' = log st ++ evs
    ∧ Forall (λ e, ∃ scene, scene ∈ batch
                            ∧ e = registration_of cfg root_folder scene) evs
    ∧ (DRY_RUN cfg = true → evs = [])
    ∧ added' + failed' = added + failed + Py.len batch
    ∧ added <= added' ∧ failed <= failed'
    ∧ failed' - failed <= Py.len evs <= Py.len batch
    ∧ 0 <= scenes_already_exist (stash st') - scenes_already_exist (stash st)
        <= added' - added
    ∧ cur ⊆ cur'
    ∧ cur' ⊆ list_to_set (StashDB.stash_id <$> batch) ∪ cur
    ∧ (failed' = failed → ∀ scene, scene ∈ batch → StashDB.stash_id scene ∈ cur')
    ∧ only_already_exist_changed st st'.
Proof.
  induction batch as [|scene batch IH]; intros added failed cur st.
  - eexists _, _, _, _, []. rewrite app_nil_r. unfold Py.len. cbn.
    split_and!; try done; try lia.
    + apply union_subseteq_r.
    + by intros _ s ?%elem_of_nil.
  - cbn [foldl].
    destruct (process_scene_step scene added failed cur st)
      as (a1 & f1 & c1 & s1 & e1 & -> & Hlog1 & Hev1 & Hcount1 & Hex1 & Hsub1
          & Hsup1 & Hkeep1).
    destruct (IH a1 f1 c1 s1)
      as (a2 & f2 & c2 & s2 & e2 & -> & Hlog2 & Hev2 & Hdry2 & Hsum2 & Ha2 & Hf2
          & Hreq2 & Hex2 & Hsub2 & Hsup2 & Hall2 & Hkeep2).
    exists a2, f2, c2, s2, (e1 ++ e2).
    assert (Hlen1 : Py.len e1 <= 1 ∧ f1 - failed <= Py.len e1
                    ∧ a1 + f1 = added + failed + 1
                    ∧ added <= a1 ∧ failed <= f1).
    { unfold Py.len.
      destruct Hev1 as [->|[_ ->]], Hcount1 as [(-> & -> & _)|(-> & -> & _ & He)];
        cbn; try lia. done. }
    destruct Hlen1 as (Hl1 & Hl2 & Hl3 & Hl4 & Hl5).
    assert (Hlen : Py.len (e1 ++ e2) = Py.len e1 + Py.len e2)
      by (unfold Py.len; rewrite length_app; lia).
    assert (Hbatch : Py.len (scene :: batch) = 1 + Py.len batch)
      by (unfold Py.len; cbn [length]; lia).
    split_and!.
    + done.
    + by rewrite Hlog2, Hlog1, app_assoc.
    + apply Forall_app. split.
      * destruct Hev1 as [->|[_ ->]]; [done|].
        repeat constructor. exists scene. split; [by constructor|done].
      * eapply Forall_impl; [exact Hev2|].
        intros e (s & Hs & ->). exists s. split; [by constructor|done].
    + intros Hdry. rewrite (Hdry2 Hdry).
      destruct Hev1 as [->|[Hlive _]]; [done|congruence].
    + lia.
    + lia.
    + lia.
    + lia.
    + lia.
    + lia.
    + destruct Hkeep1 as (_ & _ & _ & _ & _ & _).
      destruct Hex1, Hex2. lia.
    + by etrans.
    + etrans; [exact Hsup2|]. cbn [fmap list_fmap list_to_set].
      intros x [Hx|Hx]%elem_of_union.
      * apply elem_of_union. left. apply elem_of_union. by right.
      * apply Hsup1 in Hx. apply elem_of_union in Hx as [Hx|Hx].
        -- apply elem_of_union. left. apply elem_of_union. by left.
        -- apply elem_of_union. by right.
    + intros Hsame s Hs. assert (f1 = failed ∧ f2 = f1) as [-> Hf] by lia.
      apply elem_of_cons in Hs as [->|Hs]; [|by apply Hall2].
      apply Hsub2. destruct Hcount1 as [(_ & _ & ?)|(_ & ? & _)]; [done|lia].
    + destruct Hkeep1 as (? & ? & ? & ? & ? & ?),
               Hkeep2 as (? & ? & ? & ? & ? & ?).
      unfold only_already_exist_changed. split_and!; congruence.
Qed.
End batch_accounting.

(** [X5] A catalog batch counts every entry exactly once, as added or as
    failed; the entries counted as already existing are among the added
    ones; no other counter changes.  The set of registered ids only grows,
    and only by ids of the batch, and when nothing failed it holds the id
    of every entry of the batch. *)
Theorem stash_batch_accounting (cfg : config) (srv : remote)
    (batch : list StashDB.t) (existing : gset string)
    (root_folder : option string) (st : state) :
  let '(added, failed, existing', st') :=
    process_stash_batch cfg srv batch existing root_folder st in
  added + failed = Py.len batch
  ∧ 0 <= added ∧ 0 <= failed
  ∧ 0 <= scenes_already_exist (stash st') - scenes_already_exist (stash st)
      <= added
  ∧ existing ⊆ existing'
  ∧ existing' ⊆ list_to_set (StashDB.stash_id <$> batch) ∪ existing
  ∧ (failed = 0 → ∀ scene, scene ∈ batch → StashDB.stash_id scene ∈ existing')
  ∧ only_already_exist_changed st st'.
Proof.
  unfold process_stash_batch.
  destruct (process_scenes_accounting cfg srv root_folder batch 0 0 existing st)
    as (a & f & c & s & e & -> & _ & _ & _ & Hsum & Ha & Hf & _ & Hex & Hsub
        & Hsup & Hall & Hkeep).
  split_and!; try done; lia.
Qed.

Lemma stash_batch_accounting_witness :
  let '(added, failed, existing', st') :=
    process_stash_batch (scenario_config false) short_pages
      [stashdb_entry "one" "id-1"; stashdb_entry "two" "id-2"] ∅
      (Some "/data"%string) initial_state in
  failed = 0
  ∧ "id-2"%string ∈ existing'.
Proof.
  pose proof (stash_batch_accounting (scenario_config false) short_pages
    [stashdb_entry "one" "id-1"; stashdb_entry "two" "id-2"] ∅
    (Some "/data"%string) initial_state) as H.
  destruct (process_stash_batch _ _ _ _ _ _) as [[[added failed] existing'] st']
    eqn:Hrun.
  assert (Hfailed : failed = 0) by (vm_compute in Hrun; congruence).
  split; [done|].
  destruct H as (_ & _ & _ & _ & _ & _ & Hall & _).
  apply (Hall Hfailed (stashdb_entry "two" "id-2")).
  apply elem_of_cons. right. by constructor.
Defined.

(** [X6] The requests of a catalog batch are registrations of entries of
    the batch, in batch order, each with the configured quality profile,
    the chosen root folder, [monitored] set and the StashDB id as foreign
    id; there is at most one per entry, none in a dry run, and an entry is
    counted as failed only after such a request. *)
Theorem stash_batch_requests (cfg : config) (srv : remote)
    (batch : list StashDB.t) (existing : gset string)
    (root_folder : option string) (st : state) :
  let '(added, failed, existing', st') :=
    process_stash_batch cfg srv batch existing root_folder st in
  ∃ evs, log st' = log st ++ evs
    ∧ Forall (λ e, ∃ scene data,
        scene ∈ batch ∧ e = EPostMovie data
        ∧ add_stashId data = StashDB.stash_id scene
        ∧ add_foreignId data = StashDB.stash_id scene
        ∧ add_title data = StashDB.title scene
        ∧ add_qualityProfileId data = QUALITY_PROFILE_ID cfg
        ∧ add_rootFolderPath data = root_folder
        ∧ add_monitored data = true) evs
    ∧ failed <= Py.len evs <= Py.len batch
    ∧ (DRY_RUN cfg = true → evs = [] ∧ failed = 0).
Proof.
  unfold process_stash_batch.
  destruct (process_scenes_accounting cfg srv root_folder batch 0 0 existing st)
    as (a & f & c & s & e & -> & Hlog & Hev & Hdry & _ & _ & Hf & Hreq & _).
  exists e. split_and!; [done| |lia|lia|].
  - eapply Forall_impl; [exact Hev|].
    intros ev (scene & Hscene & ->). by eexists scene, _.
  - intros H. specialize (Hdry H). subst e. unfold Py.len in Hreq. cbn in Hreq.
    split; [done|lia].
Qed.

Lemma stash_batch_requests_witness :
  DRY_RUN (scenario_config true) = true
  ∧ log (process_stash_batch (scenario_config true) refusing_remote
           [stashdb_entry "one" "id-1"] ∅ None initial_state).2 = [].
Proof.
  split; [done|].
  pose proof (stash_batch_requests (scenario_config true) refusing_remote
    [stashdb_entry "one" "id-1"] ∅ None initial_state) as H.
  destruct (process_stash_batch _ _ _ _ _ _) as [[[added failed] existing'] st'].
  destruct H as (evs & Hlog & _ & _ & Hdry).
  destruct (Hdry eq_refl) as [-> _]. exact Hlog.
Defined.

(** *** Summary of a catalog sync *)

Lemma file_batches_concat {A} (l : list A) (size : Z) (batches : list (list A)) :
  0 < size → file_batches l size = Some batches →
  concat batches = l ∧ Py.len batches = (Py.len l + size - 1) / size.
Proof.
  intros Hs Hrun. rewrite file_batches_eq in Hrun by done.
  injection Hrun as <-.
  assert (Hdiv : 0 <= (Py.len l + size - 1) / size).
  { apply Z.div_pos; unfold Py.len; lia. }
  split.
  - rewrite concat_windows. cbn. rewrite drop_0. apply take_ge.
    assert (Py.len l + size - 1 < size * ((Py.len l + size - 1) / size + 1)).
    { rewrite Z.mul_add_distr_l, Z.mul_1_r.
      pose proof (Z.mod_pos_bound (Py.len l + size - 1) size Hs).
      pose proof (Z.div_mod (Py.len l + size - 1) size). lia. }
    unfold Py.len in *. nia.
  - unfold Py.len at 1. rewrite length_fmap, length_seq. lia.
Qed.

Lemma filter_stashdb_scenes_length (scenes : list Scene.t) :
  Py.len (filter_stashdb_scenes scenes) <= Py.len scenes.
Proof.
  unfold Py.len, filter_stashdb_scenes. apply inj_le.
  induction scenes as [|scene scenes IH]; [done|]. cbn.
  destruct (stashdb_scene scene); cbn; lia.
Qed.

Lemma process_stash_batches_accounting (cfg : config) (srv : remote)
    (root_folder : option string) (batches : list (list StashDB.t)) :
  ∀ cur st,
  let st' := (process_stash_batches cfg srv batches cur root_folder st).2 in
  scenes_added (stash st') + scenes_failed (stash st')
    = scenes_added (stash st) + scenes_failed (stash st)
      + Py.len (concat batches)
  ∧ scenes_added (stash st) <= scenes_added (stash st')
  ∧ scenes_failed (stash st) <= scenes_failed (stash st')
  ∧ scenes_already_exist (stash st) <= scenes_already_exist (stash st')
  ∧ stash_batches_processed (stash st')
    = stash_batches_processed (stash st) + Py.len batches
  ∧ scenes_found (stash st') = scenes_found (stash st)
  ∧ scenes_with_stashdb (stash st') = scenes_with_stashdb (stash st)
  ∧ files st' = files st
  ∧ (DRY_RUN cfg = true → scenes_failed (stash st') = scenes_failed (stash st)).
Proof.
  unfold process_stash_batches, process_stash_batch.
  induction batches as [|batch batches IH]; intros cur st; cbn zeta.
  - unfold Py.len. cbn. split_and!; try done; lia.
  - cbn [foldl].
    destruct (process_scenes_accounting cfg srv root_folder batch 0 0 cur st)
      as (a & f & c & s & e & -> & _ & _ & Hdry & Hsum & Ha & Hf & Hreq & Hex & _
          & _ & _ & Hkeep).
    specialize (IH c (count_stash_batch a f s)). cbn zeta in IH.
    destruct (foldl _ (c, count_stash_batch a f s) batches) as [cur' st'].
    cbn [snd] in *.
    destruct IH as (I1 & I2 & I3 & I4 & I5 & I6 & I7 & I8 & I9).
    destruct Hkeep as (K1 & K2 & K3 & K4 & K5 & K6).
    assert (Hlen : Py.len (concat (batch :: batches))
                   = Py.len batch + Py.len (concat batches)).
    { unfold Py.len. cbn [concat]. rewrite length_app. lia. }
    assert (Hlen' : Py.len (batch :: batches) = 1 + Py.len batches).
    { unfold Py.len. cbn [length]. lia. }
    cbn in I1, I2, I3, I4, I5, I6, I7, I8, I9.
    split_and!; try congruence; try lia.
    intros Hd. specialize (Hdry Hd). subst e. unfold Py.len in Hreq.
    cbn in Hreq. specialize (I9 Hd). lia.
Qed.

(** [X7] The summary of a catalog sync that ran with a positive batch size
    and returned [True] is consistent.  When the catalog was empty only
    [scenes_found] is written, as 0.  Otherwise the number of entries with
    a StashDB id is at most the number of scenes found, [scenes_added] plus
    [scenes_failed] grows by exactly that number, the number of batches
    grows by that number divided by the batch size, rounded up, and the
    counters of the file import are untouched. *)
Theorem stash_sync_summary (cfg : config) (srv : remote) (fuel : nat)
    (st st' : state) :
  run_stash_sync cfg srv fuel st = (Returned true, st') →
  0 < STASH_BATCH_SIZE cfg →
  files st' = files st
  ∧ scenes_added (stash st) <= scenes_added (stash st')
  ∧ scenes_failed (stash st) <= scenes_failed (stash st')
  ∧ scenes_already_exist (stash st) <= scenes_already_exist (stash st')
  ∧ ((scenes_found (stash st') = 0
      ∧ scenes_with_stashdb (stash st') = scenes_with_stashdb (stash st)
      ∧ scenes_added (stash st') = scenes_added (stash st)
      ∧ scenes_failed (stash st') = scenes_failed (stash st)
      ∧ stash_batches_processed (stash st') = stash_batches_processed (stash st))
     ∨ (0 < scenes_found (stash st')
        ∧ 0 <= scenes_with_stashdb (stash st') <= scenes_found (stash st')
        ∧ scenes_added (stash st') + scenes_failed (stash st')
          = scenes_added (stash st) + scenes_failed (stash st)
            + scenes_with_stashdb (stash st')
        ∧ stash_batches_processed (stash st')
          = stash_batches_processed (stash st)
            + (scenes_with_stashdb (stash st') + STASH_BATCH_SIZE cfg - 1)
              / STASH_BATCH_SIZE cfg)).
Proof.
  intros Hrun Hsize. unfold run_stash_sync, get_stash_scenes in Hrun.
  assert (Hroot : stash (get_root_folders srv st).2 = stash st
                  ∧ files (get_root_folders srv st).2 = files st).
  { unfold get_root_folders. by destruct (rootfolder_reply srv (log st)). }
  destruct (get_root_folders srv st) as [root_folders st1].
  destruct root_folders as [|first others]; [done|].
  assert (Hmovies : stash (get_whisparr_movies srv st1).2 = stash st1
                    ∧ files (get_whisparr_movies srv st1).2 = files st1).
  { unfold get_whisparr_movies. by destruct (movie_reply srv (log st1)). }
  destruct (get_whisparr_movies srv st1) as [movies st2].
  assert (Hfetch : ∀ n page all s,
            stash (fetch_scenes srv n page all s).2 = stash s
            ∧ files (fetch_scenes srv n page all s).2 = files s).
  { induction n as [|n IH]; intros page all s; cbn [fetch_scenes]; [done|].
    destruct (graphql_reply_to srv (log s) page per_page)
      as [| |[|scene scenes] total_count]; try done.
    destruct (_ >=? _); [done|].
    exact (IH _ _ (emit (EPostGraphql page) s)). }
  specialize (Hfetch fuel 1 [] st2).
  destruct (fetch_scenes srv fuel 1 [] st2) as [[all_scenes|] st3]; [|done].
  cbn [fst snd] in *.
  destruct Hroot as [R1 R2], Hmovies as [M1 M2], Hfetch as [F1 F2].
  destruct all_scenes as [|scene all_scenes].
  { injection Hrun as <-. cbn. rewrite F1, M1, R1, F2, M2, R2.
    split_and!; try done; try lia. left. by split_and!. }
  pose proof (filter_stashdb_scenes_length (scene :: all_scenes)) as Hle.
  assert (Hfound : 0 < Py.len (scene :: all_scenes))
    by (unfold Py.len; cbn [length]; lia).
  destruct (filter_stashdb_scenes (scene :: all_scenes)) as [|s stashdb_scenes]
    eqn:Hfilter.
  { injection Hrun as <-. cbn [stash files set_scenes_with_stashdb
      set_scenes_found update_stash scenes_found scenes_with_stashdb
      scenes_added scenes_failed scenes_already_exist stash_batches_processed].
    rewrite F1, M1, R1, F2, M2, R2.
    split_and!; try done; try lia. right.
    assert (Hnil : Py.len (@nil StashDB.t) = 0) by done. rewrite !Hnil.
    rewrite Z.div_small by lia. split_and!; try done; lia. }
  destruct (total_batches _ _) as [total|]; [|done].
  destruct (file_batches (s :: stashdb_scenes) (STASH_BATCH_SIZE cfg))
    as [batches|] eqn:Hbatches; [|done].
  destruct (file_batches_concat _ _ _ Hsize Hbatches) as [Hconcat Hcount].
  match type of Hrun with
  | context [process_stash_batches cfg srv batches ?cur ?root ?s0] =>
      pose proof (process_stash_batches_accounting cfg srv root batches cur s0)
        as Hacc;
      destruct (process_stash_batches cfg srv batches cur root s0) as [cur' st5]
  end.
  injection Hrun as <-. cbn zeta in Hacc. cbn [snd] in Hacc.
  destruct Hacc as (A1 & A2 & A3 & A4 & A5 & A6 & A7 & A8 & _).
  cbn [stash files set_scenes_with_stashdb set_scenes_found update_stash
       scenes_found scenes_with_stashdb scenes_added scenes_failed
       scenes_already_exist stash_batches_processed] in A1, A2, A3, A4, A5, A6,
       A7, A8.
  rewrite F1, M1, R1 in A1, A2, A3, A4, A5. rewrite F2, M2, R2 in A8.
  rewrite Hconcat in A1. rewrite Hcount in A5.
  split_and!; try done. right. rewrite A6, A7.
  assert (0 <= Py.len (s :: stashdb_scenes)) by (unfold Py.len; lia).
  split_and!; try done; lia.
Qed.

Lemma stash_sync_summary_witness :
  0 < STASH_BATCH_SIZE (scenario_config false)
  ∧ files (run_stash_sync (scenario_config false) scenario_remote 5
             initial_state).2 = files initial_state.
Proof.
  split; [done|].
  assert (Hrun : run_stash_sync (scenario_config false) scenario_remote 5
                   initial_state
                 = (Returned true,
                    (run_stash_sync (scenario_config false) scenario_remote 5
                       initial_state).2)) by (by vm_compute).
  exact (proj1 (stash_sync_summary (scenario_config false) scenario_remote 5
                  initial_state _ Hrun eq_refl)).
Defined.

(** *** How a catalog sync ends *)

Lemma file_batches_None {A} (l : list A) (size : Z) :
  file_batches l size = None ↔ size = 0.
Proof.
  unfold file_batches, Py.range.
  destruct (Z.eqb_spec size 0); split; done.
Qed.

Lemma file_batches_negative {A} (l : list A) (size : Z) :
  size < 0 → file_batches l size = Some [].
Proof.
  intros Hs. unfold file_batches, Py.range, Py.range_len, Py.len.
  destruct (Z.eqb_spec size 0); [lia|].
  destruct (Z.ltb_spec 0 size); [lia|].
  destruct (Z.ltb_spec (Z.of_nat (length l)) 0); [lia|]. done.
Qed.



(** *** Submission of matched files *)

Lemma bucket_matched_iff (file : File.t) :
  bucket_of file = Matched ↔ truthy (resolve_scene_id file) = true.
Proof.
  unfold bucket_of. destruct (truthy (resolve_scene_id file)); [done|].
  by destruct (present _ || present _).
Qed.

Lemma matched_files_bucket (files : list File.t) :
  Forall (λ f, bucket_of f = Matched) (filter_matched_files files).1.1.
Proof.
  pose proof (filter_matched_files_buckets files) as H.
  destruct (filter_matched_files files) as [[m p] u]. destruct H as (-> & _).
  cbn. apply Forall_forall. by intros f [? _]%list_elem_of_filter.
Qed.

Lemma format_matched (mode : string) (batch : list File.t) :
  Forall (λ f, bucket_of f = Matched) batch →
  Formatted.path <$> omap (format_file mode) batch = File.path <$> batch
  ∧ Formatted.movieId <$> omap (format_file mode) batch
    = resolve_scene_id <$> batch
  ∧ Forall (λ f, Formatted.importMode f = mode) (omap (format_file mode) batch).
Proof.
  induction 1 as [|file batch Hfile _ (IH1 & IH2 & IH3)]; [done|].
  apply bucket_matched_iff in Hfile.
  assert (Hf : ∃ x, format_file mode file = Some x
                    ∧ Formatted.path x = File.path file
                    ∧ Formatted.movieId x = resolve_scene_id file
                    ∧ Formatted.importMode x = mode).
  { unfold format_file, resolve_entity_id. fold (resolve_scene_id file).
    rewrite Hfile. by eexists. }
  destruct Hf as (x & Hx & Hpath & Hid & Hmode).
  cbn [omap list_omap]. rewrite Hx. cbn [fmap list_fmap].
  fold (omap (format_file mode) batch).
  change (list_fmap _ _ ?f ?l) with (f <$> l).
  rewrite IH1, IH2, Hpath, Hid. split_and!; [done..|]. by constructor.
Qed.

Lemma format_unmatched (mode : string) (batch : list File.t) :
  Forall (λ f, bucket_of f ≠ Matched) batch →
  omap (format_file mode) batch = [].
Proof.
  induction 1 as [|file batch Hfile _ IH]; [done|].
  assert (Hf : format_file mode file = None).
  { unfold format_file, resolve_entity_id. fold (resolve_scene_id file).
    destruct (truthy (resolve_scene_id file)) eqn:Ht; [|done].
    by apply bucket_matched_iff in Ht. }
  cbn [omap list_omap]. by rewrite Hf.
Qed.

(** [X9] The files that [filter_matched_files] returns as matched all pass
    the id check of [import_file_batch]: a live submission of a non-empty
    batch of matched files posts one ManualImport command that lists every
    file of the batch, in order, with its path, its resolved id as
    [movieId] and the configured import mode, and succeeds exactly when the
    reply carries a truthy command id.  A batch without any valid file is
    refused without a request. *)
Theorem matched_batch_submitted (cfg : config) (srv : remote)
    (batch : list File.t) (st : state) :
  DRY_RUN cfg = false →
  (∀ files, Forall (λ f, bucket_of f = Matched) (filter_matched_files files).1.1)
  ∧ (batch ≠ [] → Forall (λ f, bucket_of f = Matched) batch →
     ∃ data,
       (import_file_batch cfg srv batch st).2 = emit (EPostCommand data) st
       ∧ cmd_name data = "ManualImport"%string
       ∧ cmd_importMode data = IMPORT_MODE cfg
       ∧ Formatted.path <$> cmd_files data = File.path <$> batch
       ∧ Formatted.movieId <$> cmd_files data = resolve_scene_id <$> batch
       ∧ Forall (λ f, Formatted.importMode f = IMPORT_MODE cfg) (cmd_files data)
       ∧ (import_file_batch cfg srv batch st).1
         = match command_reply_to srv (log st) data with
           | CmdOk id => truthy id
           | CmdFailed => false
           end)
  ∧ (Forall (λ f, bucket_of f ≠ Matched) batch →
     import_file_batch cfg srv batch st = (false, st)).
Proof.
  intros Hlive. split_and!.
  - apply matched_files_bucket.
  - intros Hne Hall.
    destruct (format_matched (IMPORT_MODE cfg) batch Hall) as (Hp & Hid & Hmode).
    unfold import_file_batch. rewrite Hlive.
    destruct (omap (format_file (IMPORT_MODE cfg)) batch) as [|f formatted]
      eqn:Hfmt.
    { destruct batch; [done|]. by cbn in Hp. }
    exists (make_command_data cfg (f :: formatted)).
    destruct (command_reply_to srv (log st) _); by split_and!.
  - intros Hnone. unfold import_file_batch.
    by rewrite Hlive, format_unmatched.
Qed.

Lemma matched_batch_submitted_witness :
  DRY_RUN (scenario_config false) = false
  ∧ import_file_batch (scenario_config false) scenario_remote
      [descriptor "/import/4.mp4" None None] initial_state
    = (false, initial_state).
Proof.
  split; [done|].
  apply (matched_batch_submitted (scenario_config false) scenario_remote
           [descriptor "/import/4.mp4" None None] initial_state eq_refl).
  repeat constructor. by vm_compute.
Defined.

(** *** Accounting of a folder *)

Lemma import_batches_count (cfg : config) (srv : remote)
    (batches : list (list File.t)) (st : state) :
  let '(n, st') := import_batches cfg srv batches st in
  stash st' = stash st ∧ files st' = files st
  ∧ ∃ evs, log st' = log st ++ evs
      ∧ Forall (λ e, is_post_command e = true) evs
      ∧ Py.len evs <= Py.len batches
      ∧ 0 <= n <= Py.len batches
      ∧ (DRY_RUN cfg = true → evs = [] ∧ n = Py.len batches)
      ∧ (DRY_RUN cfg = false → n <= Py.len evs).
Proof.
  unfold import_batches.
  assert (Hgen : ∀ n0 s,
    let '(n, st') :=
      foldl (λ '(successful_batches, st) batch,
               let '(success, st) := import_file_batch cfg srv batch st in
               (if success then successful_batches + 1 else successful_batches,
                st)) (n0, s) batches in
    stash st' = stash s ∧ files st' = files s
    ∧ ∃ evs, log st' = log s ++ evs
        ∧ Forall (λ e, is_post_command e = true) evs
        ∧ Py.len evs <= Py.len batches
        ∧ n0 <= n <= n0 + Py.len batches
        ∧ (DRY_RUN cfg = true → evs = [] ∧ n = n0 + Py.len batches)
        ∧ (DRY_RUN cfg = false → n - n0 <= Py.len evs)).
  { induction batches as [|batch batches IH]; intros n0 s; cbn [foldl].
    - split_and!; [done..|]. exists []. rewrite app_nil_r. unfold Py.len. cbn.
      split_and!; try done; try lia. intros _. split; [done|lia].
    - assert (Hstep : ∃ success s1 e1,
        import_file_batch cfg srv batch s = (success, s1)
        ∧ stash s1 = stash s ∧ files s1 = files s
        ∧ log s1 = log s ++ e1
        ∧ Forall (λ e, is_post_command e = true) e1
        ∧ Py.len e1 <= 1
        ∧ (DRY_RUN cfg = true → e1 = [] ∧ success = true)
        ∧ (DRY_RUN cfg = false → success = true → Py.len e1 = 1)).
      { unfold import_file_batch. destruct (DRY_RUN cfg).
        - eexists _, _, []. rewrite app_nil_r. by split_and!.
        - destruct (omap _ batch) as [|f formatted].
          + eexists _, _, []. rewrite app_nil_r. by split_and!.
          + destruct (command_reply_to srv (log s) _);
              eexists _, _, [_]; split_and!; try done; by repeat constructor. }
      destruct Hstep as (success & s1 & e1 & -> & Hs1 & Hf1 & Hl1 & He1 & Hn1
                         & Hd1 & Hv1).
      specialize (IH (if success then n0 + 1 else n0) s1).
      destruct (foldl _ (_, s1) batches) as [n st'].
      destruct IH as (Hs2 & Hf2 & e2 & Hl2 & He2 & Hn2 & Hb2 & Hd2 & Hv2).
      split_and!; [congruence..|]. exists (e1 ++ e2).
      assert (Hlen : Py.len (e1 ++ e2) = Py.len e1 + Py.len e2)
        by (unfold Py.len; rewrite length_app; lia).
      assert (Hlen' : Py.len (batch :: batches) = 1 + Py.len batches)
        by (unfold Py.len; cbn [length]; lia).
      assert (0 <= Py.len e1) by (unfold Py.len; lia).
      split_and!.
      + by rewrite Hl2, Hl1, app_assoc.
      + by apply Forall_app.
      + lia.
      + destruct success; lia.
      + destruct success; lia.
      + intros Hd. destruct (Hd1 Hd) as [-> ->], (Hd2 Hd) as [-> ->].
        split; [done|lia].
      + intros Hd. specialize (Hv1 Hd). specialize (Hv2 Hd).
        destruct success; [rewrite Hlen, Hv1 by done|]; lia. }
  specialize (Hgen 0 st). destruct (foldl _ (0, st) batches) as [n st'].
  destruct Hgen as (? & ? & evs & ? & ? & ? & ? & Hd & Hv).
  split_and!; [done..|]. exists evs. split_and!; try done; try lia.
  all: intros Hmode;
    first [destruct (Hd Hmode); split; [done|lia]|specialize (Hv Hmode); lia].
Qed.

Lemma process_file_folder_accounting (cfg : config) (srv : remote)
    (folder : string) (st : state) :
  let seen := (get_files_to_import srv folder st).1 in
  let matched := (filter_matched_files seen).1.1 in
  let '(r, st') := process_file_folder cfg srv folder st in
  stash st' = stash st ∧ files st' = files st
  ∧ (FILE_BATCH_SIZE cfg = 0 → matched ≠ [] → r = Raised)
  ∧ ∃ evs, log st' = log st ++ EGetManualImport folder :: evs
      ∧ Forall (λ e, is_post_command e = true) evs
      ∧ (DRY_RUN cfg = true ∨ FILE_BATCH_SIZE cfg < 0 → evs = [])
      ∧ match r with
        | Returned (imported, unmatched, batches) =>
            imported = Py.len matched
            ∧ imported + unmatched = Py.len seen
            ∧ 0 <= unmatched
            ∧ 0 <= batches
            ∧ (0 < FILE_BATCH_SIZE cfg →
               batches <= (imported + FILE_BATCH_SIZE cfg - 1)
                          / FILE_BATCH_SIZE cfg)
            ∧ (FILE_BATCH_SIZE cfg < 0 → batches = 0)
            ∧ (DRY_RUN cfg = false → batches <= Py.len evs)
        | Raised => FILE_BATCH_SIZE cfg = 0 ∧ matched ≠ []
        | OutOfFuel => False
        end.
Proof.
  cbn zeta. unfold process_file_folder.
  assert (Hget : (get_files_to_import srv folder st).2
                 = emit (EGetManualImport folder) st).
  { unfold get_files_to_import. by destruct (manualimport_reply srv _ _). }
  destruct (get_files_to_import srv folder st) as [seen st1].
  cbn [fst snd] in *. subst st1.
  destruct seen as [|file seen].
  { split_and!; [done..|]. exists []. unfold Py.len. cbn.
    split_and!; try done. intros. apply Z.div_pos; lia. }
  pose proof (filter_matched_files_buckets (file :: seen)) as Hsum.
  destruct (filter_matched_files (file :: seen)) as [[matched potential] unmatched].
  destruct Hsum as (_ & _ & _ & Hsum). cbn [fst snd].
  assert (Hnn : 0 <= Py.len unmatched + Py.len potential)
    by (unfold Py.len; lia).
  destruct matched as [|m matched].
  { split_and!; [done..|]. exists [].
    assert (Hnil : Py.len (@nil File.t) = 0) by done. rewrite Hnil in *.
    split_and!; try done; try lia. intros. apply Z.div_pos; lia. }
  unfold total_batches, Py.floordiv.
  destruct (Z.eqb_spec (FILE_BATCH_SIZE cfg) 0) as [Hzero|Hnz].
  { split_and!; [done..|]. exists []. split_and!; try done. }
  destruct (file_batches (m :: matched) (FILE_BATCH_SIZE cfg)) as [batches|]
    eqn:Hbatches; [|by apply file_batches_None in Hbatches].
  pose proof (import_batches_count cfg srv batches
                (emit (EGetManualImport folder) st)) as Hcount.
  destruct (import_batches cfg srv batches _) as [n st2].
  destruct Hcount as (Hs & Hf & evs & Hlog & Hev & Hlen & Hn & Hd & Hv).
  split_and!; [done|done|done|]. exists evs.
  assert (Hneg : FILE_BATCH_SIZE cfg < 0 → batches = []).
  { intros Hlt. rewrite file_batches_negative in Hbatches by done.
    by injection Hbatches as <-. }
  split_and!; try done; try lia.
  - cbn in Hlog. by rewrite Hlog, <- app_assoc.
  - intros [Hdry|Hlt]; [by apply Hd|].
    rewrite (Hneg Hlt) in Hlen. unfold Py.len in Hlen. cbn in Hlen.
    destruct evs; [done|cbn in Hlen; lia].
  - intros Hpos.
    destruct (file_batches_concat _ _ _ Hpos Hbatches) as [_ Hceil]. lia.
  - intros Hlt. rewrite (Hneg Hlt) in Hn. unfold Py.len in Hn. cbn in Hn. lia.
Qed.



(** *** The fetch loop in full *)

Lemma first_break (srv : remote) (st : state) (m : nat) :
  (∀ k, (1 <= k <= m)%nat → breaks_at srv st k = false)
  ∨ ∃ n, (1 <= n <= m)%nat ∧ breaks_at srv st n = true
         ∧ ∀ k, (1 <= k < n)%nat → breaks_at srv st k = false.
Proof.
  induction m as [|m [IH|(n & Hn & Hstop & Hgo)]].
  - left. intros k Hk. lia.
  - destruct (breaks_at srv st (S m)) eqn:Hm.
    + right. exists (S m). split_and!; try done; try lia.
      intros k Hk. apply IH. lia.
    + left. intros k Hk. destruct (decide (k = S m)) as [->|]; [done|].
      apply IH. lia.
  - right. exists n. split_and!; try done; lia.
Qed.

(** [X11] [get_stash_scenes] requests the pages 1, 2, 3, ... in order, each
    once, and returns the scenes of the pages it received, in page order.
    It ends on the first page on which the request fails, the reply carries
    errors, no scene is returned or the reported total is reached; as long
    as no page does so, it keeps requesting. *)
Theorem fetch_outcome (srv : remote) (fuel : nat) (st : state) :
  (∃ n, (1 <= n <= fuel)%nat
        ∧ breaks_at srv st n = true
        ∧ (∀ k, (1 <= k < n)%nat → breaks_at srv st k = false)
        ∧ get_stash_scenes srv fuel st
          = (Some (fetched srv st n), emit_all (page_requests n) st))
  ∨ ((∀ k, (1 <= k <= fuel)%nat → breaks_at srv st k = false)
     ∧ get_stash_scenes srv fuel st
       = (None, emit_all (page_requests fuel) st)).
Proof.
  assert (Hst : emit_all (page_requests 0) st = st).
  { destruct st. unfold emit_all. cbn. by rewrite app_nil_r. }
  unfold get_stash_scenes.
  destruct (first_break srv st fuel) as [Hgo|(n & Hn & Hstop & Hgo)].
  - right. split; [done|].
    pose proof (fetch_scenes_goes_on srv st fuel 0) as H.
    cbn [Nat.add] in H. rewrite Hst in H. apply H.
    intros k Hk. apply Hgo. lia.
  - left. exists n. split_and!; try done; try lia.
    destruct n as [|m]; [lia|].
    pose proof (fetch_scenes_from srv st m 0 fuel) as H.
    cbn [Nat.add] in H. rewrite Hst in H. apply H; [lia| |done].
    intros k Hk. apply Hgo. lia.
Qed.

Lemma fetch_outcome_witness :
  (1 <= 3 <= 5)%nat
  ∧ get_stash_scenes short_pages 5 initial_state
    = (Some (fetched short_pages initial_state 3),
       emit_all (page_requests 3) initial_state).
Proof.
  split; [lia|].
  destruct (fetch_outcome short_pages 5 initial_state)
    as [(n & Hn & Hstop & Hgo & Hrun)|[Hgo _]].
  - rewrite Hrun.
    destruct n as [|[|[|[|n]]]]; [lia|by vm_compute in Hstop
      |by vm_compute in Hstop|done|].
    specialize (Hgo 3%nat ltac:(lia)). by vm_compute in Hgo.
  - specialize (Hgo 3%nat ltac:(lia)). by vm_compute in Hgo.
Defined.

(** *** Reasons reported for files that are not imported *)

(** [X12] Every file that [filter_matched_files] reports as unmatched comes
    with at least one reason: the reasons of the import target when it gave
    any, one synthetic reason otherwise.  A potential match carries one
    reason per rejection of its file and the title of its scene entity,
    or of its movie entity when there is no scene entity. *)
Theorem unmatched_have_reasons (files : list File.t) :
  let '(matched, potential, unmatched) := filter_matched_files files in
  Forall (λ u, um_rejections u ≠ []) unmatched
  ∧ Forall (λ u, ∃ f, f ∈ files ∧ um_path u = File.path f
                      ∧ (File.rejections f ≠ [] →
                         um_rejections u = rejection_reasons (File.rejections f))
                      ∧ (File.rejections f = [] →
                         um_rejections u
                         = [VStr "No scene/movie data in response"])) unmatched
  ∧ Forall (λ p, pm_file p ∈ files
                 ∧ length (pm_rejections p)
                   = length (File.rejections (pm_file p))
                 ∧ (present (File.scene (pm_file p)) = true →
                    ∃ d, File.scene (pm_file p) = Some d
                         ∧ pm_scene_title p = get_or d "title" (VStr "Unknown"))
                 ∧ (present (File.scene (pm_file p)) = false →
                    ∃ d, File.movie (pm_file p) = Some d
                         ∧ pm_scene_title p = get_or d "title" (VStr "Unknown")))
           potential.
Proof.
  induction files as [|file files IH]; [done|].
  rewrite filter_matched_files_cons.
  destruct (filter_matched_files files) as [[m p] u].
  destruct IH as (IH1 & IH2 & IH3).
  assert (IH2' : Forall (λ u, ∃ f, f ∈ file :: files ∧ um_path u = File.path f
      ∧ (File.rejections f ≠ [] →
         um_rejections u = rejection_reasons (File.rejections f))
      ∧ (File.rejections f = [] →
         um_rejections u = [VStr "No scene/movie data in response"])) u).
  { eapply Forall_impl; [exact IH2|]. intros x (f & Hf & Hrest).
    exists f. split; [by apply elem_of_cons; right|done]. }
  assert (IH3' : Forall (λ p, pm_file p ∈ file :: files
      ∧ length (pm_rejections p) = length (File.rejections (pm_file p))
      ∧ (present (File.scene (pm_file p)) = true →
         ∃ d, File.scene (pm_file p) = Some d
              ∧ pm_scene_title p = get_or d "title" (VStr "Unknown"))
      ∧ (present (File.scene (pm_file p)) = false →
         ∃ d, File.movie (pm_file p) = Some d
              ∧ pm_scene_title p = get_or d "title" (VStr "Unknown"))) p).
  { eapply Forall_impl; [exact IH3|]. intros x (Hf & Hrest).
    split; [by apply elem_of_cons; right|done]. }
  unfold classify_file.
  destruct (truthy (resolve_scene_id file)); [done|].
  destruct (present (File.scene file) || present (File.movie file)) eqn:Hany.
  - cbn [app]. split_and!; [done..|]. constructor; [|done]. cbn.
    split_and!.
    + by constructor.
    + unfold rejection_reasons. by rewrite length_fmap.
    + intros Hs. unfold py_or. rewrite Hs.
      destruct (File.scene file) as [d|]; [by exists d|done].
    + intros Hs. unfold py_or. rewrite Hs. rewrite Hs in Hany. cbn in Hany.
      destruct (File.movie file) as [d|]; [by exists d|done].
  - cbn [app]. split_and!; [| |done].
    + constructor; [|done]. cbn.
      destruct (File.rejections file) as [|r rs]; [done|].
      unfold rejection_reasons. done.
    + constructor; [|done]. exists file. cbn.
      split_and!; [by constructor|done| |].
      * by destruct (File.rejections file).
      * by intros ->.
Qed.

Lemma unmatched_have_reasons_witness :
  Forall (λ u, um_rejections u ≠ []) (filter_matched_files scenario_files).2.
Proof.
  pose proof (unmatched_have_reasons scenario_files) as H.
  destruct (filter_matched_files scenario_files) as [[m p] u].
  exact (proj1 H).
Defined.

(** *** Summary of a file import *)

Lemma extends_with_refl kind st : extends_with kind st st.
Proof. exists []. by rewrite app_nil_r. Qed.

Lemma extends_with_trans kind st1 st2 st3 :
  extends_with kind st1 st2 → extends_with kind st2 st3 →
  extends_with kind st1 st3.
Proof.
  intros (e1 & H1 & Hk1) (e2 & H2 & Hk2). exists (e1 ++ e2). split.
  - by rewrite H2, H1, app_assoc.
  - by apply Forall_app.
Qed.

Lemma extends_with_emit (kind : event → bool) e st :
  kind e = true → extends_with kind st (emit e st).
Proof. intros He. exists [e]. split; [done|]. by repeat constructor. Qed.

Lemma commands_posted_app e1 e2 :
  commands_posted (e1 ++ e2) = commands_posted e1 + commands_posted e2.
Proof.
  unfold commands_posted, Py.len. rewrite List.filter_app, length_app. lia.
Qed.

Lemma commands_posted_all evs :
  Forall (λ e, is_post_command e = true) evs → commands_posted evs = Py.len evs.
Proof.
  unfold commands_posted, Py.len. induction 1 as [|e evs He _ IH]; [done|].
  cbn. rewrite He. cbn. lia.
Qed.

Lemma scan_directory_file_events (fs : filesystem) (m : Z) (fuel : nat)
    (path : string) (d : Z) :
  Forall (λ e, is_file_event e = true ∧ is_post_command e = false)
         (scan_directory fs m fuel path d).2.
Proof.
  revert path d. induction fuel as [|fuel IH]; intros path d;
    rewrite scan_directory_unfold;
    destruct (Z.gtb_spec d m) as [|Hd]; cbn; try done.
  destruct (listdir fs path) as [items|]; cbn; [|by repeat constructor].
  constructor; [done|].
  apply Forall_forall. intros e He. rewrite <- list_fmap_compose in He.
  apply elem_of_concat_fmap in He as (subfolder & _ & He). cbn in He.
  rewrite visit_subfolder_events in He.
  apply elem_of_cons in He as [->|He]; [done|].
  pose proof (IH subfolder (d + 1)) as Hq. rewrite Forall_forall in Hq. auto.
Qed.

Lemma folders_to_process_file_events (cfg : config) (fs : filesystem) :
  Forall (λ e, is_file_event e = true ∧ is_post_command e = false)
         (folders_to_process cfg fs).2.
Proof.
  unfold folders_to_process, get_all_subfolders_recursive.
  pose proof (scan_directory_file_events fs (MAX_DEPTH cfg)
                (Z.to_nat (MAX_DEPTH cfg)) (IMPORT_FOLDER cfg) 1) as Hq.
  destruct (scan_directory fs _ _ _ 1) as [all scanned]. cbn in Hq.
  destruct (PROCESS_ROOT_FILES cfg); [|done].
  unfold count_files_in_folder.
  destruct (listdir fs (IMPORT_FOLDER cfg)); cbn;
    apply Forall_app; split; try done; by repeat constructor.
Qed.

Lemma len_cons {A} (x : A) (l : list A) : Py.len (x :: l) = 1 + Py.len l.
Proof. unfold Py.len. cbn [length]. lia. Qed.

Lemma process_folders_accounting (cfg : config) (srv : remote)
    (folders : list folder) :
  ∀ st,
  let '(r, st') := process_folders cfg srv folders st in
  stash st' = stash st
  ∧ r ≠ OutOfFuel
  ∧ (r = Raised → FILE_BATCH_SIZE cfg = 0)
  ∧ subfolders_processed (files st) <= subfolders_processed (files st')
      <= subfolders_processed (files st) + Py.len folders
  ∧ (r ≠ Raised →
     subfolders_processed (files st')
     = subfolders_processed (files st) + Py.len folders)
  ∧ files_imported (files st) <= files_imported (files st')
  ∧ files_unmatched (files st) <= files_unmatched (files st')
  ∧ file_batches_processed (files st) <= file_batches_processed (files st')
  ∧ ∃ evs, log st' = log st ++ evs
      ∧ Forall (λ e, is_file_event e = true) evs
      ∧ (DRY_RUN cfg = true ∨ FILE_BATCH_SIZE cfg < 0 →
         commands_posted evs = 0)
      ∧ (DRY_RUN cfg = false →
         file_batches_processed (files st')
           - file_batches_processed (files st) <= commands_posted evs).
Proof.
  induction folders as [|[[path depth] file_count] folders IH]; intros st;
    cbn [process_folders].
  - unfold Py.len. cbn. split_and!; try done; try lia.
    exists []. rewrite app_nil_r. split_and!; try done.
    all: intros _; unfold commands_posted, Py.len; cbn [List.filter length];
      lia.
  - pose proof (process_file_folder_accounting cfg srv path st) as Hf.
    cbn zeta in Hf.
    assert (Hnn : 0 <= Py.len folders) by (unfold Py.len; lia).
    destruct (process_file_folder cfg srv path st)
      as [[[[imported unmatched] batches]| |] st1].
    + destruct Hf as (Hs & Hfs & _ & e1 & Hlog1 & Hev1 & Hquiet1 & Hi & Hsum
                      & Hu & Hb & _ & _ & Hlive1).
      specialize (IH (count_folder imported unmatched batches st1)).
      destruct (process_folders cfg srv folders _) as [r st2].
      destruct IH as (I1 & I2 & I3 & I4 & I5 & I6 & I7 & I8 & e2 & Hlog2 & Hev2
                      & Hquiet2 & Hlive2).
      cbn in I1, I4, I5, I6, I7, I8, Hlog2, Hlive2.
      rewrite Hfs in I4, I5, I6, I7, I8, Hlive2.
      assert (0 <= imported) by (rewrite Hi; unfold Py.len; lia).
      rewrite len_cons.
      split_and!; try done; try lia; try congruence.
      { intros Hr. specialize (I5 Hr). lia. }
      exists (EGetManualImport path :: e1 ++ e2).
      assert (Hposted : commands_posted (EGetManualImport path :: e1 ++ e2)
                        = Py.len e1 + commands_posted e2).
      { change (EGetManualImport path :: e1 ++ e2)
          with ([EGetManualImport path] ++ e1 ++ e2).
        rewrite !commands_posted_app, (commands_posted_all e1) by done.
        unfold commands_posted at 1. unfold Py.len. cbn. lia. }
      rewrite Hposted. split_and!.
      * rewrite Hlog2, Hlog1. by rewrite <- app_assoc.
      * constructor; [done|]. apply Forall_app. split; [|done].
        eapply Forall_impl; [exact Hev1|]. by intros [].
      * intros Hq. rewrite (Hquiet1 Hq), (Hquiet2 Hq). done.
      * intros Hl. specialize (Hlive1 Hl). specialize (Hlive2 Hl). lia.
    + destruct Hf as (Hs & Hfs & _ & e1 & Hlog1 & Hev1 & Hquiet1 & Hzero & _).
      rewrite Hfs, len_cons. split_and!; try done; try lia.
      exists (EGetManualImport path :: e1).
      assert (Hposted : commands_posted (EGetManualImport path :: e1)
                        = Py.len e1).
      { change (EGetManualImport path :: e1)
          with ([EGetManualImport path] ++ e1).
        rewrite !commands_posted_app, (commands_posted_all e1) by done.
        unfold commands_posted at 1. unfold Py.len. cbn. lia. }
      rewrite Hposted. split_and!; try done.
      * constructor; [done|]. eapply Forall_impl; [exact Hev1|]. by intros [].
      * intros Hq. by rewrite (Hquiet1 Hq).
      * intros _. unfold Py.len. lia.
    + by destruct Hf as (_ & _ & _ & e1 & _ & _ & _ & ?).
Qed.



(** *** The operating modes *)

Lemma fetch_scenes_stash_events (srv : remote) (fuel : nat) :
  ∀ page all_scenes st,
  files (fetch_scenes srv fuel page all_scenes st).2 = files st
  ∧ extends_with is_stash_event st (fetch_scenes srv fuel page all_scenes st).2.
Proof.
  induction fuel as [|fuel IH]; intros page all_scenes st; cbn [fetch_scenes].
  - split; [done|apply extends_with_refl].
  - assert (Hemit : extends_with is_stash_event st (emit (EPostGraphql page) st))
      by (by apply extends_with_emit).
    destruct (graphql_reply_to srv (log st) page per_page)
      as [| |scenes total_count]; [done..|].
    destruct scenes as [|scene scenes]; [done|].
    destruct (_ >=? _); [done|].
    destruct (IH (page + 1) (all_scenes ++ scene :: scenes)
                (emit (EPostGraphql page) st)) as [Hf He].
    split; [by rewrite Hf|]. by eapply extends_with_trans.
Qed.

Lemma process_stash_batches_stash_events (cfg : config) (srv : remote)
    (root_folder : option string) (batches : list (list StashDB.t)) :
  ∀ cur st,
  extends_with is_stash_event st
    (process_stash_batches cfg srv batches cur root_folder st).2.
Proof.
  unfold process_stash_batches, process_stash_batch.
  induction batches as [|batch batches IH]; intros cur st.
  - apply extends_with_refl.
  - cbn [foldl].
    destruct (process_scenes_accounting cfg srv root_folder batch 0 0 cur st)
      as (a & f & c & s & e & -> & Hlog & Hev & _).
    eapply extends_with_trans; [|apply IH].
    exists e. split; [done|].
    eapply Forall_impl; [exact Hev|]. by intros ? (scene & _ & ->).
Qed.

Lemma run_stash_sync_stash_events (cfg : config) (srv : remote) (fuel : nat)
    (st : state) :
  files (run_stash_sync cfg srv fuel st).2 = files st
  ∧ extends_with is_stash_event st (run_stash_sync cfg srv fuel st).2.
Proof.
  unfold run_stash_sync, get_stash_scenes, get_root_folders,
    get_whisparr_movies.
  set (st1 := emit EGetRootFolder st).
  assert (H1 : files st1 = files st ∧ extends_with is_stash_event st st1)
    by (split; [done|by apply extends_with_emit]).
  assert (Hroot : ∃ root_folders,
            match rootfolder_reply srv (log st) with
            | HttpOk folders => (folders, st1)
            | _ => ([], st1)
            end = (root_folders, st1))
    by (destruct (rootfolder_reply srv (log st)); by eexists).
  destruct Hroot as [root_folders ->].
  destruct root_folders as [|first others]; [done|].
  set (st2 := emit EGetMovie st1).
  assert (H2 : files st2 = files st ∧ extends_with is_stash_event st st2).
  { split; [done|]. eapply extends_with_trans; [apply H1|].
    by apply extends_with_emit. }
  assert (Hmovies : ∃ movies,
            match movie_reply srv (log st1) with
            | HttpOk movies => (movies, st2)
            | _ => ([], st2)
            end = (movies, st2))
    by (destruct (movie_reply srv (log st1)); by eexists).
  destruct Hmovies as [movies ->].
  destruct (fetch_scenes_stash_events srv fuel 1 [] st2) as [Hf3 He3].
  destruct (fetch_scenes srv fuel 1 [] st2) as [fetched_scenes st3].
  cbn [snd] in *.
  assert (H3 : files st3 = files st ∧ extends_with is_stash_event st st3).
  { split; [by rewrite Hf3, (proj1 H2)|].
    eapply extends_with_trans; [apply H2|done]. }
  destruct fetched_scenes as [all_scenes|]; [|done].
  destruct all_scenes as [|scene all_scenes]; [done|].
  destruct (filter_stashdb_scenes _) as [|s stashdb_scenes]; [done|].
  destruct (total_batches _ _); [|done].
  destruct (file_batches _ _) as [batches|]; [|done].
  match goal with
  | |- context [process_stash_batches cfg srv batches ?cur ?root ?s0] =>
      pose proof (process_stash_batches_stash_events cfg srv root batches
                    cur s0) as H5;
      pose proof (process_stash_batches_accounting cfg srv root batches
                    cur s0) as H6;
      destruct (process_stash_batches cfg srv batches cur root s0) as [cur' st5]
  end.
  cbn [snd] in *. destruct H6 as (_ & _ & _ & _ & _ & _ & _ & H6 & _).
  split; [by rewrite H6, <- (proj1 H3)|].
  eapply extends_with_trans; [apply H3|]. exact H5.
Qed.

Lemma run_file_import_file_events (cfg : config) (srv : remote)
    (fs : filesystem) (st : state) :
  stash (run_file_import cfg srv fs st).2 = stash st
  ∧ (run_file_import cfg srv fs st).1 ≠ OutOfFuel
  ∧ extends_with is_file_event st (run_file_import cfg srv fs st).2
  ∧ ((run_file_import cfg srv fs st).1 = Returned true →
     path_exists fs (IMPORT_FOLDER cfg) = true).
Proof.
  unfold run_file_import.
  destruct (path_exists fs (IMPORT_FOLDER cfg)); cbn [negb];
    [|by split_and!; try done; apply extends_with_refl].
  pose proof (folders_to_process_file_events cfg fs) as Hdisc.
  destruct (folders_to_process cfg fs) as [folders events]. cbn [fst snd] in *.
  assert (H1 : extends_with is_file_event st (emit_all events st)).
  { exists events. split; [done|].
    eapply Forall_impl; [exact Hdisc|]. by intros e []. }
  destruct folders as [|x folders]; [by split_and!|].
  pose proof (process_folders_accounting cfg srv (x :: folders)
                (emit_all events st)) as Hacc.
  destruct (process_folders cfg srv (x :: folders) (emit_all events st))
    as [r st1].
  destruct Hacc as (I1 & I2 & _ & _ & _ & _ & _ & _ & evs & Hlog & Hev & _).
  assert (H2 : extends_with is_file_event st st1).
  { eapply extends_with_trans; [exact H1|]. by exists evs. }
  by destruct r.
Qed.

(** [X14] No exception escapes [run_all_imports].  The catalog sync runs
    first and the file import after it, each only in its modes; without a
    catalog key the sync makes no request.  A pipeline that does not run
    leaves its counters alone, and the catalog sync never touches those of
    the file import nor the file import those of the catalog sync.  The
    result is [True] only if every pipeline of the mode succeeded: the
    catalog key is set and the sync returned [True], and the import folder
    exists.  With the catalog sync not in the mode, or its key missing, the
    file import runs as it would alone. *)
Theorem import_modes (cfg : config) (srv : remote) (fs : filesystem)
    (fuel : nat) (st : state) :
  let '(r, st') := run_all_imports cfg srv fs fuel st in
  let stash_mode := MODE cfg ∈ ["both"; "stash"] in
  let files_mode := MODE cfg ∈ ["both"; "files"] in
  r ≠ Raised
  ∧ (r = Returned true →
     (stash_mode →
      STASH_API_KEY cfg ≠ ""
      ∧ (run_stash_sync cfg srv fuel st).1 = Returned true)
     ∧ (files_mode → path_exists fs (IMPORT_FOLDER cfg) = true))
  ∧ (r = OutOfFuel →
     stash_mode ∧ STASH_API_KEY cfg ≠ ""
     ∧ (run_stash_sync cfg srv fuel st).1 = OutOfFuel)
  ∧ (∃ e1 e2, log st' = log st ++ e1 ++ e2
      ∧ Forall (λ e, is_stash_event e = true) e1
      ∧ Forall (λ e, is_file_event e = true) e2
      ∧ (¬ stash_mode ∨ STASH_API_KEY cfg = "" →
         e1 = [] ∧ stash st' = stash st)
      ∧ (¬ files_mode → e2 = [] ∧ files st' = files st))
  ∧ (files_mode → ¬ stash_mode ∨ STASH_API_KEY cfg = "" →
     st' = (run_file_import cfg srv fs st).2).
Proof.
  unfold run_all_imports.
  destruct (run_stash_sync_stash_events cfg srv fuel st) as [Hsf Hse].
  destruct (run_stash_sync cfg srv fuel st) as [rs st1] eqn:Hsync.
  cbn [fst snd] in *.
  set (sync := if bool_decide (MODE cfg ∈ ["both"; "stash"])
               then if String.eqb (STASH_API_KEY cfg) "" then (Returned false, st)
                    else match rs with
                         | Returned ok => (Returned ok, st1)
                         | Raised => (Returned false, st1)
                         | OutOfFuel => (OutOfFuel, st1)
                         end
               else (Returned true, st)).
  assert (Hs : ∃ synced st2 e1,
    sync = (synced, st2)
    ∧ synced ≠ Raised
    ∧ log st2 = log st ++ e1
    ∧ Forall (λ e, is_stash_event e = true) e1
    ∧ files st2 = files st
    ∧ (synced = Returned true → MODE cfg ∈ ["both"; "stash"] →
       STASH_API_KEY cfg ≠ "" ∧ rs = Returned true)
    ∧ (synced = OutOfFuel →
       MODE cfg ∈ ["both"; "stash"] ∧ STASH_API_KEY cfg ≠ ""
       ∧ rs = OutOfFuel)
    ∧ (¬ MODE cfg ∈ ["both"; "stash"] ∨ STASH_API_KEY cfg = "" →
       e1 = [] ∧ st2 = st)).
  { subst sync. case_bool_decide as Hmode.
    - destruct (String.eqb_spec (STASH_API_KEY cfg) "") as [Hkey|Hkey].
      + exists (Returned false), st, []. rewrite app_nil_r.
        by split_and!.
      + destruct Hse as (e1 & Hlog & Hev).
        destruct rs as [ok| |]; eexists _, st1, e1;
          (split_and!; try done; try (by intros [?|?]); try (by intros [= ->])).
    - exists (Returned true), st, []. rewrite app_nil_r. by split_and!. }
  destruct Hs as (synced & st2 & e1 & -> & Hnr & Hlog1 & Hev1 & Hfiles1 & Htrue
                  & Hfuel & Hskip).
  destruct synced as [success| |]; [|done|].
  2: { split_and!; try done.
       - exists e1, []. rewrite app_nil_r.
         split_and!; try done. intros Hno. destruct (Hskip Hno) as [-> ->].
         done.
       - intros _ Hno. destruct (Hfuel eq_refl) as (? & ? & _).
         by destruct Hno. }
  destruct (run_file_import_file_events cfg srv fs st2)
    as (Hfs & Hnf & (e2 & Hlog2 & Hev2) & Hexists).
  case_bool_decide as Hfmode.
  - destruct (run_file_import cfg srv fs st2) as [rf st3] eqn:Himport.
    cbn [fst snd] in *.
    assert (Hlog : ∃ e1 e2, log st3 = log st ++ e1 ++ e2
      ∧ Forall (λ e, is_stash_event e = true) e1
      ∧ Forall (λ e, is_file_event e = true) e2
      ∧ (¬ MODE cfg ∈ ["both"; "stash"] ∨ STASH_API_KEY cfg = "" →
         e1 = [] ∧ stash st3 = stash st)
      ∧ (¬ MODE cfg ∈ ["both"; "files"] → e2 = [] ∧ files st3 = files st)).
    { exists e1, e2. rewrite Hlog2, Hlog1, app_assoc.
      split_and!; try done. intros Hno. destruct (Hskip Hno) as [-> ->].
      by rewrite Hfs. }
    assert (Hsame : ¬ MODE cfg ∈ ["both"; "stash"] ∨ STASH_API_KEY cfg = "" →
                    st3 = (run_file_import cfg srv fs st).2).
    { intros Hno. destruct (Hskip Hno) as [_ ->]. by rewrite Himport. }
    destruct rf as [ok| |]; [|by split_and!|done].
    split_and!; try done.
    intros [= Hboth]. apply andb_true_iff in Hboth as [-> ->].
    split; [by apply Htrue|]. intros _. by apply Hexists.
  - split_and!; try done.
    + intros [= ->]. split; [by apply Htrue|done].
    + exists e1, []. rewrite app_nil_r.
      split_and!; try done. intros Hno. by destruct (Hskip Hno) as [-> ->].
Qed.

Lemma import_modes_witness :
  (run_all_imports (with_mode "both" "" (scenario_config false)) scenario_remote
     scenario_fs 5 initial_state).2
  = (run_file_import (with_mode "both" "" (scenario_config false))
       scenario_remote scenario_fs initial_state).2.
Proof.
  pose proof (import_modes (with_mode "both" "" (scenario_config false))
                scenario_remote scenario_fs 5 initial_state) as H.
  destruct (run_all_imports (with_mode "both" "" (scenario_config false))
              scenario_remote scenario_fs 5 initial_state) as [r st'].
  destruct H as (_ & _ & _ & _ & H). cbn [snd]. apply H.
  - cbn [MODE with_mode]. by constructor.
  - right. done.
Defined.

(** *** Outcome of one registration *)

(** [X15] A live registration posts exactly one request, for the StashDB
    id as [stashId] and [foreignId], with tags only when some are
    configured.  It succeeds exactly when the import target accepts the
    request or answers 400 with a body that mentions [already] or [exist];
    any other answer, whatever its body says, is a failure.  No counter
    changes except [scenes_already_exist], which grows by one exactly for
    such a 400 answer. *)
Theorem registration_outcome (cfg : config) (srv : remote)
    (stash_id title : string) (root_folder : option string) (st : state) :
  DRY_RUN cfg = false →
  let data := make_add_data cfg stash_id title root_folder in
  let reply := add_reply_to srv (log st) data in
  let '(ok, st') :=
    add_scene_to_whisparr cfg srv stash_id title root_folder st in
  log st' = log st ++ [EPostMovie data]
  ∧ add_stashId data = stash_id ∧ add_foreignId data = stash_id
  ∧ (add_tags data = None ↔ TAG_IDS cfg = [])
  ∧ (ok = true ↔
     (∃ t, reply = AddOk t)
     ∨ ∃ msg, reply = AddHttpError 400 (Some msg)
              ∧ (str_in "already" msg = true ∨ str_in "exist" msg = true))
  ∧ only_already_exist_changed st st'
  ∧ ((∃ t, reply = AddOk t) ∨ ok = false →
     scenes_already_exist (stash st') = scenes_already_exist (stash st))
  ∧ ((∃ status msg, reply = AddHttpError status msg) → ok = true →
     scenes_already_exist (stash st') = scenes_already_exist (stash st) + 1).
Proof.
  intros Hlive data reply.
  rewrite (add_scene_live cfg srv root_folder stash_id title st Hlive).
  cbn zeta. fold data. fold reply.
  assert (Htags : add_tags data = None ↔ TAG_IDS cfg = []).
  { subst data. unfold make_add_data. cbn [add_tags].
    by destruct (TAG_IDS cfg). }
  assert (Hok : accepted reply = true ↔
     (∃ t, reply = AddOk t)
     ∨ ∃ msg, reply = AddHttpError 400 (Some msg)
              ∧ (str_in "already" msg = true ∨ str_in "exist" msg = true)).
  { destruct reply as [t|status [msg|]|]; cbn [accepted reported_existing].
    - split; [by left; eexists|done].
    - rewrite andb_true_iff, orb_true_iff, Z.eqb_eq. split.
      + intros [-> Hmsg]. right. by exists msg.
      + intros [[t [=]]|(m & [= -> ->] & Hmsg)]. done.
    - split; [done|]. by intros [[t [=]]|(m & [=] & _)].
    - split; [done|]. by intros [[t [=]]|(m & [=] & _)]. }
  assert (Hex : reported_existing reply = true ↔
     (∃ status msg, reply = AddHttpError status msg) ∧ accepted reply = true).
  { destruct reply as [t|status [msg|]|]; cbn [accepted reported_existing];
      split; try done; try (by intros [(? & ? & [=]) _]); try (by intros [_ ?]).
    intros H. split; [by eexists _, _|done]. }
  destruct (reported_existing reply) eqn:Hre.
  - destruct (proj1 Hex eq_refl) as [(status & msg & Hreply) Hacc].
    split_and!; try done.
    + intros [[t Ht]|Hno]; [congruence|congruence].
  - split_and!; try done.
    intros Herr Hacc. by pose proof (proj2 Hex (conj Herr Hacc)).
Qed.

Lemma registration_outcome_witness :
  DRY_RUN (scenario_config false) = false
  ∧ log (add_scene_to_whisparr (scenario_config false) refusing_remote
           "id-1" "one" None initial_state).2
    = [EPostMovie (make_add_data (scenario_config false) "id-1" "one" None)].
Proof.
  split; [done|].
  pose proof (registration_outcome (scenario_config false) refusing_remote
                "id-1" "one" None initial_state eq_refl) as H.
  cbn zeta in H.
  destruct (add_scene_to_whisparr (scenario_config false) refusing_remote
              "id-1" "one" None initial_state) as [ok st'].
  exact (proj1 H).
Defined.

(** *** The registrations of a catalog sync *)

Lemma process_stash_batches_requests (cfg : config) (srv : remote)
    (root_folder : option string) (batches : list (list StashDB.t)) :
  ∀ cur st,
  ∃ evs,
    log (process_stash_batches cfg srv batches cur root_folder st).2
    = log st ++ evs
    ∧ Forall (λ e, ∃ scene, scene ∈ concat batches
                            ∧ e = registration_of cfg root_folder scene) evs
    ∧ (DRY_RUN cfg = true → evs = []).
Proof.
  unfold process_stash_batches, process_stash_batch.
  induction batches as [|batch batches IH]; intros cur st.
  - exists []. by rewrite app_nil_r.
  - cbn [foldl].
    destruct (process_scenes_accounting cfg srv root_folder batch 0 0 cur st)
      as (a & f & c & s & e & -> & Hlog & Hev & Hdry & _).
    destruct (IH c (count_stash_batch a f s)) as (e2 & Hlog2 & Hev2 & Hdry2).
    exists (e ++ e2). split_and!.
    + rewrite Hlog2. cbn. by rewrite Hlog, app_assoc.
    + apply Forall_app. split; (eapply Forall_impl; [done|]);
        intros ? (scene & Hin & ->); exists scene; (split; [|done]);
        cbn [concat]; apply elem_of_app; auto.
    + intros Hd. by rewrite (Hdry Hd), (Hdry2 Hd).
Qed.

(** [X16] Every registration of a catalog sync is made in a live run with
    a positive batch size, for an entry of the catalog that carries a
    StashDB id, with that id and the title of the entry.  Its root folder
    is the configured [ROOT_FOLDER_PATH] if there is one, else the path of
    the first root folder of the import target.  No registration is made
    for an id that one of the movies of the import target already has. *)
Theorem stash_sync_registrations (cfg : config) (srv : remote) (fuel : nat)
    (st : state) :
  ∃ evs, log (run_stash_sync cfg srv fuel st).2 = log st ++ evs
    ∧ ∀ d, EPostMovie d ∈ evs →
        DRY_RUN cfg = false
        ∧ 0 < STASH_BATCH_SIZE cfg
        ∧ (∃ first,
             head (get_root_folders srv st).1 = Some first
             ∧ add_rootFolderPath d
               = if String.eqb (ROOT_FOLDER_PATH cfg) "" then first
                 else Some (ROOT_FOLDER_PATH cfg))
        ∧ (add_stashId d ≠ "" →
           Some (add_stashId d)
             ∉ (get_whisparr_movies srv (emit EGetRootFolder st)).1)
        ∧ ∃ scenes scene entry,
            (get_stash_scenes srv fuel
               (emit EGetMovie (emit EGetRootFolder st))).1 = Some scenes
            ∧ scene ∈ scenes
            ∧ stashdb_scene scene = Some entry
            ∧ add_stashId d = StashDB.stash_id entry
            ∧ add_foreignId d = StashDB.stash_id entry
            ∧ add_title d = StashDB.title entry.
Proof.
  assert (Hquiet : ∀ s s' : state, extends_quietly s s' →
    ∃ evs, log s' = log s ++ evs ∧ ∀ d, EPostMovie d ∈ evs → False).
  { intros s s' (evs & Hlog & Hev). exists evs. split; [done|].
    intros d Hd. rewrite Forall_forall in Hev. by specialize (Hev _ Hd). }
  assert (Hdone : ∀ s' : state, extends_quietly st s' →
    ∃ evs, log s' = log st ++ evs
      ∧ ∀ d, EPostMovie d ∈ evs →
        DRY_RUN cfg = false
        ∧ 0 < STASH_BATCH_SIZE cfg
        ∧ (∃ first,
             head (get_root_folders srv st).1 = Some first
             ∧ add_rootFolderPath d
               = if String.eqb (ROOT_FOLDER_PATH cfg) "" then first
                 else Some (ROOT_FOLDER_PATH cfg))
        ∧ (add_stashId d ≠ "" →
           Some (add_stashId d)
             ∉ (get_whisparr_movies srv (emit EGetRootFolder st)).1)
        ∧ ∃ scenes scene entry,
            (get_stash_scenes srv fuel
               (emit EGetMovie (emit EGetRootFolder st))).1 = Some scenes
            ∧ scene ∈ scenes
            ∧ stashdb_scene scene = Some entry
            ∧ add_stashId d = StashDB.stash_id entry
            ∧ add_foreignId d = StashDB.stash_id entry
            ∧ add_title d = StashDB.title entry).
  { intros s' Hq. destruct (Hquiet _ _ Hq) as (evs & Hlog & Hno).
    exists evs. split; [done|]. intros d Hd. by destruct (Hno d Hd). }
  unfold run_stash_sync.
  pose proof (get_root_folders_quiet srv st) as H1.
  assert (Hemit : (get_root_folders srv st).2 = emit EGetRootFolder st).
  { unfold get_root_folders. by destruct (rootfolder_reply srv (log st)). }
  destruct (get_root_folders srv st) as [root_folders st1].
  cbn [fst snd] in *. subst st1.
  destruct root_folders as [|first others]; [by apply Hdone|].
  pose proof (get_whisparr_movies_quiet srv (emit EGetRootFolder st)) as H2.
  assert (Hemit : (get_whisparr_movies srv (emit EGetRootFolder st)).2
                  = emit EGetMovie (emit EGetRootFolder st)).
  { unfold get_whisparr_movies. by destruct (movie_reply srv _). }
  destruct (get_whisparr_movies srv (emit EGetRootFolder st)) as [movies st2].
  cbn [fst snd] in *. subst st2.
  set (st2 := emit EGetMovie (emit EGetRootFolder st)) in *.
  unfold get_stash_scenes in *.
  pose proof (fetch_scenes_quiet srv fuel 1 [] st2) as H3.
  destruct (fetch_scenes srv fuel 1 [] st2) as [fetched_scenes st3].
  cbn [fst snd] in *.
  assert (H4 : extends_quietly st st3)
    by (eapply extends_quietly_trans; [|done]; by eapply extends_quietly_trans).
  destruct fetched_scenes as [all_scenes|]; [|by apply Hdone].
  destruct all_scenes as [|scene0 all_scenes]; [by apply Hdone|].
  destruct (filter_stashdb_scenes (scene0 :: all_scenes))
    as [|s stashdb_scenes] eqn:Hfilter; [by apply Hdone|].
  unfold total_batches, Py.floordiv.
  destruct (Z.eqb_spec (STASH_BATCH_SIZE cfg) 0) as [Hzero|Hnz];
    [by apply Hdone|].
  destruct (file_batches (s :: stashdb_scenes) (STASH_BATCH_SIZE cfg))
    as [batches|] eqn:Hbatches; [|by apply file_batches_None in Hbatches].
  set (root_folder := if String.eqb (ROOT_FOLDER_PATH cfg) "" then first
                      else Some (ROOT_FOLDER_PATH cfg)).
  set (existing := list_to_set (omap _ movies) : gset string).
  destruct (process_stash_batches_requests cfg srv root_folder batches
              existing (set_scenes_with_stashdb
                          (Py.len (s :: stashdb_scenes))
                          (set_scenes_found (Py.len (scene0 :: all_scenes))
                             st3)))
    as (evs & Hlog & Hev & Hdry).
  destruct (process_stash_batches_ok cfg srv root_folder (log st3) existing
              batches [] existing
              (set_scenes_with_stashdb (Py.len (s :: stashdb_scenes))
                 (set_scenes_found (Py.len (scene0 :: all_scenes)) st3)))
    as (cur' & st5 & evs' & Hrun & Hlog' & _ & Hfresh & _).
  { cbn. by rewrite app_nil_r. }
  { split_and!; [done| |]; intros i; intros; by rewrite lookup_nil in *. }
  rewrite Hrun in Hlog |- *. cbn [snd] in *. cbn in Hlog.
  assert (evs' = evs) as -> by (rewrite Hlog' in Hlog; by apply app_inv_head in Hlog).
  destruct H4 as (e0 & Hlog0 & Hq0).
  exists (e0 ++ evs). split; [by rewrite Hlog', Hlog0, app_assoc|].
  intros d [Hd|Hd]%elem_of_app.
  { rewrite Forall_forall in Hq0. by specialize (Hq0 _ Hd). }
  assert (Hpos : 0 < STASH_BATCH_SIZE cfg).
  { destruct (Z.lt_trichotomy (STASH_BATCH_SIZE cfg) 0) as [Hneg|[?|?]];
      [|done..].
    rewrite file_batches_negative in Hbatches by done.
    injection Hbatches as <-. cbn in Hrun. injection Hrun as _ <-.
    cbn in Hlog'. symmetry in Hlog'.
    rewrite <- (app_nil_r (log st3)) in Hlog' at 2.
    apply app_inv_head in Hlog'. subst evs. by apply elem_of_nil in Hd. }
  destruct (file_batches_concat _ _ _ Hpos Hbatches) as [Hconcat _].
  rewrite Forall_forall in Hev.
  destruct (Hev _ Hd) as (entry & Hentry & Hreg).
  injection Hreg as ->. rewrite Hconcat, <- Hfilter in Hentry.
  apply list_elem_of_omap in Hentry as (scene & Hscene & Hsome).
  apply list_elem_of_lookup_1 in Hd as [i Hi].
  destruct (Hfresh i _ Hi) as [Hnew _]. cbn [add_stashId make_add_data] in *.
  split_and!.
  - destruct (DRY_RUN cfg) eqn:Hd; [|done].
    rewrite (Hdry eq_refl) in Hi. by rewrite lookup_nil in Hi.
  - done.
  - by exists first.
  - intros Hne Hin. apply Hnew. subst existing.
    apply elem_of_list_to_set, list_elem_of_omap.
    exists (Some (StashDB.stash_id entry)). split; [done|].
    destruct (String.eqb_spec (StashDB.stash_id entry) ""); [done|done].
  - by exists (scene0 :: all_scenes), scene, entry.
Qed.

Lemma stash_sync_registrations_witness :
  EPostMovie (make_add_data (scenario_config false) "id-2" "two" (Some "/data"))
    ∈ log (run_stash_sync (scenario_config false) scenario_remote 5
             initial_state).2
  ∧ ∃ scenes scene entry,
      (get_stash_scenes scenario_remote 5
         (emit EGetMovie (emit EGetRootFolder initial_state))).1 = Some scenes
      ∧ scene ∈ scenes
      ∧ stashdb_scene scene = Some entry
      ∧ StashDB.stash_id entry = "id-2"
      ∧ StashDB.title entry = "two".
Proof.
  assert (Hd : EPostMovie (make_add_data (scenario_config false) "id-2" "two"
                             (Some "/data"))
    ∈ log (run_stash_sync (scenario_config false) scenario_remote 5
             initial_state).2).
  { vm_compute. do 4 constructor. constructor. }
  split; [exact Hd|].
  destruct (stash_sync_registrations (scenario_config false) scenario_remote 5
              initial_state) as (evs & Hlog & Hall).
  cbn [log initial_state app] in Hlog. rewrite Hlog in Hd.
  destruct (Hall _ Hd)
    as (_ & _ & _ & _ & scenes & scene & entry & H1 & H2 & H3 & H4 & _ & H5).
  by exists scenes, scene, entry.
Defined.
